(** * Resize: the reference resize workload of ArmNN

    A shallow embedding of [src/backends/reference/workloads/Resize.cpp]
    and the properties of its two interpolation policies.

    - [unsigned int] is a [Z] in [[0, 2^32)] with the wrap-around written
      out ([wrap32]);
    - [float] is an IEEE-754 binary32 number and [double] a binary64 number,
      both as [spec_float] with the operations of the Standard Library's
      executable specification (round to nearest, ties to even);
    - the decoder and the encoder are a read-only buffer and a write log,
      threaded through a small state-and-error monad. *)

From Stdlib Require Import ZArith List Lia Bool SpecFloat.
Import ListNotations.
Open Scope Z_scope.

(** ** Machine integers *)

Definition wrap32 (z : Z) : Z := z mod 2 ^ 32.

(** ** Floating point *)

(** binary32: a significand of 24 bits, infinities at exponent 128. *)
Module F32.
Definition add := SFadd 24 128.
Definition sub := SFsub 24 128.
Definition mul := SFmul 24 128.
Definition div := SFdiv 24 128.
Definition valid := valid_binary 24 128.

(** The literal [1.f]. *)
Definition one : spec_float := S754_finite false 8388608 (-23).

(** Conversion of an integer to [float], correctly rounded. *)
Definition of_Z (n : Z) : spec_float := binary_normalize 24 128 n 0 false.
End F32.

(** binary64: a significand of 53 bits, infinities at exponent 1024. *)
Module F64.
Definition add := SFadd 53 1024.
Definition mul := SFmul 53 1024.
Definition sqrt := SFsqrt 53 1024.

(** The implicit conversion [float -> double]; it is exact. *)
Definition of_float (x : spec_float) : spec_float :=
  match x with
  | S754_finite s m e => binary_round 53 1024 s m e
  | _ => x
  end.

(** [pow(x, 2)]: the square of a binary32 value fits a binary64
    significand, so the result is the (exact) product. *)
Definition pow2 (x : spec_float) : spec_float := mul x x.
End F64.

Definition is_finite (x : spec_float) : bool :=
  match x with
  | S754_zero _ | S754_finite _ _ _ => true
  | _ => false
  end.

Definition is_nan (x : spec_float) : bool :=
  match x with
  | S754_nan => true
  | _ => false
  end.

(** A number that is not a NaN and carries the sign [s]. *)
Definition signed_as (s : bool) (x : spec_float) : Prop :=
  x = S754_zero s \/ x = S754_infinity s \/ exists m e, x = S754_finite s m e.

(** A shift record with nothing shifted out yet. *)
Definition rec0 (m : Z) : shr_record := {| shr_m := m; shr_r := false; shr_s := false |}.

(** The integer part of a finite number, rounded towards minus infinity
    ([Z.shiftl] by a negative amount is the flooring right shift). *)
Definition floorZ (x : spec_float) : Z :=
  match x with
  | S754_finite s m e => Z.shiftl (cond_Zopp s (Zpos m)) e
  | _ => 0
  end.

(** The integer part of a finite number, rounded towards zero. *)
Definition truncZ (x : spec_float) : Z :=
  match x with
  | S754_finite s m e => cond_Zopp s (Z.shiftl (Zpos m) e)
  | _ => 0
  end.

(** [floorf]: the largest integral value not above [x], as a [float].
    That value is always representable, so the conversion back is exact;
    zeros, infinities and NaN are returned as they are. *)
Definition floorf (x : spec_float) : spec_float :=
  match x with
  | S754_finite s _ _ => binary_normalize 24 128 (floorZ x) 0 s
  | _ => x
  end.

(** ** Errors *)

Inductive Error : Type :=
| BadNumericCast   (* [boost::numeric_cast] refuses the value *)
| OutOfBounds.     (* a read outside the decoder's buffer *)

Inductive Outcome (A : Type) : Type :=
| Ok (a : A)
| Fail (e : Error).
Arguments Ok {A} a.
Arguments Fail {A} e.

(** [boost::numeric_cast<float>(unsigned int)]: every value is in range. *)
Definition numeric_cast_float (n : Z) : spec_float := F32.of_Z n.

(** [boost::numeric_cast<unsigned int>(float)]: values at or below [-1] and
    at or above [2^32] are refused, the others are truncated.  Infinities
    are out of range; a NaN has no integer value and is refused too. *)
Definition numeric_cast_uint (x : spec_float) : Outcome Z :=
  match x with
  | S754_zero _ => Ok 0
  | S754_finite _ _ _ =>
      let t := truncZ x in
      if (t <=? -1) || (2 ^ 32 <=? t) then Fail BadNumericCast else Ok t
  | _ => Fail BadNumericCast
  end.

(** ** Shapes and layouts *)

Definition TensorShape := list Z.

Definition dim (shape : TensorShape) (i : nat) : Z := nth i shape 0.

Inductive DataLayout : Type := NCHW | NHWC.

Definition GetChannelsIndex (l : DataLayout) : nat :=
  match l with NCHW => 1%nat | NHWC => 3%nat end.
Definition GetHeightIndex (l : DataLayout) : nat :=
  match l with NCHW => 2%nat | NHWC => 1%nat end.
Definition GetWidthIndex (l : DataLayout) : nat :=
  match l with NCHW => 3%nat | NHWC => 2%nat end.

(** Modelled from the spec: [DataLayoutIndexed::GetIndex] is declared
    outside the source file; the spec describes it as the pure function
    from a shape and a logical (batch, channel, row, column) coordinate to
    the flat element offset, for the channel-first and the channel-last
    axis order.  This is the row-major offset in the physical axis order. *)
Definition GetIndex (l : DataLayout) (shape : TensorShape)
           (batchIndex channelIndex heightIndex widthIndex : Z) : Z :=
  match l with
  | NHWC =>
      batchIndex * (dim shape 1 * dim shape 2 * dim shape 3)
      + channelIndex
      + heightIndex * (dim shape (GetWidthIndex l) * dim shape (GetChannelsIndex l))
      + widthIndex * dim shape (GetChannelsIndex l)
  | NCHW =>
      batchIndex * (dim shape 1 * dim shape 2 * dim shape 3)
      + channelIndex * (dim shape (GetHeightIndex l) * dim shape (GetWidthIndex l))
      + heightIndex * dim shape (GetWidthIndex l)
      + widthIndex
  end.

(** The shape of a tensor of logical extents [N], [C], [H], [W]. *)
Definition mkShape (l : DataLayout) (N C H W : Z) : TensorShape :=
  match l with
  | NCHW => [N; C; H; W]
  | NHWC => [N; H; W; C]
  end.

(** ** Interpolation method *)

(** The two enumerators, and any other value of the underlying type. *)
Inductive ResizeMethod : Type :=
| Bilinear
| NearestNeighbor
| OtherMethod (raw : Z).

(** ** Decoder, encoder and the kernel monad *)

(** Modelled from the spec: the scalar reader is indexable by a flat
    offset and readable at the selected offset.  Its buffer holds
    [dec_size] elements. *)
Record Decoder : Type := {
  dec_size : Z;
  dec_elem : Z -> spec_float
}.

(** The mutable part: the position of the reader, the position of the
    writer and the log of the writes (the latest first). *)
Record Kernel : Type := {
  in_pos : Z;
  out_pos : Z;
  out_log : list (Z * spec_float)
}.

Definition M (A : Type) : Type := Kernel -> Outcome A * Kernel.

Definition ret {A} (a : A) : M A := fun k => (Ok a, k).

Definition bind {A B} (m : M A) (f : A -> M B) : M B :=
  fun k =>
    match m k with
    | (Ok a, k') => f a k'
    | (Fail e, k') => (Fail e, k')
    end.

Definition lift {A} (o : Outcome A) : M A := fun k => (o, k).

Declare Scope kernel_scope.
Delimit Scope kernel_scope with kernel.
Notation "x <- m ;; f" := (bind m (fun x => f))
  (at level 100, m at next level, right associativity) : kernel_scope.
Notation "m ;; f" := (bind m (fun _ => f))
  (at level 100, right associativity) : kernel_scope.
Open Scope kernel_scope.

(** [in[index]] *)
Definition Decoder_at (index : Z) : M unit :=
  fun k => (Ok tt, {| in_pos := index; out_pos := out_pos k; out_log := out_log k |}).

(** [in.Get()] *)
Definition Decoder_Get (inp : Decoder) : M spec_float :=
  fun k =>
    if (0 <=? in_pos k) && (in_pos k <? dec_size inp)
    then (Ok (dec_elem inp (in_pos k)), k)
    else (Fail OutOfBounds, k).

(** [out[index]] *)
Definition Encoder_at (index : Z) : M unit :=
  fun k => (Ok tt, {| in_pos := in_pos k; out_pos := index; out_log := out_log k |}).

(** [out.Set(value)] *)
Definition Encoder_Set (value : spec_float) : M unit :=
  fun k => (Ok tt, {| in_pos := in_pos k; out_pos := out_pos k;
                      out_log := (out_pos k, value) :: out_log k |}).

(** [for (unsigned int i = 0; i < bound; ++i) body] *)
Fixpoint for_from (count : nat) (i : Z) (body : Z -> M unit) : M unit :=
  match count with
  | O => ret tt
  | S count' => body i ;; for_from count' (i + 1) body
  end.

Definition for_loop (bound : Z) (body : Z -> M unit) : M unit :=
  for_from (Z.to_nat bound) 0 body.

(** ** The kernel *)

Definition Lerp (a b w : spec_float) : spec_float :=
  F32.add (F32.mul w b) (F32.mul (F32.sub F32.one w) a).

(** [std::sqrt(pow(dx, 2) + pow(dy, 2))], computed in [double]. *)
Definition distance (dx dy : spec_float) : spec_float :=
  F64.sqrt (F64.add (F64.pow2 (F64.of_float dx)) (F64.pow2 (F64.of_float dy))).

Definition Resize (inp : Decoder) (inputInfo : TensorShape)
           (outputInfo : TensorShape) (dataLayout : DataLayout)
           (resizeMethod : ResizeMethod) : M unit :=
  let batchSize := dim inputInfo 0 in
  let channelCount := dim inputInfo (GetChannelsIndex dataLayout) in
  let inputHeight := dim inputInfo (GetHeightIndex dataLayout) in
  let inputWidth := dim inputInfo (GetWidthIndex dataLayout) in
  let outputHeight := dim outputInfo (GetHeightIndex dataLayout) in
  let outputWidth := dim outputInfo (GetWidthIndex dataLayout) in
  let scaleY := F32.div (numeric_cast_float inputHeight) (numeric_cast_float outputHeight) in
  let scaleX := F32.div (numeric_cast_float inputWidth) (numeric_cast_float outputWidth) in
  let inputShape := inputInfo in
  let outputShape := outputInfo in
  for_loop batchSize (fun n =>
    for_loop channelCount (fun c =>
      for_loop outputHeight (fun y =>
        let iy := F32.mul (numeric_cast_float y) scaleY in
        let fiy := floorf iy in
        y0 <- lift (numeric_cast_uint fiy) ;;
        let yw := F32.sub iy fiy in
        for_loop outputWidth (fun x =>
          let ix := F32.mul (numeric_cast_float x) scaleX in
          let fix_ := floorf ix in
          x0 <- lift (numeric_cast_uint fix_) ;;
          let xw := F32.sub ix fix_ in
          let x1 := Z.min (wrap32 (x0 + 1)) (wrap32 (inputWidth - 1)) in
          let y1 := Z.min (wrap32 (y0 + 1)) (wrap32 (inputHeight - 1)) in
          interpolatedValue <-
            match resizeMethod with
            | Bilinear =>
                Decoder_at (GetIndex dataLayout inputShape n c y0 x0) ;;
                input1 <- Decoder_Get inp ;;
                Decoder_at (GetIndex dataLayout inputShape n c y0 x1) ;;
                input2 <- Decoder_Get inp ;;
                Decoder_at (GetIndex dataLayout inputShape n c y1 x0) ;;
                input3 <- Decoder_Get inp ;;
                Decoder_at (GetIndex dataLayout inputShape n c y1 x1) ;;
                input4 <- Decoder_Get inp ;;
                let ly0 := Lerp input1 input2 xw in
                let ly1 := Lerp input3 input4 xw in
                ret (Lerp ly0 ly1 yw)
            | _ =>
                let distance0 :=
                  distance (F32.sub fix_ (numeric_cast_float x0))
                           (F32.sub fiy (numeric_cast_float y0)) in
                let distance1 :=
                  distance (F32.sub fix_ (numeric_cast_float x1))
                           (F32.sub fiy (numeric_cast_float y1)) in
                let xNearest := if SFleb distance0 distance1 then x0 else x1 in
                let yNearest := if SFleb distance0 distance1 then y0 else y1 in
                Decoder_at (GetIndex dataLayout inputShape n c yNearest xNearest) ;;
                Decoder_Get inp
            end ;;
          Encoder_at (GetIndex dataLayout outputShape n c y x) ;;
          Encoder_Set interpolatedValue)))).

(** The state in which a call starts, and the value an element of the
    output buffer holds after the writes of a log (the latest write wins;
    [None] where nothing was written). *)
Definition start : Kernel := {| in_pos := 0; out_pos := 0; out_log := [] |}.

Fixpoint written (log : list (Z * spec_float)) (index : Z) : option spec_float :=
  match log with
  | [] => None
  | (i, v) :: log' => if i =? index then Some v else written log' index
  end.

(** The element of a tensor at a logical coordinate. *)
Definition element (l : DataLayout) (inp : Decoder) (shape : TensorShape)
           (n c y x : Z) : spec_float :=
  dec_elem inp (GetIndex l shape n c y x).


(** ** The kernel, element by element

    The same computation as a pure function of the output coordinate;
    [Resize_emits] below shows that the loops of [Resize] write exactly
    these values, in this order. *)

Definition obind {A B} (o : Outcome A) (f : A -> Outcome B) : Outcome B :=
  match o with
  | Ok a => f a
  | Fail e => Fail e
  end.

Definition assume {A} (d : A) (o : Outcome A) : A :=
  match o with
  | Ok a => a
  | Fail _ => d
  end.

(** The real-valued input coordinate of the output coordinate [i]. *)
Definition project (inExtent outExtent i : Z) : spec_float :=
  F32.mul (numeric_cast_float i)
          (F32.div (numeric_cast_float inExtent) (numeric_cast_float outExtent)).

(** The top-left texel, the texel after it and the interpolation weight. *)
Definition texel0 (inExtent outExtent i : Z) : Outcome Z :=
  numeric_cast_uint (floorf (project inExtent outExtent i)).

Definition texel1 (inExtent t0 : Z) : Z :=
  Z.min (wrap32 (t0 + 1)) (wrap32 (inExtent - 1)).

Definition weight (inExtent outExtent i : Z) : spec_float :=
  F32.sub (project inExtent outExtent i) (floorf (project inExtent outExtent i)).

(** A checked read of the decoder's buffer. *)
Definition read (inp : Decoder) (index : Z) : Outcome spec_float :=
  if (0 <=? index) && (index <? dec_size inp)
  then Ok (dec_elem inp index)
  else Fail OutOfBounds.

Definition sample (inp : Decoder) (l : DataLayout) (shape : TensorShape)
           (n c y x : Z) : Outcome spec_float :=
  read inp (GetIndex l shape n c y x).

(** The two distances the nearest-neighbour policy compares. *)
Definition distance0 (fiy fix_ : spec_float) (y0 x0 : Z) : spec_float :=
  distance (F32.sub fix_ (numeric_cast_float x0)) (F32.sub fiy (numeric_cast_float y0)).

Definition distance1 (fiy fix_ : spec_float) (y1 x1 : Z) : spec_float :=
  distance (F32.sub fix_ (numeric_cast_float x1)) (F32.sub fiy (numeric_cast_float y1)).

Definition interpolate (inp : Decoder) (l : DataLayout) (inputShape : TensorShape)
           (method : ResizeMethod) (n c : Z) (iy ix : spec_float) (y0 x0 : Z)
  : Outcome spec_float :=
  let fiy := floorf iy in
  let fix_ := floorf ix in
  let yw := F32.sub iy fiy in
  let xw := F32.sub ix fix_ in
  let x1 := texel1 (dim inputShape (GetWidthIndex l)) x0 in
  let y1 := texel1 (dim inputShape (GetHeightIndex l)) y0 in
  match method with
  | Bilinear =>
      obind (sample inp l inputShape n c y0 x0) (fun input1 =>
      obind (sample inp l inputShape n c y0 x1) (fun input2 =>
      obind (sample inp l inputShape n c y1 x0) (fun input3 =>
      obind (sample inp l inputShape n c y1 x1) (fun input4 =>
      Ok (Lerp (Lerp input1 input2 xw) (Lerp input3 input4 xw) yw)))))
  | _ =>
      let d0 := distance0 fiy fix_ y0 x0 in
      let d1 := distance1 fiy fix_ y1 x1 in
      sample inp l inputShape n c (if SFleb d0 d1 then y0 else y1)
                                  (if SFleb d0 d1 then x0 else x1)
  end.

(** The value written for the output coordinate [(n, c, y, x)]. *)
Definition value_at (inp : Decoder) (inputShape outputShape : TensorShape)
           (l : DataLayout) (method : ResizeMethod) (n c y x : Z) : Outcome spec_float :=
  let iy := project (dim inputShape (GetHeightIndex l)) (dim outputShape (GetHeightIndex l)) y in
  let ix := project (dim inputShape (GetWidthIndex l)) (dim outputShape (GetWidthIndex l)) x in
  obind (numeric_cast_uint (floorf iy)) (fun y0 =>
  obind (numeric_cast_uint (floorf ix)) (fun x0 =>
  interpolate inp l inputShape method n c iy ix y0 x0)).

(** The counter values of a loop, and the writes of a loop whose
    iterations write [f i]. *)
Fixpoint zrange (count : nat) (i : Z) : list Z :=
  match count with
  | O => []
  | S count' => i :: zrange count' (i + 1)
  end.

Definition zloop (bound : Z) : list Z := zrange (Z.to_nat bound) 0.

Fixpoint gather {W} (count : nat) (i : Z) (f : Z -> Outcome (list W)) : Outcome (list W) :=
  match count with
  | O => Ok []
  | S count' =>
      obind (f i) (fun w => obind (gather count' (i + 1) f) (fun ws => Ok (w ++ ws)))
  end.

Definition gather_loop {W} (bound : Z) (f : Z -> Outcome (list W)) : Outcome (list W) :=
  gather (Z.to_nat bound) 0 f.

(** The writes of a call, the earliest first. *)
Definition ResizeTrace (inp : Decoder) (inputShape outputShape : TensorShape)
           (l : DataLayout) (method : ResizeMethod) : Outcome (list (Z * spec_float)) :=
  gather_loop (dim inputShape 0) (fun n =>
    gather_loop (dim inputShape (GetChannelsIndex l)) (fun c =>
      gather_loop (dim outputShape (GetHeightIndex l)) (fun y =>
        obind (texel0 (dim inputShape (GetHeightIndex l)) (dim outputShape (GetHeightIndex l)) y)
          (fun _ =>
             gather_loop (dim outputShape (GetWidthIndex l)) (fun x =>
               obind (value_at inp inputShape outputShape l method n c y x) (fun v =>
                 Ok [(GetIndex l outputShape n c y x, v)])))))).

(** The elements of a four-dimensional iteration space in the order of
    four nested loops, the last coordinate running fastest. *)
Definition grid {A} (N C H W : Z) (g : Z -> Z -> Z -> Z -> A) : list A :=
  flat_map (fun n =>
    flat_map (fun c =>
      flat_map (fun y => map (fun x => g n c y x) (zloop W)) (zloop H))
      (zloop C))
    (zloop N).


(** [v] is a copy of [a]: the same number, except that a negative zero
    may have become a positive zero. *)
Definition copy_of (a v : spec_float) : Prop :=
  v = a \/ (a = S754_zero true /\ v = S754_zero false).

(** ** Concrete inputs *)

(** Sixteen samples [0, 1, ..., 15]. *)
Definition ramp : Decoder :=
  {| dec_size := 16; dec_elem := fun i => F32.of_Z i |}.





(** A single sample. *)
Definition single : Decoder :=
  {| dec_size := 1; dec_elem := fun _ => F32.one |}.

(** A 1x2x2x2 tensor held channel-first. *)
Definition planar : Decoder :=
  {| dec_size := 8; dec_elem := fun i => F32.of_Z i |}.

(** A 2x2x257x1 tensor whose element [(n, c, y, 0)] is the number
    [(n * 2 + c) * 257 + y], held channel-first in a buffer of its 1028
    elements, and the same tensor held channel-last. *)
Definition column : Decoder :=
  {| dec_size := 1028; dec_elem := fun i => F32.of_Z i |}.

Definition column_last : Decoder :=
  {| dec_size := 1028;
     dec_elem := fun i => F32.of_Z ((i / 2 / 257 * 2 + i mod 2) * 257 + i / 2 mod 257) |}.

(** The channel-first tensor with its second channel overwritten. *)
Definition repainted : Decoder :=
  {| dec_size := 8; dec_elem := fun i => if i <? 4 then F32.of_Z i else F32.one |}.

(** A 2x2 image whose last sample is a NaN. *)
Definition poisoned : Decoder :=
  {| dec_size := 4; dec_elem := fun i => if i =? 3 then S754_nan else F32.of_Z i |}.

(** The states in which some calls on these inputs end. *)
Definition ramp_nearest : Kernel :=
  snd (Resize ramp (mkShape NCHW 1 1 4 4) (mkShape NCHW 1 1 3 3) NCHW NearestNeighbor start).

Definition ramp_bilinear : Kernel :=
  snd (Resize ramp (mkShape NCHW 1 1 4 4) (mkShape NCHW 1 1 3 3) NCHW Bilinear start).

Definition planar_bilinear : Kernel :=
  snd (Resize planar (mkShape NCHW 1 2 2 2) (mkShape NCHW 1 2 3 3) NCHW Bilinear start).

(** The states in which the nearest-neighbour calls that resize the two
    columns to 8416375 rows end. *)
Definition column_nearest : Kernel :=
  snd (Resize column (mkShape NCHW 2 2 257 1) (mkShape NCHW 2 2 8416375 1)
              NCHW NearestNeighbor start).

Definition column_last_nearest : Kernel :=
  snd (Resize column_last (mkShape NHWC 2 2 257 1) (mkShape NHWC 2 2 8416375 1)
              NHWC NearestNeighbor start).

Definition planar_nearest : Kernel :=
  snd (Resize planar (mkShape NCHW 1 2 2 2) (mkShape NCHW 1 2 3 3) NCHW NearestNeighbor start).

Definition poisoned_bilinear : Kernel :=
  snd (Resize poisoned (mkShape NCHW 1 1 2 2) (mkShape NCHW 1 1 2 2) NCHW Bilinear start).

(** The coordinates of the iteration space. *)
Definition in_space (N C H W n c y x : Z) : Prop :=
  0 <= n < N /\ 0 <= c < C /\ 0 <= y < H /\ 0 <= x < W.

Ltac in_unit_space := unfold in_space; lia.

(** [m] fails, or succeeds and adds the writes [o] to the log. *)
Definition Emits (m : M unit) (o : Outcome (list (Z * spec_float))) : Prop :=
  forall k,
    match o with
    | Ok ws => exists k', m k = (Ok tt, k') /\ out_log k' = rev ws ++ out_log k
    | Fail e => exists k', m k = (Fail e, k')
    end.

(** [m] computes [o] and leaves the encoder as it is. *)
Definition Computes {A} (m : M A) (o : Outcome A) : Prop :=
  forall k, exists k',
    m k = (o, k') /\ out_log k' = out_log k /\ out_pos k' = out_pos k.

(** The nearest-neighbour policy as the claim of its equivalence states
    it: read the sample at the floored coordinates. *)
Definition ResizeFloor (inp : Decoder) (inputInfo : TensorShape)
           (outputInfo : TensorShape) (dataLayout : DataLayout) : M unit :=
  let batchSize := dim inputInfo 0 in
  let channelCount := dim inputInfo (GetChannelsIndex dataLayout) in
  let inputHeight := dim inputInfo (GetHeightIndex dataLayout) in
  let inputWidth := dim inputInfo (GetWidthIndex dataLayout) in
  let outputHeight := dim outputInfo (GetHeightIndex dataLayout) in
  let outputWidth := dim outputInfo (GetWidthIndex dataLayout) in
  let scaleY := F32.div (numeric_cast_float inputHeight) (numeric_cast_float outputHeight) in
  let scaleX := F32.div (numeric_cast_float inputWidth) (numeric_cast_float outputWidth) in
  for_loop batchSize (fun n =>
    for_loop channelCount (fun c =>
      for_loop outputHeight (fun y =>
        y0 <- lift (numeric_cast_uint (floorf (F32.mul (numeric_cast_float y) scaleY))) ;;
        for_loop outputWidth (fun x =>
          x0 <- lift (numeric_cast_uint (floorf (F32.mul (numeric_cast_float x) scaleX))) ;;
          Decoder_at (GetIndex dataLayout inputInfo n c y0 x0) ;;
          value <- Decoder_Get inp ;;
          Encoder_at (GetIndex dataLayout outputInfo n c y x) ;;
          Encoder_Set value)))).

(** ** Calls that fail

    The writes and the outcome of a loop whose iterations write [fst (f i)]
    and end as [snd (f i)]: the loop stops at the first failure and keeps
    what was written before it. *)
Fixpoint sweep {W} (count : nat) (i : Z) (f : Z -> list W * Outcome unit)
  : list W * Outcome unit :=
  match count with
  | O => ([], Ok tt)
  | S count' =>
      match f i with
      | (w, Ok _) => let '(ws, r) := sweep count' (i + 1) f in (w ++ ws, r)
      | (w, Fail e) => (w, Fail e)
      end
  end.

Definition sweep_loop {W} (bound : Z) (f : Z -> list W * Outcome unit)
  : list W * Outcome unit :=
  sweep (Z.to_nat bound) 0 f.

(** The writes of one element, and of one row after its cast. *)
Definition element_sweep (index : Z) (o : Outcome spec_float)
  : list (Z * spec_float) * Outcome unit :=
  match o with
  | Ok v => ([(index, v)], Ok tt)
  | Fail e => ([], Fail e)
  end.

Definition guard {A W} (o : Outcome A) (t : list W * Outcome unit)
  : list W * Outcome unit :=
  match o with
  | Ok _ => t
  | Fail e => ([], Fail e)
  end.

(** The writes (the earliest first) and the outcome of a call, returning
    or not. *)
Definition ResizeSweep (inp : Decoder) (inputShape outputShape : TensorShape)
           (l : DataLayout) (method : ResizeMethod)
  : list (Z * spec_float) * Outcome unit :=
  sweep_loop (dim inputShape 0) (fun n =>
    sweep_loop (dim inputShape (GetChannelsIndex l)) (fun c =>
      sweep_loop (dim outputShape (GetHeightIndex l)) (fun y =>
        guard (texel0 (dim inputShape (GetHeightIndex l)) (dim outputShape (GetHeightIndex l)) y)
          (sweep_loop (dim outputShape (GetWidthIndex l)) (fun x =>
             element_sweep (GetIndex l outputShape n c y x)
                           (value_at inp inputShape outputShape l method n c y x)))))).

(** [m] ends as [snd t] and adds the writes [fst t] to the log. *)
Definition Yields (m : M unit) (t : list (Z * spec_float) * Outcome unit) : Prop :=
  forall k, exists k', m k = (snd t, k') /\ out_log k' = rev (fst t) ++ out_log k.

(** * Properties of the floating-point operations *)

(** ** Shifts and digit counts *)

Lemma iter_pos_nat {A} (f : A -> A) (p : positive) (x : A) :
  iter_pos f p x = Nat.iter (Pos.to_nat p) f x.
Proof.
  revert x. induction p as [p IH | p IH |]; intro x.
  - change (iter_pos f p~1 x) with (iter_pos f p (iter_pos f p (f x))).
    rewrite !IH, Pos2Nat.inj_xI, <- Nat.iter_add, <- Nat.iter_succ_r.
    f_equal. lia.
  - change (iter_pos f p~0 x) with (iter_pos f p (iter_pos f p x)).
    rewrite !IH, Pos2Nat.inj_xO, <- Nat.iter_add.
    f_equal. lia.
  - reflexivity.
Qed.

Lemma digits2_pos_bounds (m : positive) :
  2 ^ (Zpos (digits2_pos m) - 1) <= Zpos m < 2 ^ Zpos (digits2_pos m).
Proof.
  induction m as [m IH | m IH |]; simpl digits2_pos.
  - rewrite Pos2Z.inj_succ. replace (Z.succ (Zpos (digits2_pos m)) - 1) with (Z.succ (Zpos (digits2_pos m) - 1)) by lia.
    rewrite !Z.pow_succ_r by lia. lia.
  - rewrite Pos2Z.inj_succ. replace (Z.succ (Zpos (digits2_pos m)) - 1) with (Z.succ (Zpos (digits2_pos m) - 1)) by lia.
    rewrite !Z.pow_succ_r by lia. lia.
  - simpl. lia.
Qed.

Lemma digits2_pos_unique (m : positive) (d : Z) :
  2 ^ (d - 1) <= Zpos m < 2 ^ d -> Zpos (digits2_pos m) = d.
Proof.
  intros H. pose proof (digits2_pos_bounds m) as B.
  assert (0 < d). { destruct (Z.ltb_spec 0 d); auto. rewrite (Z.pow_neg_r 2 (d-1)) in H by lia. 
     assert (2 ^ d <= 1). { destruct (Z.eq_dec d 0); subst; simpl; try lia. rewrite Z.pow_neg_r; lia. } lia. }
  destruct (Z.lt_trichotomy (Zpos (digits2_pos m)) d) as [L | [E | G]]; auto; exfalso.
  - assert (2 ^ Zpos (digits2_pos m) <= 2 ^ (d - 1)) by (apply Z.pow_le_mono_r; lia). lia.
  - assert (2 ^ d <= 2 ^ (Zpos (digits2_pos m) - 1)) by (apply Z.pow_le_mono_r; lia). lia.
Qed.

Lemma shr_1_m (r : shr_record) :
  0 <= shr_m r -> shr_m (shr_1 r) = shr_m r / 2.
Proof.
  destruct r as [m r s]; cbn [shr_m]. intros Hm.
  destruct m as [| [p | p |] |]; cbn [shr_1 shr_m]; try lia.
  - reflexivity.
  - apply Z.div_unique with (r := 1); lia.
  - apply Z.div_unique with (r := 0); lia.
  - reflexivity.
Qed.

Lemma iter_shr_1_m (n : nat) (r : shr_record) :
  0 <= shr_m r -> shr_m (Nat.iter n shr_1 r) = shr_m r / 2 ^ Z.of_nat n.
Proof.
  intros Hm. induction n as [| n IH].
  - simpl. now rewrite Z.div_1_r.
  - rewrite Nat2Z.inj_succ, Z.pow_succ_r by lia. rewrite Nat.iter_succ.
    rewrite shr_1_m; rewrite IH.
    + rewrite Z.div_div by lia. f_equal. lia.
    + apply Z.div_pos; lia.
Qed.

Lemma shr_1_exact (m : Z) : 0 <= m -> shr_1 (rec0 (2 * m)) = rec0 m.
Proof. destruct m as [| p | p]; simpl; intros; try reflexivity; lia. Qed.

Lemma iter_shr_1_exact (n : nat) (m : Z) :
  0 <= m -> Nat.iter n shr_1 (rec0 (m * 2 ^ Z.of_nat n)) = rec0 m.
Proof.
  revert m. induction n as [| n IH]; intros m Hm.
  - simpl. now rewrite Z.mul_1_r.
  - rewrite Nat2Z.inj_succ, Z.pow_succ_r by lia. rewrite Nat.iter_succ.
    replace (m * (2 * 2 ^ Z.of_nat n)) with ((2 * m) * 2 ^ Z.of_nat n) by ring.
    rewrite IH by lia. now apply shr_1_exact.
Qed.

Lemma shr_exact (m e k : Z) :
  0 <= m -> 0 <= k -> shr (rec0 (m * 2 ^ k)) e k = (rec0 m, e + k).
Proof.
  intros Hm Hk. destruct k as [| p | p]; try lia.
  - simpl. now rewrite Z.mul_1_r, Z.add_0_r.
  - unfold shr. rewrite iter_pos_nat.
    rewrite <- (positive_nat_Z p) at 1. now rewrite iter_shr_1_exact.
Qed.

Lemma shr_m_shr (r : shr_record) (e k : Z) :
  0 <= shr_m r -> 0 <= k -> 
  shr_m (fst (shr r e k)) = shr_m r / 2 ^ k /\ snd (shr r e k) = e + k.
Proof.
  intros Hm Hk. destruct k as [| p | p]; try lia; simpl.
  - rewrite Z.div_1_r. lia.
  - rewrite iter_pos_nat, iter_shr_1_m by assumption.
    now rewrite positive_nat_Z.
Qed.

Lemma Zdigits2_unique (z d : Z) :
  2 ^ (d - 1) <= z < 2 ^ d -> 0 < z -> Zdigits2 z = d.
Proof.
  intros H Hz. destruct z as [| p | p]; try lia.
  simpl. now apply digits2_pos_unique.
Qed.

Lemma Zdigits2_shift (m : positive) (k : Z) :
  0 <= k -> Zdigits2 (Zpos m * 2 ^ k) = Zpos (digits2_pos m) + k.
Proof.
  intros Hk. pose proof (digits2_pos_bounds m) as B.
  assert (0 < 2 ^ k) by (apply Z.pow_pos_nonneg; lia).
  apply Zdigits2_unique; [| nia].
  replace (Zpos (digits2_pos m) + k - 1) with ((Zpos (digits2_pos m) - 1) + k) by lia.
  rewrite !Z.pow_add_r by lia. nia.
Qed.

Lemma round_nearest_even_bounds (m : Z) (l : location) :
  m <= round_nearest_even m l <= m + 1.
Proof.
  destruct l as [| [ | | ]]; simpl; try lia. destruct (Z.even m); lia.
Qed.

Section Rounding.
Variables prec emax : Z.

Lemma binary_round_aux_canonical (s : bool) (m : positive) (e : Z) :
  canonical_mantissa prec emax m e = true ->
  binary_round_aux prec emax s (Zpos m) e loc_Exact =
  if e <=? emax - prec then S754_finite s m e else S754_infinity s.
Proof.
  unfold canonical_mantissa. intros Hc. apply Z.eqb_eq in Hc.
  unfold binary_round_aux, shr_fexp.
  change (Zdigits2 (Zpos m)) with (Zpos (digits2_pos m)).
  rewrite Hc, Z.sub_diag. cbn [shr shr_record_of_loc shr_m loc_of_shr_record round_nearest_even].
  change (Zdigits2 (Zpos m)) with (Zpos (digits2_pos m)).
  rewrite Hc, Z.sub_diag. reflexivity.
Qed.

Lemma binary_round_aux_exact (s : bool) (m : positive) (e k : Z) :
  0 <= k ->
  canonical_mantissa prec emax m (e + k) = true ->
  binary_round_aux prec emax s (Zpos m * 2 ^ k) e loc_Exact =
  if e + k <=? emax - prec then S754_finite s m (e + k) else S754_infinity s.
Proof.
  intros Hk Hc. unfold canonical_mantissa in Hc. apply Z.eqb_eq in Hc.
  unfold binary_round_aux. unfold shr_fexp at 1.
  rewrite Zdigits2_shift by assumption.
  replace (Zpos (digits2_pos m) + k + e) with (Zpos (digits2_pos m) + (e + k)) by ring.
  rewrite Hc. replace (e + k - e) with k by ring.
  change (shr_record_of_loc (Zpos m * 2 ^ k) loc_Exact) with (rec0 (Zpos m * 2 ^ k)).
  rewrite shr_exact by lia.
  cbn [rec0 shr_m loc_of_shr_record round_nearest_even]. unfold shr_fexp.
  change (Zdigits2 (Zpos m)) with (Zpos (digits2_pos m)).
  rewrite Hc, Z.sub_diag. reflexivity.
Qed.

(** Rounding never produces a NaN and keeps the sign it is given. *)
Lemma binary_round_aux_signed (s : bool) (m e : Z) (l : location) :
  0 <= m -> signed_as s (binary_round_aux prec emax s m e l).
Proof.
  intros Hm. unfold binary_round_aux, shr_fexp.
  set (k1 := fexp prec emax (Zdigits2 m + e) - e).
  destruct (shr (shr_record_of_loc m l) e k1) as [r1 e1] eqn:E1.
  assert (H1 : 0 <= shr_m r1).
  { destruct (Z.leb_spec 0 k1) as [Hk | Hk].
    - pose proof (shr_m_shr (shr_record_of_loc m l) e k1) as P.
      rewrite E1 in P. simpl in P.
      assert (shr_m (shr_record_of_loc m l) = m) as Em by (destruct l as [| [ | | ]]; reflexivity).
      rewrite Em in P. destruct (P Hm Hk) as [-> _]. apply Z.div_pos; [lia|]. apply Z.pow_pos_nonneg; lia.
    - destruct k1; try lia. simpl in E1. injection E1 as <- _. destruct l as [| [ | | ]]; assumption. }
  set (mr := round_nearest_even (shr_m r1) (loc_of_shr_record r1)).
  assert (Hr : 0 <= mr) by (pose proof (round_nearest_even_bounds (shr_m r1) (loc_of_shr_record r1)); unfold mr; lia).
  set (k2 := fexp prec emax (Zdigits2 mr + e1) - e1).
  destruct (shr (shr_record_of_loc mr loc_Exact) e1 k2) as [r2 e2] eqn:E2.
  assert (H2 : 0 <= shr_m r2).
  { destruct (Z.leb_spec 0 k2) as [Hk | Hk].
    - pose proof (shr_m_shr (shr_record_of_loc mr loc_Exact) e1 k2) as P.
      rewrite E2 in P. simpl in P. destruct (P Hr Hk) as [-> _].
      apply Z.div_pos; [lia|]. apply Z.pow_pos_nonneg; lia.
    - destruct k2; try lia. simpl in E2. injection E2 as <- _. assumption. }
  unfold signed_as. destruct (shr_m r2) as [| p | p]; try lia; auto.
  destruct (e2 <=? emax - prec); eauto.
Qed.
End Rounding.

(** ** Conversion of integers *)

Lemma Pos_iter_xO (q d : positive) : Zpos (Pos.iter xO q d) = Zpos q * 2 ^ Zpos d.
Proof.
  apply (Pos.iter_ind positive xO q (fun p a => Zpos a = Zpos q * 2 ^ Zpos p)).
  - lia.
  - intros p a IH. rewrite Pos2Z.inj_xO, IH, Pos2Z.inj_succ, Z.pow_succ_r by lia. ring.
Qed.

Lemma canonical24 (m : positive) (e : Z) :
  canonical_mantissa 24 128 m e = true <->
  (Zpos (digits2_pos m) = 24 /\ -149 <= e) \/ (Zpos (digits2_pos m) < 24 /\ e = -149).
Proof.
  unfold canonical_mantissa, fexp, emin. rewrite Z.eqb_eq. lia.
Qed.

Lemma of_Z_canonical_up (m : positive) (e : Z) :
  canonical_mantissa 24 128 m e = true -> 0 <= e -> e <= 104 ->
  F32.of_Z (Zpos m * 2 ^ e) = S754_finite false m e.
Proof.
  intros Hc He He'.
  assert (0 < 2 ^ e) by (apply Z.pow_pos_nonneg; lia).
  destruct (Zpos m * 2 ^ e) as [| q | q] eqn:Eq; try lia.
  unfold F32.of_Z, binary_normalize, binary_round.
  change (Zpos (digits2_pos q)) with (Zdigits2 (Zpos q)).
  rewrite <- Eq, Zdigits2_shift by assumption.
  pose proof Hc as Hc'. unfold canonical_mantissa in Hc'. apply Z.eqb_eq in Hc'.
  rewrite Z.add_0_r, Hc'. unfold shl_align. rewrite Z.sub_0_r.
  replace (match e with Z.neg d => (Pos.iter xO q d, e) | _ => (q, 0) end) with (q, 0)
    by (destruct e; try reflexivity; lia).
  rewrite <- Eq, binary_round_aux_exact by (try assumption; lia).
  simpl (0 + e). simpl (128 - 24).
  destruct (Z.leb_spec e 104); [reflexivity | lia].
Qed.

Lemma of_Z_canonical_down (m q : positive) (e : Z) :
  canonical_mantissa 24 128 m e = true -> e <= 0 ->
  Zpos m = Zpos q * 2 ^ (- e) ->
  F32.of_Z (Zpos q) = S754_finite false m e.
Proof.
  intros Hc He Hm.
  unfold F32.of_Z, binary_normalize, binary_round.
  assert (Hd : Zpos (digits2_pos m) = Zpos (digits2_pos q) + - e).
  { change (Zpos (digits2_pos m)) with (Zdigits2 (Zpos m)). rewrite Hm. apply Zdigits2_shift. lia. }
  pose proof Hc as Hc'. unfold canonical_mantissa in Hc'. apply Z.eqb_eq in Hc'.
  replace (Zpos (digits2_pos q) + 0) with (Zpos (digits2_pos m) + e) by lia.
  rewrite Hc'. unfold shl_align. rewrite Z.sub_0_r.
  destruct e as [| p | p]; try lia.
  - assert (m = q) as ->.
    { change (- 0) with 0 in Hm. rewrite Z.pow_0_r, Z.mul_1_r in Hm. congruence. }
    now rewrite binary_round_aux_canonical.
  - assert (Pos.iter xO q p = m) as ->.
    { apply Pos2Z.inj. rewrite Pos_iter_xO. change (- Z.neg p) with (Zpos p) in Hm. lia. }
    rewrite binary_round_aux_canonical by assumption.
    reflexivity.
Qed.

Lemma of_Z_shape (n : positive) :
  (F32.of_Z (Zpos n) = S754_infinity false /\ 127 < Zpos (digits2_pos n)) \/
  exists m e, F32.of_Z (Zpos n) = S754_finite false m e /\
    canonical_mantissa 24 128 m e = true /\ e <= 104 /\
    e <= Zpos (digits2_pos n) - 23 /\
    ((e <= 0 /\ Zpos m = Zpos n * 2 ^ (- e) /\ Zpos (digits2_pos n) <= 24) \/
     (0 < e /\ Zpos (digits2_pos m) = 24 /\ 24 < Zpos (digits2_pos n))).
Proof.
  pose proof (digits2_pos_bounds n) as Bn.
  set (d := Zpos (digits2_pos n)) in *.
  destruct (Z.leb_spec d 24) as [Hd | Hd].
  - right.
    assert (0 < 2 ^ (24 - d)) by (apply Z.pow_pos_nonneg; lia).
    destruct (Zpos n * 2 ^ (24 - d)) as [| m | m] eqn:Em; try lia.
    assert (Hdm : Zpos (digits2_pos m) = 24).
    { change (Zpos (digits2_pos m)) with (Zdigits2 (Zpos m)).
      rewrite <- Em, Zdigits2_shift by lia. fold d. lia. }
    assert (Hc : canonical_mantissa 24 128 m (d - 24) = true).
    { apply canonical24. left. unfold d. lia. }
    exists m, (d - 24). repeat split; try lia; auto.
    + apply of_Z_canonical_down; auto; try lia.
      rewrite <- Em. f_equal. f_equal. lia.
    + left. split; [lia|]. split; [| exact Hd]. rewrite <- Em. f_equal. f_equal. lia.
  - remember (F32.of_Z (Zpos n)) as f eqn:Ef.
    unfold F32.of_Z, binary_normalize, binary_round in Ef.
    fold d in Ef. unfold shl_align in Ef.
    replace (fexp 24 128 (d + 0)) with (d - 24) in Ef by (unfold fexp, emin; lia).
    rewrite Z.sub_0_r in Ef.
    destruct (d - 24) as [| p | p] eqn:Ep; try lia.
    unfold binary_round_aux in Ef. unfold shr_fexp at 1 in Ef.
    change (Zdigits2 (Zpos n)) with d in Ef.
    replace (fexp 24 128 (d + 0) - 0) with (Zpos p) in Ef by (unfold fexp, emin; lia).
    change (shr_record_of_loc (Zpos n) loc_Exact) with (rec0 (Zpos n)) in Ef.
    pose proof (shr_m_shr (rec0 (Zpos n)) 0 (Zpos p)) as P.
    destruct (shr (rec0 (Zpos n)) 0 (Zpos p)) as [r1 e1].
    cbn [fst snd rec0 shr_m] in P. destruct P as [Pm Pe]; try lia. subst e1.
    assert (B1 : 2 ^ 23 <= shr_m r1 < 2 ^ 24).
    { rewrite Pm. replace d with (24 + Zpos p) in Bn by lia.
      replace (24 + Zpos p - 1) with (23 + Zpos p) in Bn by lia.
      rewrite !Z.pow_add_r in Bn by lia.
      assert (0 < 2 ^ Zpos p) by (apply Z.pow_pos_nonneg; lia).
      split.
      - apply Z.div_le_lower_bound; lia.
      - apply Z.div_lt_upper_bound; lia. }
    pose proof (round_nearest_even_bounds (shr_m r1) (loc_of_shr_record r1)) as Br.
    set (mr := round_nearest_even (shr_m r1) (loc_of_shr_record r1)) in *.
    destruct (Z.ltb_spec mr (2 ^ 24)) as [Hlt | Hge].
    + destruct mr as [| m | m] eqn:Emr; try lia.
      assert (Hdm : Zpos (digits2_pos m) = 24).
      { apply digits2_pos_unique. lia. }
      unfold shr_fexp in Ef. change (Zdigits2 (Zpos m)) with (Zpos (digits2_pos m)) in Ef.
      rewrite Hdm in Ef.
      replace (fexp 24 128 (24 + (0 + Zpos p)) - (0 + Zpos p)) with 0 in Ef
        by (unfold fexp, emin; lia).
      cbn [shr shr_record_of_loc shr_m] in Ef.
      simpl (128 - 24) in Ef.
      destruct (Z.leb_spec (0 + Zpos p) 104); [right | left; split; [exact Ef | fold d; lia]].
      exists m, (0 + Zpos p).
      split; [exact Ef |]. split; [apply canonical24; left; lia |].
      fold d. lia.
    + assert (mr = 2 ^ 24) as Emr by lia. rewrite Emr in Ef.
      unfold shr_fexp in Ef.
      replace (fexp 24 128 (Zdigits2 (2 ^ 24) + (0 + Zpos p)) - (0 + Zpos p)) with 1 in Ef
        by (change (Zdigits2 (2 ^ 24)) with 25; unfold fexp, emin; lia).
      change (shr (shr_record_of_loc (2 ^ 24) loc_Exact) (0 + Zpos p) 1)
        with (rec0 (2 ^ 23), 0 + Zpos p + 1) in Ef.
      cbn [rec0 shr_m] in Ef. change (2 ^ 23) with (Zpos 8388608) in Ef.
      cbv iota beta in Ef.
      simpl (128 - 24) in Ef.
      destruct (Z.leb_spec (0 + Zpos p + 1) 104); [right | left; split; [exact Ef | fold d; lia]].
      exists 8388608%positive, (0 + Zpos p + 1).
      split; [exact Ef |].
      split; [apply canonical24; left; split; [reflexivity | lia] |].
      fold d. split; [lia |]. split; [lia |]. right. split; [lia |]. split; [reflexivity | lia].
Qed.

(** ** Signs and NaNs *)

Lemma signed_as_not_nan (s : bool) (x : spec_float) :
  signed_as s x -> is_nan x = false.
Proof. intros [-> | [-> | (m & e & ->)]]; reflexivity. Qed.

Lemma binary_round_signed (prec emax : Z) (s : bool) (m : positive) (e : Z) :
  signed_as s (binary_round prec emax s m e).
Proof.
  unfold binary_round.
  destruct (shl_align m e (fexp prec emax (Zpos (digits2_pos m) + e))) as [mz ez].
  apply binary_round_aux_signed. lia.
Qed.

Lemma binary_normalize_not_nan (prec emax : Z) (m e : Z) (s : bool) :
  is_nan (binary_normalize prec emax m e s) = false.
Proof.
  destruct m as [| p | p]; simpl; [reflexivity | |];
    eapply signed_as_not_nan, binary_round_signed.
Qed.

Lemma of_Z_signed (n : Z) : 0 <= n -> signed_as false (F32.of_Z n).
Proof.
  intros Hn. destruct n as [| p | p]; try lia.
  - now left.
  - apply binary_round_signed.
Qed.

Lemma div_signed (x y : spec_float) :
  signed_as false x -> signed_as false y ->
  F32.div x y = S754_nan \/ signed_as false (F32.div x y).
Proof.
  intros [-> | [-> | (mx & ex & ->)]] [-> | [-> | (my & ey & ->)]];
    try (now left); try (right; unfold signed_as; simpl; now eauto).
  right. unfold F32.div, SFdiv, SFdiv_core_binary.
  set (m' := match _ - _ - _ with Z0 => Zpos mx | Zpos _ => _ | Zneg _ => 0 end).
  assert (Hm' : 0 <= m').
  { unfold m'. destruct (_ - _ - _); try lia. apply Z.shiftl_nonneg. lia. }
  pose proof (Z.div_pos m' (Zpos my) Hm' eq_refl) as Hq.
  unfold Z.div in Hq. destruct (Z.div_eucl m' (Zpos my)) as [q r].
  apply binary_round_aux_signed. exact Hq.
Qed.

Lemma mul_signed (x y : spec_float) :
  signed_as false x -> signed_as false y ->
  F32.mul x y = S754_nan \/ signed_as false (F32.mul x y).
Proof.
  intros [-> | [-> | (mx & ex & ->)]] [-> | [-> | (my & ey & ->)]];
    try (now left); try (right; unfold signed_as; simpl; now eauto).
  right. apply binary_round_aux_signed. lia.
Qed.

Lemma sub_not_nan (x y : spec_float) :
  is_finite x = true -> is_nan y = false -> is_nan (F32.sub x y) = false.
Proof.
  destruct x as [sx | sx | | sx mx ex], y as [sy | sy | | sy my ey];
    try discriminate; intros _ _; try reflexivity.
  - simpl. now destruct sx, sy.
  - apply binary_normalize_not_nan.
Qed.

Lemma sub_self (x : spec_float) :
  is_finite x = true -> F32.sub x x = S754_zero false.
Proof.
  destruct x as [s | s | | s m e]; try discriminate; intros _.
  - now destruct s.
  - unfold F32.sub, SFsub. now rewrite Z.sub_diag.
Qed.

Lemma of_float_not_nan (x : spec_float) :
  is_nan x = false -> is_nan (F64.of_float x) = false.
Proof.
  destruct x as [s | s | | s m e]; try discriminate; intros _; try reflexivity.
  eapply signed_as_not_nan, binary_round_signed.
Qed.

Lemma pow2_signed (x : spec_float) :
  is_nan x = false -> signed_as false (F64.pow2 x).
Proof.
  destruct x as [s | s | | s m e]; try discriminate; intros _.
  - left. now destruct s.
  - right; left. now destruct s.
  - unfold F64.pow2, F64.mul, SFmul. rewrite xorb_nilpotent.
    apply binary_round_aux_signed. lia.
Qed.

Lemma add64_signed (x y : spec_float) :
  signed_as false x -> signed_as false y -> signed_as false (F64.add x y).
Proof.
  intros [-> | [-> | (mx & ex & ->)]] [-> | [-> | (my & ey & ->)]];
    try (unfold signed_as; simpl; now eauto 6).
  unfold F64.add, SFadd. cbn [cond_Zopp].
  apply binary_round_signed.
Qed.

Lemma sqrt64_signed (x : spec_float) :
  signed_as false x -> signed_as false (F64.sqrt x).
Proof.
  intros [-> | [-> | (m & e & ->)]]; try (unfold signed_as; simpl; now eauto).
  unfold F64.sqrt, SFsqrt, SFsqrt_core_binary.
  set (m' := match _ - _ with Z0 => Zpos m | Zpos _ => _ | Zneg _ => 0 end).
  assert (Hm' : 0 <= m').
  { unfold m'. destruct (_ - _); try lia. apply Z.shiftl_nonneg. lia. }
  pose proof (Z.sqrtrem_spec m' Hm') as Hs.
  destruct (Z.sqrtrem m') as [q r].
  apply binary_round_aux_signed. lia.
Qed.

Lemma distance_signed (dx dy : spec_float) :
  is_nan dx = false -> is_nan dy = false -> signed_as false (distance dx dy).
Proof.
  intros Hx Hy. unfold distance.
  apply sqrt64_signed, add64_signed; apply pow2_signed, of_float_not_nan; assumption.
Qed.

Lemma distance_zero (s1 s2 : bool) :
  distance (S754_zero s1) (S754_zero s2) = S754_zero false.
Proof. now destruct s1, s2. Qed.

Lemma leb_zero_signed (d : spec_float) :
  signed_as false d -> SFleb (S754_zero false) d = true.
Proof. intros [-> | [-> | (m & e & ->)]]; reflexivity. Qed.

(** ** Exact operations *)


Lemma mul_one_l (a : spec_float) :
  F32.valid a = true -> F32.mul F32.one a = a.
Proof.
  destruct a as [s | s | | s m e]; intros Hv; try reflexivity.
  unfold F32.valid, valid_binary, bounded in Hv.
  apply andb_true_iff in Hv. destruct Hv as [Hc Hb]. apply Z.leb_le in Hb.
  unfold F32.mul, F32.one, SFmul. rewrite xorb_false_l.
  replace (Zpos (8388608 * m)) with (Zpos m * 2 ^ 23) by lia.
  rewrite binary_round_aux_exact; replace (-23 + e + 23) with e by lia; try lia; auto.
  destruct (Z.leb_spec e (128 - 24)); [reflexivity | lia].
Qed.


(** ** Conversions between [float] and [unsigned int] *)

Lemma cast_of_Z (n v : Z) :
  0 <= n -> numeric_cast_uint (F32.of_Z n) = Ok v ->
  F32.of_Z v = F32.of_Z n /\ is_finite (F32.of_Z n) = true /\
  0 <= v /\ v + 1 < 2 ^ 32 /\ (n < 2 ^ 24 -> v = n).
Proof.
  intros Hn. destruct n as [| p | p]; try lia.
  - simpl. intros [= <-]. repeat split; try reflexivity; lia.
  - destruct (of_Z_shape p) as [[E _] | (m & e & E & Hc & He & _ & Hcase)]; rewrite E.
    + discriminate.
    + unfold numeric_cast_uint, truncZ. cbn [cond_Zopp].
      pose proof (digits2_pos_bounds p) as Bp.
      destruct Hcase as [(He0 & Hm & Hd) | (He0 & Hdm & Hd)].
      * rewrite Z.shiftl_div_pow2, Hm, Z.div_mul by (try apply Z.pow_nonzero; lia).
        assert (Zpos p < 2 ^ 24).
        { assert (2 ^ Zpos (digits2_pos p) <= 2 ^ 24) by (apply Z.pow_le_mono_r; lia). lia. }
        destruct ((Zpos p <=? -1) || (2 ^ 32 <=? Zpos p)); [discriminate |].
        intros [= <-]. repeat split; auto; lia.
      * rewrite Z.shiftl_mul_pow2 by lia.
        assert (2 ^ 24 <= Zpos p).
        { assert (2 ^ 24 <= 2 ^ (Zpos (digits2_pos p) - 1)) by (apply Z.pow_le_mono_r; lia). lia. }
        assert (Hup : F32.of_Z (Zpos m * 2 ^ e) = S754_finite false m e)
          by (apply of_Z_canonical_up; auto; lia).
        assert (Hk : exists k, 0 < k /\ Zpos m * 2 ^ e = 2 * k).
        { exists (Zpos m * 2 ^ (e - 1)). split.
          - apply Z.mul_pos_pos; [lia | apply Z.pow_pos_nonneg; lia].
          - replace e with (Z.succ (e - 1)) at 1 by lia.
            rewrite Z.pow_succ_r by lia. ring. }
        destruct Hk as (k & Hk & Ek). rewrite Ek in *.
        destruct (Z.leb_spec (2 * k) (-1)); [discriminate |].
        destruct (Z.leb_spec (2 ^ 32) (2 * k)); [discriminate |].
        intros [= <-]. destruct k as [| k | k]; try lia.
        repeat split; auto; lia.
Qed.

Lemma cast_of_Z_small (n : Z) :
  0 <= n <= 2 ^ 24 ->
  numeric_cast_uint (F32.of_Z n) = Ok n /\ F32.valid (F32.of_Z n) = true.
Proof.
  intros Hn. destruct (Z.eq_dec n (2 ^ 24)) as [-> | Hne]; [split; reflexivity |].
  destruct n as [| p | p]; try lia.
  - split; reflexivity.
  - pose proof (digits2_pos_bounds p) as Bp.
    assert (Hd : Zpos (digits2_pos p) <= 24).
    { destruct (Z.leb_spec (Zpos (digits2_pos p)) 24); auto.
      assert (2 ^ 24 <= 2 ^ (Zpos (digits2_pos p) - 1)) by (apply Z.pow_le_mono_r; lia). lia. }
    destruct (of_Z_shape p) as [[_ Hinf] | (m & e & E & Hc & He & He' & Hcase)];
      [lia | rewrite E].
    destruct Hcase as [(He0 & Hm & _) | (He0 & _ & Hd')]; [| lia].
    split.
    + unfold numeric_cast_uint, truncZ. cbn [cond_Zopp].
      rewrite Z.shiftl_div_pow2, Hm, Z.div_mul by (try apply Z.pow_nonzero; lia).
      destruct (Z.leb_spec (Zpos p) (-1)); [lia |].
      destruct (Z.leb_spec (2 ^ 32) (Zpos p)); [lia |]. reflexivity.
    + unfold F32.valid, valid_binary, bounded. rewrite Hc.
      apply Z.leb_le. simpl. lia.
Qed.

(** * The loops of the kernel *)

(** ** The monad *)

Lemma emits_for_from (count : nat) (i : Z) (body : Z -> M unit)
      (f : Z -> Outcome (list (Z * spec_float))) :
  (forall j, Emits (body j) (f j)) ->
  Emits (for_from count i body) (gather count i f).
Proof.
  intros Hbody. revert i. induction count as [| count IH]; intros i k.
  - exists k. split; reflexivity.
  - cbn [for_from gather]. unfold bind.
    specialize (Hbody i k). destruct (f i) as [w | e]; cbn [obind].
    + destruct Hbody as (k1 & -> & L1).
      specialize (IH (i + 1) k1). destruct (gather count (i + 1) f) as [ws | e]; cbn [obind].
      * destruct IH as (k2 & -> & L2). exists k2. split; [reflexivity |].
        now rewrite L2, L1, rev_app_distr, app_assoc.
      * destruct IH as (k2 & ->). now exists k2.
    + destruct Hbody as (k1 & ->). now exists k1.
Qed.

Lemma emits_for_loop (bound : Z) (body : Z -> M unit)
      (f : Z -> Outcome (list (Z * spec_float))) :
  (forall j, Emits (body j) (f j)) ->
  Emits (for_loop bound body) (gather_loop bound f).
Proof. apply emits_for_from. Qed.

Lemma emits_lift_bind {A} (o : Outcome A) (f : A -> M unit)
      (t : A -> Outcome (list (Z * spec_float))) :
  (forall a, o = Ok a -> Emits (f a) (t a)) ->
  Emits (bind (lift o) f) (obind o t).
Proof.
  intros H k. unfold bind, lift. destruct o as [a | e]; cbn [obind].
  - now apply H.
  - now exists k.
Qed.

Lemma emits_computes_bind {A} (m : M A) (o : Outcome A) (f : A -> M unit)
      (t : A -> Outcome (list (Z * spec_float))) :
  Computes m o -> (forall a, Emits (f a) (t a)) ->
  Emits (bind m f) (obind o t).
Proof.
  intros Hm Hf k. unfold bind. destruct (Hm k) as (k1 & -> & L1 & _).
  destruct o as [a | e]; cbn [obind].
  - specialize (Hf a k1). destruct (t a) as [ws | e].
    + destruct Hf as (k2 & -> & L2). exists k2. now rewrite L2, L1.
    + exact Hf.
  - now exists k1.
Qed.

Lemma emits_write (index : Z) (value : spec_float) :
  Emits (Encoder_at index ;; Encoder_Set value) (Ok [(index, value)]).
Proof. intros k. eexists. split; reflexivity. Qed.

Lemma computes_ret {A} (a : A) : Computes (ret a) (Ok a).
Proof. intros k. exists k. repeat split. Qed.

Lemma computes_read (inp : Decoder) (index : Z) :
  Computes (Decoder_at index ;; Decoder_Get inp) (read inp index).
Proof.
  intros k. unfold bind, Decoder_at, Decoder_Get, read. cbn [in_pos].
  destruct ((0 <=? index) && (index <? dec_size inp)); eexists; repeat split.
Qed.

Lemma computes_read_bind {A} (inp : Decoder) (index : Z)
      (f : spec_float -> M A) (g : spec_float -> Outcome A) :
  (forall v, Computes (f v) (g v)) ->
  Computes (Decoder_at index ;; v <- Decoder_Get inp ;; f v) (obind (read inp index) g).
Proof.
  intros Hf k. unfold bind, Decoder_at, Decoder_Get, read. cbn [in_pos].
  destruct ((0 <=? index) && (index <? dec_size inp)); cbn [obind].
  - destruct (Hf (dec_elem inp index)
                 {| in_pos := index; out_pos := out_pos k; out_log := out_log k |})
      as (k' & E & L & P).
    exists k'. now repeat split.
  - eexists; repeat split.
Qed.

Lemma obind_assoc {A B C} (o : Outcome A) (f : A -> Outcome B) (g : B -> Outcome C) :
  obind (obind o f) g = obind o (fun a => obind (f a) g).
Proof. now destruct o. Qed.

(** The loops of [Resize] write the values of [value_at], row by row. *)
Lemma Resize_emits (inp : Decoder) (inputInfo outputInfo : TensorShape)
      (dataLayout : DataLayout) (resizeMethod : ResizeMethod) :
  Emits (Resize inp inputInfo outputInfo dataLayout resizeMethod)
        (ResizeTrace inp inputInfo outputInfo dataLayout resizeMethod).
Proof.
  unfold Resize, ResizeTrace.
  apply emits_for_loop; intro n. apply emits_for_loop; intro c.
  apply emits_for_loop; intro y.
  unfold texel0, project. apply emits_lift_bind. intros y0 Hy0.
  apply emits_for_loop; intro x.
  unfold value_at, project. rewrite Hy0. cbn [obind]. rewrite obind_assoc.
  apply emits_lift_bind. intros x0 Hx0.
  apply emits_computes_bind; [| intros v; apply emits_write].
  unfold interpolate, sample, distance0, distance1, texel1.
  destruct resizeMethod.
  - repeat (apply computes_read_bind; intro). apply computes_ret.
  - apply computes_read.
  - apply computes_read.
Qed.

(** ** Iteration spaces *)

Lemma in_zrange (count : nat) (i j : Z) :
  In j (zrange count i) <-> i <= j < i + Z.of_nat count.
Proof.
  revert i. induction count as [| count IH]; intros i; cbn [zrange In].
  - lia.
  - rewrite IH. lia.
Qed.

Lemma in_zloop (bound j : Z) : In j (zloop bound) <-> 0 <= j < bound.
Proof. unfold zloop. rewrite in_zrange. lia. Qed.


Lemma NoDup_zrange (count : nat) (i : Z) : NoDup (zrange count i).
Proof.
  revert i. induction count as [| count IH]; intros i; cbn [zrange]; constructor.
  - rewrite in_zrange. lia.
  - apply IH.
Qed.

Lemma flat_map_ext_in {A B} (f g : A -> list B) (l : list A) :
  (forall a, In a l -> f a = g a) -> flat_map f l = flat_map g l.
Proof.
  induction l as [| a l IH]; intros H; cbn [flat_map]; [reflexivity |].
  rewrite (H a) by now left. f_equal. apply IH. intros b Hb. apply H. now right.
Qed.

Lemma flat_map_singleton_in {A B} (f : A -> list B) (h : A -> B) (l : list A) :
  (forall a, In a l -> f a = [h a]) -> flat_map f l = map h l.
Proof.
  induction l as [| a l IH]; intros H; cbn [flat_map map]; [reflexivity |].
  rewrite (H a) by now left. cbn [app]. f_equal. apply IH. intros b Hb. apply H. now right.
Qed.

Lemma NoDup_flat_map {A B} (f : A -> list B) (l : list A) :
  NoDup l ->
  (forall a, In a l -> NoDup (f a)) ->
  (forall a b z, In a l -> In b l -> In z (f a) -> In z (f b) -> a = b) ->
  NoDup (flat_map f l).
Proof.
  induction 1 as [| a l Ha Hl IH]; intros Hf Hdisj; cbn [flat_map].
  - constructor.
  - apply NoDup_app.
    + apply Hf. now left.
    + apply IH.
      * intros b Hb. apply Hf. now right.
      * intros b c z Hb Hc. apply Hdisj; now right.
    + intros z Hz Hz'. apply in_flat_map in Hz'. destruct Hz' as (b & Hb & Hzb).
      assert (a = b) by (apply (Hdisj a b z); auto; [now left | now right]).
      subst b. contradiction.
Qed.

Lemma NoDup_map_in {A B} (f : A -> B) (l : list A) :
  NoDup l -> (forall a b, In a l -> In b l -> f a = f b -> a = b) -> NoDup (map f l).
Proof.
  induction 1 as [| a l Ha Hl IH]; intros Hinj; cbn [map]; constructor.
  - intros Hin. apply in_map_iff in Hin. destruct Hin as (b & Hfb & Hb).
    assert (a = b) by (apply Hinj; auto; [now left | now right]).
    subst b. contradiction.
  - apply IH. intros b c Hb Hc. apply Hinj; now right.
Qed.

Section Grid.
Context {A : Type}.
Variables N C H W : Z.
Variable g : Z -> Z -> Z -> Z -> A.

Lemma in_grid (a : A) :
  In a (grid N C H W g) <-> exists n c y x, in_space N C H W n c y x /\ a = g n c y x.
Proof.
  unfold grid, in_space. split.
  - intros Hin.
    apply in_flat_map in Hin. destruct Hin as (n & Hn & Hin).
    apply in_flat_map in Hin. destruct Hin as (c & Hc & Hin).
    apply in_flat_map in Hin. destruct Hin as (y & Hy & Hin).
    apply in_map_iff in Hin. destruct Hin as (x & <- & Hx).
    apply in_zloop in Hn, Hc, Hy, Hx. now exists n, c, y, x.
  - intros (n & c & y & x & (Hn & Hc & Hy & Hx) & ->).
    apply in_flat_map. exists n. split; [now apply in_zloop |].
    apply in_flat_map. exists c. split; [now apply in_zloop |].
    apply in_flat_map. exists y. split; [now apply in_zloop |].
    apply in_map. now apply in_zloop.
Qed.


Lemma NoDup_grid :
  (forall n c y x n' c' y' x',
      in_space N C H W n c y x -> in_space N C H W n' c' y' x' ->
      g n c y x = g n' c' y' x' -> n = n' /\ c = c' /\ y = y' /\ x = x') ->
  NoDup (grid N C H W g).
Proof.
  intros Hinj. unfold grid.
  apply NoDup_flat_map; [apply NoDup_zrange | |].
  - intros n Hn. apply NoDup_flat_map; [apply NoDup_zrange | |].
    + intros c Hc. apply NoDup_flat_map; [apply NoDup_zrange | |].
      * intros y Hy. apply NoDup_map_in; [apply NoDup_zrange |].
        intros x x' Hx Hx' E. apply in_zloop in Hn, Hc, Hy, Hx, Hx'.
        apply Hinj in E; unfold in_space; tauto.
      * intros y y' z Hy Hy' Hz Hz'.
        apply in_map_iff in Hz, Hz'.
        destruct Hz as (x & <- & Hx), Hz' as (x' & E & Hx').
        apply in_zloop in Hn, Hc, Hy, Hy', Hx, Hx'.
        apply Hinj in E; unfold in_space; try tauto. symmetry; tauto.
    + intros c c' z Hc Hc' Hz Hz'.
      apply in_flat_map in Hz, Hz'.
      destruct Hz as (y & Hy & Hz), Hz' as (y' & Hy' & Hz').
      apply in_map_iff in Hz, Hz'.
      destruct Hz as (x & <- & Hx), Hz' as (x' & E & Hx').
      apply in_zloop in Hn, Hc, Hc', Hy, Hy', Hx, Hx'.
      apply Hinj in E; unfold in_space; try tauto. symmetry; tauto.
  - intros n n' z Hn Hn' Hz Hz'.
    apply in_flat_map in Hz, Hz'.
    destruct Hz as (c & Hc & Hz), Hz' as (c' & Hc' & Hz').
    apply in_flat_map in Hz, Hz'.
    destruct Hz as (y & Hy & Hz), Hz' as (y' & Hy' & Hz').
    apply in_map_iff in Hz, Hz'.
    destruct Hz as (x & <- & Hx), Hz' as (x' & E & Hx').
    apply in_zloop in Hn, Hn', Hc, Hc', Hy, Hy', Hx, Hx'.
    apply Hinj in E; unfold in_space; try tauto. symmetry; tauto.
Qed.
End Grid.

Lemma map_grid {A B} (f : A -> B) (N C H W : Z) (g : Z -> Z -> Z -> Z -> A) :
  map f (grid N C H W g) = grid N C H W (fun n c y x => f (g n c y x)).
Proof.
  unfold grid. rewrite flat_map_concat_map, concat_map, map_map, <- flat_map_concat_map.
  apply flat_map_ext. intros n.
  rewrite flat_map_concat_map, concat_map, map_map, <- flat_map_concat_map.
  apply flat_map_ext. intros c.
  rewrite flat_map_concat_map, concat_map, map_map, <- flat_map_concat_map.
  apply flat_map_ext. intros y. now rewrite map_map.
Qed.

(** ** The writes of a loop *)

Lemma gather_ok {W} (count : nat) (i : Z) (f : Z -> Outcome (list W)) (tr : list W) :
  gather count i f = Ok tr ->
  (forall j, In j (zrange count i) -> exists w, f j = Ok w) /\
  tr = flat_map (fun j => assume [] (f j)) (zrange count i).
Proof.
  revert i tr. induction count as [| count IH]; intros i tr; cbn [gather zrange flat_map].
  - intros [= <-]. split; [intros j [] | reflexivity].
  - destruct (f i) as [w | e] eqn:Ei; cbn [obind]; [| discriminate].
    destruct (gather count (i + 1) f) as [ws | e] eqn:Eg; cbn [obind]; [| discriminate].
    intros [= <-]. destruct (IH _ _ Eg) as [Hall ->]. split.
    + intros j [<- | Hj]; [now exists w | now apply Hall].
    + reflexivity.
Qed.

Lemma gather_all {W} (count : nat) (i : Z) (f : Z -> Outcome (list W)) :
  (forall j, In j (zrange count i) -> exists w, f j = Ok w) ->
  gather count i f = Ok (flat_map (fun j => assume [] (f j)) (zrange count i)).
Proof.
  revert i. induction count as [| count IH]; intros i Hall; cbn [gather zrange flat_map].
  - reflexivity.
  - destruct (Hall i) as (w & Ei); [now left |]. rewrite Ei. cbn [obind assume].
    rewrite IH; [reflexivity |]. intros j Hj. apply Hall. now right.
Qed.

Lemma gather_loop_ok {W} (bound : Z) (f : Z -> Outcome (list W)) (tr : list W) :
  gather_loop bound f = Ok tr ->
  (forall j, 0 <= j < bound -> exists w, f j = Ok w) /\
  tr = flat_map (fun j => assume [] (f j)) (zloop bound).
Proof.
  intros Hg. apply gather_ok in Hg. destruct Hg as [Hall ->]. split; [| reflexivity].
  intros j Hj. apply Hall. now apply in_zloop.
Qed.

Lemma gather_loop_all {W} (bound : Z) (f : Z -> Outcome (list W)) :
  (forall j, 0 <= j < bound -> exists w, f j = Ok w) ->
  gather_loop bound f = Ok (flat_map (fun j => assume [] (f j)) (zloop bound)).
Proof.
  intros Hall. apply gather_all. intros j Hj. apply Hall. now apply in_zloop.
Qed.

Section Trace.
Variable inp : Decoder.
Variables inputShape outputShape : TensorShape.
Variable l : DataLayout.
Variable method : ResizeMethod.

Let N := dim inputShape 0.
Let C := dim inputShape (GetChannelsIndex l).
Let Hin := dim inputShape (GetHeightIndex l).
Let Hout := dim outputShape (GetHeightIndex l).
Let Wout := dim outputShape (GetWidthIndex l).

Let value (n c y x : Z) : spec_float :=
  assume (S754_zero false) (value_at inp inputShape outputShape l method n c y x).

Let entry (n c y x : Z) : Z * spec_float :=
  (GetIndex l outputShape n c y x, value n c y x).

(** A trace that exists is the grid of the values, and every value exists. *)
Lemma ResizeTrace_ok (tr : list (Z * spec_float)) :
  ResizeTrace inp inputShape outputShape l method = Ok tr ->
  tr = grid N C Hout Wout entry /\
  forall n c y x, in_space N C Hout Wout n c y x ->
    value_at inp inputShape outputShape l method n c y x = Ok (value n c y x).
Proof.
  unfold ResizeTrace. fold N C Hin Hout Wout. intros Htr.
  apply gather_loop_ok in Htr. destruct Htr as [Hn ->].
  assert (Hrow : forall n c y, 0 <= n < N -> 0 <= c < C -> 0 <= y < Hout ->
    exists w,
      gather_loop Wout (fun x =>
        obind (value_at inp inputShape outputShape l method n c y x)
              (fun v => Ok [(GetIndex l outputShape n c y x, v)])) = Ok w).
  { intros n c y Rn Rc Ry. destruct (Hn n Rn) as (wn & En).
    apply gather_loop_ok in En. destruct En as [Hc _].
    destruct (Hc c Rc) as (wc & Ec).
    apply gather_loop_ok in Ec. destruct Ec as [Hy _].
    destruct (Hy y Ry) as (wy & Ey).
    destruct (texel0 Hin Hout y); cbn [obind] in Ey; [| discriminate].
    now exists wy. }
  assert (Hval : forall n c y x, in_space N C Hout Wout n c y x ->
    value_at inp inputShape outputShape l method n c y x = Ok (value n c y x)).
  { intros n c y x (Rn & Rc & Ry & Rx). destruct (Hrow n c y Rn Rc Ry) as (w & Ew).
    apply gather_loop_ok in Ew. destruct Ew as [Hx _].
    destruct (Hx x Rx) as (wx & Ex). unfold value.
    destruct (value_at inp inputShape outputShape l method n c y x);
      [reflexivity | discriminate]. }
  split; [| exact Hval].
  unfold grid. apply flat_map_ext_in. intros n Rn. apply in_zloop in Rn.
  destruct (Hn n Rn) as (wn & En). rewrite En. cbn [assume].
  apply gather_loop_ok in En. destruct En as [Hc ->].
  apply flat_map_ext_in. intros c Rc. apply in_zloop in Rc.
  destruct (Hc c Rc) as (wc & Ec). rewrite Ec. cbn [assume].
  apply gather_loop_ok in Ec. destruct Ec as [Hy ->].
  apply flat_map_ext_in. intros y Ry. apply in_zloop in Ry.
  destruct (Hy y Ry) as (wy & Ey). rewrite Ey. cbn [assume].
  destruct (texel0 Hin Hout y); cbn [obind] in Ey; [| discriminate].
  apply gather_loop_ok in Ey. destruct Ey as [Hx ->].
  apply flat_map_singleton_in. intros x Rx. apply in_zloop in Rx.
  rewrite Hval by (unfold in_space; tauto). reflexivity.
Qed.

(** A trace that exists went through the row casts of every row, when
    there is a batch and a channel at all. *)
Lemma ResizeTrace_texels (tr : list (Z * spec_float)) :
  ResizeTrace inp inputShape outputShape l method = Ok tr ->
  0 < N -> 0 < C ->
  forall y, 0 <= y < Hout -> exists y0, texel0 Hin Hout y = Ok y0.
Proof.
  unfold ResizeTrace. fold N C Hin Hout Wout. intros Htr HN HC y Ry.
  apply gather_loop_ok in Htr. destruct Htr as [Hn _].
  destruct (Hn 0) as (wn & En); [lia |].
  apply gather_loop_ok in En. destruct En as [Hc _].
  destruct (Hc 0) as (wc & Ec); [lia |].
  apply gather_loop_ok in Ec. destruct Ec as [Hy _].
  destruct (Hy y Ry) as (wy & Ey).
  destruct (texel0 Hin Hout y) as [y0 | e]; [now exists y0 | discriminate].
Qed.

(** The trace exists as soon as every coordinate has a texel and a value. *)
Lemma ResizeTrace_all_guarded :
  (0 < N -> 0 < C -> forall y, 0 <= y < Hout -> exists y0, texel0 Hin Hout y = Ok y0) ->
  (forall n c y x, in_space N C Hout Wout n c y x ->
     exists v, value_at inp inputShape outputShape l method n c y x = Ok v) ->
  exists tr, ResizeTrace inp inputShape outputShape l method = Ok tr.
Proof.
  intros Hy0 Hval. unfold ResizeTrace. fold N C Hin Hout Wout.
  eexists. apply gather_loop_all. intros n Rn.
  eexists. apply gather_loop_all. intros c Rc.
  eexists. apply gather_loop_all. intros y Ry.
  destruct (Hy0 ltac:(lia) ltac:(lia) y Ry) as (y0 & ->). cbn [obind].
  eexists. apply gather_loop_all. intros x Rx.
  destruct (Hval n c y x) as (v & ->); [unfold in_space; tauto |].
  cbn [obind]. now eexists.
Qed.

Lemma ResizeTrace_all :
  (forall y, 0 <= y < Hout -> exists y0, texel0 Hin Hout y = Ok y0) ->
  (forall n c y x, in_space N C Hout Wout n c y x ->
     exists v, value_at inp inputShape outputShape l method n c y x = Ok v) ->
  exists tr, ResizeTrace inp inputShape outputShape l method = Ok tr.
Proof. intros Hy0. apply ResizeTrace_all_guarded. intros _ _. exact Hy0. Qed.
End Trace.

(** ** Flat offsets *)

Lemma dim_mkShape (l : DataLayout) (N C H W : Z) :
  dim (mkShape l N C H W) 0 = N /\
  dim (mkShape l N C H W) (GetChannelsIndex l) = C /\
  dim (mkShape l N C H W) (GetHeightIndex l) = H /\
  dim (mkShape l N C H W) (GetWidthIndex l) = W.
Proof. destruct l; repeat split. Qed.

Lemma GetIndex_mkShape (l : DataLayout) (N C H W n c y x : Z) :
  GetIndex l (mkShape l N C H W) n c y x =
  match l with
  | NCHW => ((n * C + c) * H + y) * W + x
  | NHWC => ((n * H + y) * W + x) * C + c
  end.
Proof. destruct l; unfold GetIndex, mkShape, dim; cbn [nth GetChannelsIndex GetHeightIndex GetWidthIndex]; ring. Qed.

Lemma radix_inj (B a b a' b' : Z) :
  0 <= b < B -> 0 <= b' < B -> a * B + b = a' * B + b' -> a = a' /\ b = b'.
Proof. intros Hb Hb' E. assert (a = a') by nia. subst. lia. Qed.

Lemma radix_bound (A B a b : Z) :
  0 <= a < A -> 0 <= b < B -> 0 <= a * B + b < A * B.
Proof. intros Ha Hb. nia. Qed.

Lemma GetIndex_inj (l : DataLayout) (N C H W n c y x n' c' y' x' : Z) :
  in_space N C H W n c y x -> in_space N C H W n' c' y' x' ->
  GetIndex l (mkShape l N C H W) n c y x = GetIndex l (mkShape l N C H W) n' c' y' x' ->
  n = n' /\ c = c' /\ y = y' /\ x = x'.
Proof.
  intros (Rn & Rc & Ry & Rx) (Rn' & Rc' & Ry' & Rx'). rewrite !GetIndex_mkShape.
  destruct l; intros E.
  - apply radix_inj in E; try lia. destruct E as [E ->].
    apply radix_inj in E; try lia. destruct E as [E ->].
    apply radix_inj in E; lia.
  - apply radix_inj in E; try lia. destruct E as [E ->].
    apply radix_inj in E; try lia. destruct E as [E ->].
    apply radix_inj in E; lia.
Qed.

Lemma GetIndex_bound (l : DataLayout) (N C H W n c y x : Z) :
  in_space N C H W n c y x ->
  0 <= GetIndex l (mkShape l N C H W) n c y x < N * C * H * W.
Proof.
  intros (Rn & Rc & Ry & Rx). rewrite GetIndex_mkShape. destruct l.
  - pose proof (radix_bound N C n c Rn Rc) as B1.
    pose proof (radix_bound (N * C) H _ y B1 Ry) as B2.
    exact (radix_bound (N * C * H) W _ x B2 Rx).
  - pose proof (radix_bound N H n y Rn Ry) as B1.
    pose proof (radix_bound (N * H) W _ x B1 Rx) as B2.
    pose proof (radix_bound (N * H * W) C _ c B2 Rc) as B3.
    replace (N * C * H * W) with (N * H * W * C) by ring. exact B3.
Qed.

(** ** The log *)

Lemma written_in (log : list (Z * spec_float)) (i : Z) (v : spec_float) :
  NoDup (map fst log) -> In (i, v) log -> written log i = Some v.
Proof.
  induction log as [| [j w] log IH]; cbn [map fst written In]; [tauto |].
  intros Hnd [E | Hin]; inversion Hnd as [| ? ? Hnotin Hnd']; subst.
  - injection E as -> ->. now rewrite Z.eqb_refl.
  - destruct (Z.eqb_spec j i) as [-> | _].
    + exfalso. apply Hnotin. change i with (fst (i, v)). now apply in_map.
    + now apply IH.
Qed.


(** ** Calls that return *)

Lemma Resize_ok_trace (inp : Decoder) (inputShape outputShape : TensorShape)
      (l : DataLayout) (method : ResizeMethod) (k0 k : Kernel) :
  Resize inp inputShape outputShape l method k0 = (Ok tt, k) ->
  exists tr, ResizeTrace inp inputShape outputShape l method = Ok tr /\
             out_log k = rev tr ++ out_log k0.
Proof.
  intros Hrun. pose proof (Resize_emits inp inputShape outputShape l method k0) as He.
  destruct (ResizeTrace inp inputShape outputShape l method) as [tr | e].
  - destruct He as (k' & Hk' & Hlog). rewrite Hrun in Hk'. injection Hk' as <-.
    now exists tr.
  - destruct He as (k' & Hk'). rewrite Hrun in Hk'. discriminate.
Qed.

Lemma Resize_trace_ok (inp : Decoder) (inputShape outputShape : TensorShape)
      (l : DataLayout) (method : ResizeMethod) (tr : list (Z * spec_float)) (k0 : Kernel) :
  ResizeTrace inp inputShape outputShape l method = Ok tr ->
  exists k, Resize inp inputShape outputShape l method k0 = (Ok tt, k) /\
            out_log k = rev tr ++ out_log k0.
Proof.
  intros Htr. pose proof (Resize_emits inp inputShape outputShape l method k0) as He.
  rewrite Htr in He. exact He.
Qed.

Section Returned.
Variable inp : Decoder.
Variable l : DataLayout.
Variable method : ResizeMethod.
Variables N C Hin Win Hout Wout : Z.

Let inputShape := mkShape l N C Hin Win.
Let outputShape := mkShape l N C Hout Wout.

(** The log of a call that returns, started on an empty log. *)
Lemma Resize_log (k0 k : Kernel) :
  out_log k0 = [] ->
  Resize inp inputShape outputShape l method k0 = (Ok tt, k) ->
  rev (out_log k) =
    grid N C Hout Wout (fun n c y x =>
      (GetIndex l outputShape n c y x,
       assume (S754_zero false) (value_at inp inputShape outputShape l method n c y x))) /\
  forall n c y x, in_space N C Hout Wout n c y x ->
    exists v, value_at inp inputShape outputShape l method n c y x = Ok v /\
              written (out_log k) (GetIndex l outputShape n c y x) = Some v.
Proof.
  intros Hk0 Hrun. apply Resize_ok_trace in Hrun. destruct Hrun as (tr & Htr & Hlog).
  rewrite Hk0, app_nil_r in Hlog. apply ResizeTrace_ok in Htr.
  unfold inputShape, outputShape in Htr.
  destruct (dim_mkShape l N C Hin Win) as (-> & -> & _ & _) in Htr.
  destruct (dim_mkShape l N C Hout Wout) as (_ & _ & -> & ->) in Htr.
  fold inputShape outputShape in Htr. destruct Htr as [-> Hval].
  split; [now rewrite Hlog, rev_involutive |].
  intros n c y x Hin_space. eexists. split; [now apply Hval |].
  apply written_in.
  - rewrite Hlog, map_rev. apply NoDup_rev. rewrite map_grid. cbn [fst].
    apply NoDup_grid. intros. now apply (GetIndex_inj l N C Hout Wout).
  - rewrite Hlog. apply -> in_rev. apply in_grid. now exists n, c, y, x.
Qed.
End Returned.

(** * Coordinates *)

Lemma project_signed (inExtent outExtent i : Z) :
  0 <= inExtent -> 0 <= outExtent -> 0 <= i ->
  project inExtent outExtent i = S754_nan \/ signed_as false (project inExtent outExtent i).
Proof.
  intros Hi Ho Hj. unfold project, numeric_cast_float.
  pose proof (of_Z_signed i Hj) as Sj.
  destruct (div_signed _ _ (of_Z_signed _ Hi) (of_Z_signed _ Ho)) as [-> | Sd].
  - left. now destruct (F32.of_Z i).
  - now apply mul_signed.
Qed.

Lemma floorf_signed (v : spec_float) :
  signed_as false v -> is_finite v = true ->
  floorf v = F32.of_Z (floorZ v) /\ 0 <= floorZ v.
Proof.
  intros [-> | [-> | (m & e & ->)]]; try discriminate; intros _.
  - split; [reflexivity | simpl; lia].
  - split; [reflexivity |]. cbn [floorZ cond_Zopp]. apply Z.shiftl_nonneg. lia.
Qed.

(** On the valid non-negative numbers [floorf] is exact: its value is the
    integer [floorZ], and an integral number is its own floor. *)
Lemma floorf_exact (x : spec_float) :
  F32.valid x = true -> signed_as false x -> is_finite x = true ->
  truncZ (floorf x) = floorZ x /\
  (forall m e, x = S754_finite false m e -> 0 <= e -> floorf x = x).
Proof.
  intros Hv [-> | [-> | (m & e & ->)]]; try discriminate; intros _.
  - split; [reflexivity | discriminate].
  - unfold F32.valid, valid_binary, bounded in Hv.
    apply andb_true_iff in Hv. destruct Hv as [Hc Hb]. apply Z.leb_le in Hb.
    change (128 - 24) with 104 in Hb.
    assert (Hup : 0 <= e -> floorf (S754_finite false m e) = S754_finite false m e).
    { intros He. unfold floorf, floorZ. cbn [cond_Zopp].
      rewrite Z.shiftl_mul_pow2 by assumption.
      now apply of_Z_canonical_up. }
    split; [| intros m' e' [= <- <-]; exact Hup].
    destruct (Z.leb_spec 0 e) as [He | He].
    + rewrite Hup by assumption. reflexivity.
    + unfold floorf. change (binary_normalize 24 128 ?n 0 false) with (F32.of_Z n).
      set (n := floorZ (S754_finite false m e)).
      assert (Hn : 0 <= n <= 2 ^ 24).
      { unfold n, floorZ. cbn [cond_Zopp]. rewrite Z.shiftl_div_pow2 by lia.
        pose proof (digits2_pos_bounds m) as Bm. apply canonical24 in Hc.
        assert (Zpos m < 2 ^ 24).
        { assert (2 ^ Zpos (digits2_pos m) <= 2 ^ 24) by (apply Z.pow_le_mono_r; lia). lia. }
        assert (0 < 2 ^ (- e)) by (apply Z.pow_pos_nonneg; lia).
        split; [apply Z.div_pos; lia |].
        apply Z.lt_le_incl, Z.div_lt_upper_bound; nia. }
      destruct (cast_of_Z_small n Hn) as [Hcast _].
      unfold numeric_cast_uint in Hcast.
      destruct (F32.of_Z n) as [s | s | | s m' e'] eqn:E; try discriminate.
      * injection Hcast as <-. reflexivity.
      * destruct ((truncZ (S754_finite s m' e') <=? -1) || (2 ^ 32 <=? truncZ (S754_finite s m' e')));
          [discriminate | now injection Hcast].
Qed.

(** The floor of a coordinate converts to an integer and back without
    loss, and the integer after it does not wrap. *)
Lemma floor_cast (v : spec_float) (t : Z) :
  v = S754_nan \/ signed_as false v ->
  numeric_cast_uint (floorf v) = Ok t ->
  is_finite (floorf v) = true /\
  F32.sub (floorf v) (numeric_cast_float t) = S754_zero false /\
  0 <= t /\ t + 1 < 2 ^ 32.
Proof.
  intros [-> | Hs]; [discriminate |].
  destruct (is_finite v) eqn:Hf.
  - destruct (floorf_signed v Hs Hf) as [-> Hz]. intros Hc.
    destruct (cast_of_Z _ _ Hz Hc) as (E & Hfin & H0 & H1 & _).
    unfold numeric_cast_float. rewrite E. split; [assumption |].
    split; [now apply sub_self | lia].
  - destruct Hs as [-> | [-> | (m & e & ->)]]; discriminate.
Qed.

(** The nearest-neighbour comparison always favours the top-left texel:
    its distance is zero. *)
Lemma nearest_first (vy vx : spec_float) (y0 x0 y1 x1 : Z) :
  vy = S754_nan \/ signed_as false vy ->
  vx = S754_nan \/ signed_as false vx ->
  numeric_cast_uint (floorf vy) = Ok y0 ->
  numeric_cast_uint (floorf vx) = Ok x0 ->
  distance0 (floorf vy) (floorf vx) y0 x0 = S754_zero false /\
  SFleb (distance0 (floorf vy) (floorf vx) y0 x0)
        (distance1 (floorf vy) (floorf vx) y1 x1) = true.
Proof.
  intros Sy Sx Hy Hx.
  destruct (floor_cast vy y0 Sy Hy) as (Fy & Zy & _).
  destruct (floor_cast vx x0 Sx Hx) as (Fx & Zx & _).
  unfold distance0, distance1. rewrite Zy, Zx, distance_zero.
  split; [reflexivity |].
  apply leb_zero_signed, distance_signed; apply sub_not_nan; auto;
    apply binary_normalize_not_nan.
Qed.

Lemma dim_nonneg (shape : TensorShape) (i : nat) :
  Forall (fun d => 0 <= d) shape -> 0 <= dim shape i.
Proof.
  intros Hs. unfold dim. destruct (nth_in_or_default i shape 0) as [Hin | ->]; [| lia].
  rewrite Forall_forall in Hs. now apply Hs.
Qed.

Lemma for_from_ext (count : nat) (i : Z) (body body' : Z -> M unit) :
  (forall j k, i <= j -> body j k = body' j k) ->
  forall k, for_from count i body k = for_from count i body' k.
Proof.
  revert i. induction count as [| count IH]; intros i Hext k; cbn [for_from]; [reflexivity |].
  unfold bind. rewrite Hext by lia. destruct (body' i k) as [[[] | e] k']; [| reflexivity].
  apply IH. intros j k'' Hj. apply Hext. lia.
Qed.

Lemma for_loop_ext (bound : Z) (body body' : Z -> M unit) :
  (forall j k, 0 <= j -> body j k = body' j k) ->
  forall k, for_loop bound body k = for_loop bound body' k.
Proof. apply for_from_ext. Qed.

(** * Nearest neighbour, coverage and clamping *)

(** C9. A method value other than [Bilinear] and [NearestNeighbor] takes
    the default arm of the switch: for every input the kernel behaves as
    with [NearestNeighbor], write for write and error for error. *)
Theorem unrecognized_method_is_nearest_neighbor
        (inp : Decoder) (inputInfo outputInfo : TensorShape) (l : DataLayout)
        (raw : Z) (k : Kernel) :
  Resize inp inputInfo outputInfo l (OtherMethod raw) k =
  Resize inp inputInfo outputInfo l NearestNeighbor k.
Proof. reflexivity. Qed.

(** C2. The distance from the floored coordinate to the top-left texel is
    exactly zero, so the nearest-neighbour comparison always selects
    [(x0, y0)], whatever the other candidate; and the nearest-neighbour
    kernel is extensionally the kernel that reads the sample at
    [(floor(y * scaleY), floor(x * scaleX))]. *)
Theorem nearest_neighbor_is_floor_sampling
        (inp : Decoder) (inputInfo outputInfo : TensorShape) (l : DataLayout) :
  Forall (fun d => 0 <= d) inputInfo ->
  Forall (fun d => 0 <= d) outputInfo ->
  (forall y x y0 x0 y1 x1,
      0 <= y -> 0 <= x ->
      let fiy := floorf (project (dim inputInfo (GetHeightIndex l))
                                 (dim outputInfo (GetHeightIndex l)) y) in
      let fix_ := floorf (project (dim inputInfo (GetWidthIndex l))
                                  (dim outputInfo (GetWidthIndex l)) x) in
      numeric_cast_uint fiy = Ok y0 ->
      numeric_cast_uint fix_ = Ok x0 ->
      distance0 fiy fix_ y0 x0 = S754_zero false /\
      SFleb (distance0 fiy fix_ y0 x0) (distance1 fiy fix_ y1 x1) = true) /\
  (forall k,
      Resize inp inputInfo outputInfo l NearestNeighbor k =
      ResizeFloor inp inputInfo outputInfo l k).
Proof.
  intros Hi Ho.
  assert (Hsel : forall y x y0 x0 y1 x1,
      0 <= y -> 0 <= x ->
      let fiy := floorf (project (dim inputInfo (GetHeightIndex l))
                                 (dim outputInfo (GetHeightIndex l)) y) in
      let fix_ := floorf (project (dim inputInfo (GetWidthIndex l))
                                  (dim outputInfo (GetWidthIndex l)) x) in
      numeric_cast_uint fiy = Ok y0 ->
      numeric_cast_uint fix_ = Ok x0 ->
      distance0 fiy fix_ y0 x0 = S754_zero false /\
      SFleb (distance0 fiy fix_ y0 x0) (distance1 fiy fix_ y1 x1) = true).
  { intros y x y0 x0 y1 x1 Hy Hx fiy fix_ Hy0 Hx0.
    apply nearest_first; auto; apply project_signed; auto using dim_nonneg. }
  split; [exact Hsel |].
  unfold Resize, ResizeFloor.
  apply for_loop_ext. intros n k _. apply for_loop_ext. intros c k1 _.
  apply for_loop_ext. intros y k2 Hy.
  unfold bind at 1 3, lift.
  destruct (numeric_cast_uint (floorf (F32.mul (numeric_cast_float y) _))) as [y0 | e] eqn:Hy0;
    [| reflexivity].
  apply for_loop_ext. intros x k3 Hx.
  unfold bind at 1 5, lift.
  destruct (numeric_cast_uint (floorf (F32.mul (numeric_cast_float x) _))) as [x0 | e] eqn:Hx0;
    [| reflexivity].
  destruct (Hsel y x y0 x0
              (Z.min (wrap32 (y0 + 1)) (wrap32 (dim inputInfo (GetHeightIndex l) - 1)))
              (Z.min (wrap32 (x0 + 1)) (wrap32 (dim inputInfo (GetWidthIndex l) - 1)))
              Hy Hx Hy0 Hx0) as [_ Hle].
  unfold distance0, distance1, project in Hle. rewrite Hle.
  unfold bind, Decoder_at, Decoder_Get. cbn [in_pos].
  destruct ((0 <=? _) && (_ <? dec_size inp)); reflexivity.
Qed.

Lemma read_ok (inp : Decoder) (index : Z) (v : spec_float) :
  read inp index = Ok v -> v = dec_elem inp index /\ 0 <= index < dec_size inp.
Proof.
  unfold read. destruct (Z.leb_spec 0 index), (Z.ltb_spec index (dec_size inp));
    cbn [andb]; try discriminate.
  intros [= <-]. split; [reflexivity | lia].
Qed.

Lemma read_in_bounds (inp : Decoder) (index : Z) :
  0 <= index < dec_size inp -> read inp index = Ok (dec_elem inp index).
Proof.
  intros Hi. unfold read.
  destruct (Z.leb_spec 0 index), (Z.ltb_spec index (dec_size inp)); try lia. reflexivity.
Qed.

Lemma value_at_texels (inp : Decoder) (l : DataLayout) (method : ResizeMethod)
      (N C Hin Win Hout Wout n c y x : Z) (v : spec_float) :
  value_at inp (mkShape l N C Hin Win) (mkShape l N C Hout Wout) l method n c y x = Ok v ->
  exists y0 x0,
    texel0 Hin Hout y = Ok y0 /\ texel0 Win Wout x = Ok x0 /\
    interpolate inp l (mkShape l N C Hin Win) method n c
                (project Hin Hout y) (project Win Wout x) y0 x0 = Ok v.
Proof.
  unfold value_at, texel0.
  destruct (dim_mkShape l N C Hin Win) as (_ & _ & -> & ->).
  destruct (dim_mkShape l N C Hout Wout) as (_ & _ & -> & ->).
  destruct (numeric_cast_uint (floorf (project Hin Hout y))) as [y0 | e]; [| discriminate].
  destruct (numeric_cast_uint (floorf (project Win Wout x))) as [x0 | e]; [| discriminate].
  cbn [obind]. intros Hv. now exists y0, x0.
Qed.


Lemma wrap32_small (z : Z) : 0 <= z < 2 ^ 32 -> wrap32 z = z.
Proof. intros Hz. unfold wrap32. now apply Z.mod_small. Qed.

Lemma texel1_clamped (inExtent outExtent i t0 : Z) :
  1 <= inExtent < 2 ^ 32 -> 0 <= outExtent -> 0 <= i ->
  texel0 inExtent outExtent i = Ok t0 ->
  0 <= t0 /\ texel1 inExtent t0 = Z.min (t0 + 1) (inExtent - 1) /\
  0 <= texel1 inExtent t0 <= inExtent - 1.
Proof.
  intros Hi Ho Hj Ht. unfold texel0 in Ht.
  apply floor_cast in Ht; [| apply project_signed; lia].
  destruct Ht as (_ & _ & H0 & H1).
  unfold texel1. rewrite !wrap32_small by lia. lia.
Qed.

(** With the nearest-neighbour policy the value is the sample at the
    floored coordinates. *)
Lemma interpolate_nearest (inp : Decoder) (l : DataLayout) (method : ResizeMethod)
      (N C Hin Win Hout Wout n c y x y0 x0 : Z) :
  method <> Bilinear ->
  0 <= Hin -> 0 <= Win -> 0 <= Hout -> 0 <= Wout -> 0 <= y -> 0 <= x ->
  texel0 Hin Hout y = Ok y0 -> texel0 Win Wout x = Ok x0 ->
  interpolate inp l (mkShape l N C Hin Win) method n c
              (project Hin Hout y) (project Win Wout x) y0 x0 =
  sample inp l (mkShape l N C Hin Win) n c y0 x0.
Proof.
  intros Hm HHin HWin HHout HWout Hy Hx Hy0 Hx0. unfold interpolate.
  destruct (nearest_first (project Hin Hout y) (project Win Wout x) y0 x0
              (texel1 (dim (mkShape l N C Hin Win) (GetHeightIndex l)) y0)
              (texel1 (dim (mkShape l N C Hin Win) (GetWidthIndex l)) x0)) as [_ Hle];
    try (apply project_signed; lia); auto.
  destruct method; [contradiction | |]; cbv zeta; now rewrite Hle.
Qed.

(** * Linear interpolation *)

Lemma copy_of_refl (a : spec_float) : copy_of a a.
Proof. now left. Qed.

Lemma copy_of_trans (a v w : spec_float) : copy_of a v -> copy_of v w -> copy_of a w.
Proof.
  intros [Hv | [Ha Hv]] [Hw | [Hv' Hw]]; subst; try discriminate.
  - now left.
  - now right.
  - now right.
Qed.

Lemma copy_of_valid (a v : spec_float) :
  copy_of a v -> F32.valid a = true -> is_finite a = true ->
  F32.valid v = true /\ is_finite v = true.
Proof. intros [-> | [-> ->]]; auto. Qed.

Lemma compare_finite_refl (a : spec_float) :
  is_finite a = true -> SFcompare a a = Some Eq.
Proof.
  destruct a as [s | s | | s m e]; try discriminate; intros _; [reflexivity |].
  cbn [SFcompare]. rewrite Z.compare_refl.
  assert (Pos.compare_cont Eq m m = Eq) as -> by apply Pos.compare_refl.
  now destruct s.
Qed.

(** A copy compares equal to its original. *)
Lemma copy_of_eqb (a v : spec_float) :
  copy_of a v -> is_finite a = true -> SFeqb v a = true.
Proof.
  intros [-> | [-> ->]] Hf; [| reflexivity].
  unfold SFeqb. now rewrite compare_finite_refl.
Qed.

Lemma Lerp_weight_zero (a b : spec_float) (s : bool) :
  F32.valid a = true -> is_finite a = true -> is_finite b = true ->
  copy_of a (Lerp a b (S754_zero s)).
Proof.
  intros Hv Ha Hb. unfold Lerp.
  change (F32.sub F32.one (S754_zero s)) with F32.one. rewrite mul_one_l by assumption.
  destruct b as [sb | sb | | sb mb eb]; try discriminate;
    destruct a as [sa | sa | | sa ma ea]; try discriminate; cbn;
    try (now left); destruct s, sb, sa; cbn; auto using copy_of_refl; now right.
Qed.

Lemma Lerp_weight_one (a b : spec_float) :
  F32.valid b = true -> is_finite a = true -> is_finite b = true ->
  copy_of b (Lerp a b F32.one).
Proof.
  intros Hv Ha Hb. unfold Lerp.
  change (F32.sub F32.one F32.one) with (S754_zero false). rewrite mul_one_l by assumption.
  destruct b as [sb | sb | | sb mb eb]; try discriminate;
    destruct a as [sa | sa | | sa ma ea]; try discriminate; cbn;
    try (now left); destruct sb, sa; cbn; auto using copy_of_refl; now right.
Qed.

(** Bilinear interpolation with both weights zero copies the top-left
    sample. *)
Lemma bilinear_weights_zero (s00 s01 s10 s11 : spec_float) :
  F32.valid s00 = true -> is_finite s00 = true -> is_finite s01 = true ->
  F32.valid s10 = true -> is_finite s10 = true -> is_finite s11 = true ->
  copy_of s00 (Lerp (Lerp s00 s01 (S754_zero false)) (Lerp s10 s11 (S754_zero false))
                    (S754_zero false)).
Proof.
  intros V00 F00 F01 V10 F10 F11.
  pose proof (Lerp_weight_zero s00 s01 false V00 F00 F01) as C0.
  pose proof (Lerp_weight_zero s10 s11 false V10 F10 F11) as C1.
  destruct (copy_of_valid _ _ C0 V00 F00) as [V0 F0].
  destruct (copy_of_valid _ _ C1 V10 F10) as [_ F1].
  eapply copy_of_trans; [exact C0 |]. now apply Lerp_weight_zero.
Qed.

Lemma value_at_bilinear (inp : Decoder) (l : DataLayout)
      (N C Hin Win Hout Wout n c y x y0 x0 : Z) :
  texel0 Hin Hout y = Ok y0 -> texel0 Win Wout x = Ok x0 ->
  let inputShape := mkShape l N C Hin Win in
  let y1 := texel1 Hin y0 in
  let x1 := texel1 Win x0 in
  value_at inp inputShape (mkShape l N C Hout Wout) l Bilinear n c y x =
  obind (sample inp l inputShape n c y0 x0) (fun input1 =>
  obind (sample inp l inputShape n c y0 x1) (fun input2 =>
  obind (sample inp l inputShape n c y1 x0) (fun input3 =>
  obind (sample inp l inputShape n c y1 x1) (fun input4 =>
  Ok (Lerp (Lerp input1 input2 (weight Win Wout x))
           (Lerp input3 input4 (weight Win Wout x))
           (weight Hin Hout y)))))).
Proof.
  unfold texel0. intros Hy0 Hx0. cbv zeta. unfold value_at.
  destruct (dim_mkShape l N C Hin Win) as (_ & _ & EH & EW).
  destruct (dim_mkShape l N C Hout Wout) as (_ & _ & -> & ->).
  unfold interpolate. rewrite EH, EW, Hy0, Hx0. reflexivity.
Qed.

Lemma obind_ok {A B} (o : Outcome A) (f : A -> Outcome B) (b : B) :
  obind o f = Ok b -> exists a, o = Ok a /\ f a = Ok b.
Proof. destruct o as [a | e]; [| discriminate]. intros H. now exists a. Qed.

Lemma sample_ok (inp : Decoder) (l : DataLayout) (shape : TensorShape)
      (n c y x : Z) (v : spec_float) :
  sample inp l shape n c y x = Ok v ->
  v = element l inp shape n c y x /\ 0 <= GetIndex l shape n c y x < dec_size inp.
Proof. apply read_ok. Qed.

(** The endpoints of [Lerp], for every operand.  At weight zero the
    result is a copy of [a] as soon as [b] is finite, whatever [a] is, and
    a NaN when [b] is infinite or NaN, because of the product [0 * b]; at
    weight one the roles are exchanged. *)
Lemma Lerp_zero_copy (a b : spec_float) (s : bool) :
  F32.valid a = true -> is_finite b = true -> copy_of a (Lerp a b (S754_zero s)).
Proof.
  intros Hv Hb. unfold Lerp.
  change (F32.sub F32.one (S754_zero s)) with F32.one. rewrite mul_one_l by assumption.
  destruct b as [sb | sb | | sb mb eb]; try discriminate;
    destruct a as [sa | sa | | sa ma ea]; cbn;
    try (now left); destruct s, sb, sa; cbn; auto using copy_of_refl; now right.
Qed.

Lemma Lerp_zero_nan (a b : spec_float) (s : bool) :
  is_finite b = false -> Lerp a b (S754_zero s) = S754_nan.
Proof.
  intros Hb. unfold Lerp. now destruct b as [sb | sb | | sb mb eb]; try discriminate.
Qed.

Lemma Lerp_one_copy (a b : spec_float) :
  F32.valid b = true -> is_finite a = true -> copy_of b (Lerp a b F32.one).
Proof.
  intros Hv Ha. unfold Lerp.
  change (F32.sub F32.one F32.one) with (S754_zero false). rewrite mul_one_l by assumption.
  destruct a as [sa | sa | | sa ma ea]; try discriminate;
    destruct b as [sb | sb | | sb mb eb]; cbn;
    try (now left); destruct sb, sa; cbn; auto using copy_of_refl; now right.
Qed.

Lemma Lerp_one_nan (a b : spec_float) :
  is_finite a = false -> Lerp a b F32.one = S754_nan.
Proof.
  intros Ha. unfold Lerp.
  change (F32.sub F32.one F32.one) with (S754_zero false).
  assert (E : F32.mul (S754_zero false) a = S754_nan)
    by (destruct a as [sa | sa | | sa ma ea]; try discriminate; reflexivity).
  rewrite E. now destruct (F32.mul F32.one b).
Qed.

(** C4, as amended.  For every output coordinate of a bilinear call that
    returns, the value written is [lerp(ly0, ly1, yw)] with
    [ly0 = lerp(s00, s01, xw)] and [ly1 = lerp(s10, s11, xw)] over the four
    samples at [(y0,x0)], [(y0,x1)], [(y1,x0)], [(y1,x1)], where
    [lerp(a,b,w) = w*b + (1-w)*a].  At weight zero this lerp yields a copy
    of [a], whatever [a] is, when [b] is finite, and a NaN when [b] is
    infinite or NaN; at weight one it yields a copy of [b] when [a] is
    finite and a NaN when [a] is infinite or NaN (in a copy a negative
    zero may come out as a positive zero). *)
Theorem bilinear_interpolation :
  (forall (inp : Decoder) (l : DataLayout) (N C Hin Win Hout Wout : Z)
          (k0 k : Kernel) (n c y x : Z),
      out_log k0 = [] ->
      Resize inp (mkShape l N C Hin Win) (mkShape l N C Hout Wout) l Bilinear k0
        = (Ok tt, k) ->
      in_space N C Hout Wout n c y x ->
      exists y0 x0,
        texel0 Hin Hout y = Ok y0 /\ texel0 Win Wout x = Ok x0 /\
        let inputShape := mkShape l N C Hin Win in
        let y1 := texel1 Hin y0 in
        let x1 := texel1 Win x0 in
        let s00 := element l inp inputShape n c y0 x0 in
        let s01 := element l inp inputShape n c y0 x1 in
        let s10 := element l inp inputShape n c y1 x0 in
        let s11 := element l inp inputShape n c y1 x1 in
        let xw := weight Win Wout x in
        let yw := weight Hin Hout y in
        written (out_log k) (GetIndex l (mkShape l N C Hout Wout) n c y x) =
          Some (Lerp (Lerp s00 s01 xw) (Lerp s10 s11 xw) yw)) /\
  (forall a b w, Lerp a b w = F32.add (F32.mul w b) (F32.mul (F32.sub F32.one w) a)) /\
  (forall a b s,
      F32.valid a = true -> is_finite b = true -> copy_of a (Lerp a b (S754_zero s))) /\
  (forall a b s, is_finite b = false -> Lerp a b (S754_zero s) = S754_nan) /\
  (forall a b,
      F32.valid b = true -> is_finite a = true -> copy_of b (Lerp a b F32.one)) /\
  (forall a b, is_finite a = false -> Lerp a b F32.one = S754_nan).
Proof.
  split; [| split; [reflexivity |
             split; [exact Lerp_zero_copy |
             split; [exact Lerp_zero_nan |
             split; [exact Lerp_one_copy | exact Lerp_one_nan]]]]].
  intros inp l N C Hin Win Hout Wout k0 k n c y x Hk0 Hrun Hsp.
  destruct (Resize_log inp l Bilinear N C Hin Win Hout Wout k0 k Hk0 Hrun) as [_ Hw].
  destruct (Hw n c y x Hsp) as (v & Hv & Hwr).
  pose proof Hv as Hv'. apply value_at_texels in Hv'.
  destruct Hv' as (y0 & x0 & Hy0 & Hx0 & _).
  exists y0, x0. split; [assumption |]. split; [assumption |].
  rewrite (value_at_bilinear inp l N C Hin Win Hout Wout n c y x y0 x0 Hy0 Hx0) in Hv.
  apply obind_ok in Hv. destruct Hv as (i1 & H1 & Hv). apply sample_ok in H1.
  apply obind_ok in Hv. destruct Hv as (i2 & H2 & Hv). apply sample_ok in H2.
  apply obind_ok in Hv. destruct Hv as (i3 & H3 & Hv). apply sample_ok in H3.
  apply obind_ok in Hv. destruct Hv as (i4 & H4 & Hv). apply sample_ok in H4.
  destruct H1 as [-> _], H2 as [-> _], H3 as [-> _], H4 as [-> _].
  injection Hv as <-. exact Hwr.
Qed.

(** C4 as stated fails: with an infinite other operand the lerp is a NaN
    at weight zero and at weight one, where the claim has [a] and [b], and
    a negative zero comes out positive. *)
Lemma lerp_endpoints_not_exact :
  (Lerp F32.one (S754_infinity false) (S754_zero false) = S754_nan /\
   Lerp F32.one (S754_infinity false) (S754_zero false) <> F32.one) /\
  (Lerp (S754_infinity false) F32.one F32.one = S754_nan /\
   Lerp (S754_infinity false) F32.one F32.one <> F32.one) /\
  (Lerp (S754_zero true) F32.one (S754_zero false) = S754_zero false /\
   Lerp (S754_zero true) F32.one (S754_zero false) <> S754_zero true).
Proof. repeat split; vm_compute; discriminate. Qed.

(** ** The clamp of the second texel *)

(** C6. For every output coordinate of a call that returns, the second
    texel is [y1 = min(y0 + 1, Hin - 1)], [x1 = min(x0 + 1, Win - 1)]: it
    lies on the last row and column at most and inside the tensor, so the
    reads at [y1] and [x1] never pass the border.  The bilinear policy
    interpolates the four samples at [y0], [y1] and [x0], [x1] so clamped:
    where [y0] is the last row the second row is the last row again (the
    edge is replicated, nothing wraps around), and likewise for the
    columns.  With the nearest-neighbour policy, where [y0] is [Hin - 1]
    or [x0] is [Win - 1] the value written is the input sample of the
    last row or column. *)
Theorem boundary_clamp
        (inp : Decoder) (l : DataLayout) (method : ResizeMethod)
        (N C Hin Win Hout Wout : Z) (k0 k : Kernel) (n c y x : Z) :
  1 <= Hin < 2 ^ 32 -> 1 <= Win < 2 ^ 32 ->
  out_log k0 = [] ->
  Resize inp (mkShape l N C Hin Win) (mkShape l N C Hout Wout) l method k0 = (Ok tt, k) ->
  in_space N C Hout Wout n c y x ->
  exists y0 x0,
    texel0 Hin Hout y = Ok y0 /\ texel0 Win Wout x = Ok x0 /\
    let shape := mkShape l N C Hin Win in
    let y1 := Z.min (y0 + 1) (Hin - 1) in
    let x1 := Z.min (x0 + 1) (Win - 1) in
    let xw := weight Win Wout x in
    let yw := weight Hin Hout y in
    0 <= y1 <= Hin - 1 /\ 0 <= x1 <= Win - 1 /\
    0 <= GetIndex l shape n c y1 x1 < N * C * Hin * Win /\
    (method = Bilinear ->
     written (out_log k) (GetIndex l (mkShape l N C Hout Wout) n c y x) =
       Some (Lerp (Lerp (element l inp shape n c y0 x0) (element l inp shape n c y0 x1) xw)
                  (Lerp (element l inp shape n c y1 x0) (element l inp shape n c y1 x1) xw)
                  yw) /\
     (y0 = Hin - 1 ->
      written (out_log k) (GetIndex l (mkShape l N C Hout Wout) n c y x) =
        Some (Lerp (Lerp (element l inp shape n c (Hin - 1) x0)
                         (element l inp shape n c (Hin - 1) x1) xw)
                   (Lerp (element l inp shape n c (Hin - 1) x0)
                         (element l inp shape n c (Hin - 1) x1) xw)
                   yw)) /\
     (x0 = Win - 1 ->
      written (out_log k) (GetIndex l (mkShape l N C Hout Wout) n c y x) =
        Some (Lerp (Lerp (element l inp shape n c y0 (Win - 1))
                         (element l inp shape n c y0 (Win - 1)) xw)
                   (Lerp (element l inp shape n c y1 (Win - 1))
                         (element l inp shape n c y1 (Win - 1)) xw)
                   yw))) /\
    (method <> Bilinear ->
     (y0 = Hin - 1 ->
      written (out_log k) (GetIndex l (mkShape l N C Hout Wout) n c y x) =
        Some (element l inp shape n c (Hin - 1) x0)) /\
     (x0 = Win - 1 ->
      written (out_log k) (GetIndex l (mkShape l N C Hout Wout) n c y x) =
        Some (element l inp shape n c y0 (Win - 1)))).
Proof.
  intros HHin HWin Hk0 Hrun Hsp. pose proof Hsp as (Rn & Rc & Ry & Rx).
  destruct (Resize_log inp l method N C Hin Win Hout Wout k0 k Hk0 Hrun) as [_ Hw].
  destruct (Hw n c y x Hsp) as (v & Hv & Hwr).
  pose proof Hv as Hv'. apply value_at_texels in Hv'.
  destruct Hv' as (y0 & x0 & Hy0 & Hx0 & Hi).
  destruct (texel1_clamped Hin Hout y y0) as (_ & Ey & By); try lia; auto.
  destruct (texel1_clamped Win Wout x x0) as (_ & Ex & Bx); try lia; auto.
  exists y0, x0. split; [assumption |]. split; [assumption |]. cbv zeta.
  rewrite <- Ey, <- Ex.
  split; [exact By |]. split; [exact Bx |].
  split; [apply GetIndex_bound; unfold in_space; lia |]. split.
  - intros ->.
    rewrite (value_at_bilinear inp l N C Hin Win Hout Wout n c y x y0 x0 Hy0 Hx0) in Hv.
    cbv zeta in Hv.
    apply obind_ok in Hv. destruct Hv as (i1 & H1 & Hv). apply sample_ok in H1.
    apply obind_ok in Hv. destruct Hv as (i2 & H2 & Hv). apply sample_ok in H2.
    apply obind_ok in Hv. destruct Hv as (i3 & H3 & Hv). apply sample_ok in H3.
    apply obind_ok in Hv. destruct Hv as (i4 & H4 & Hv). apply sample_ok in H4.
    destruct H1 as [-> _], H2 as [-> _], H3 as [-> _], H4 as [-> _].
    injection Hv as <-. split; [exact Hwr |]. split.
    + intros E. rewrite Hwr.
      assert (E1 : texel1 Hin y0 = Hin - 1) by lia. now rewrite E1, E.
    + intros E. rewrite Hwr.
      assert (E1 : texel1 Win x0 = Win - 1) by lia. now rewrite E1, E.
  - intros Hm. rewrite (interpolate_nearest inp l method N C Hin Win Hout Wout) in Hi
      by (auto; lia).
    apply read_ok in Hi. destruct Hi as [-> _]. rewrite Hwr.
    split; intros <-; reflexivity.
Qed.

(** * Calls that are known to return *)

Lemma Resize_returns_guarded (inp : Decoder) (l : DataLayout) (method : ResizeMethod)
      (N C Hin Win Hout Wout : Z) (k0 : Kernel) :
  (0 < N -> 0 < C -> forall y, 0 <= y < Hout -> exists y0, texel0 Hin Hout y = Ok y0) ->
  (forall n c y x, in_space N C Hout Wout n c y x ->
     exists v, value_at inp (mkShape l N C Hin Win) (mkShape l N C Hout Wout)
                        l method n c y x = Ok v) ->
  exists k,
    Resize inp (mkShape l N C Hin Win) (mkShape l N C Hout Wout) l method k0 = (Ok tt, k).
Proof.
  intros Hy Hval.
  destruct (ResizeTrace_all_guarded inp (mkShape l N C Hin Win) (mkShape l N C Hout Wout)
              l method) as (tr & Htr).
  - destruct (dim_mkShape l N C Hin Win) as (-> & -> & -> & _).
    destruct (dim_mkShape l N C Hout Wout) as (_ & _ & -> & _). exact Hy.
  - destruct (dim_mkShape l N C Hin Win) as (-> & -> & _ & _).
    destruct (dim_mkShape l N C Hout Wout) as (_ & _ & -> & ->). exact Hval.
  - destruct (Resize_trace_ok _ _ _ _ _ _ k0 Htr) as (k & Hrun & _). now exists k.
Qed.

Lemma Resize_returns (inp : Decoder) (l : DataLayout) (method : ResizeMethod)
      (N C Hin Win Hout Wout : Z) (k0 : Kernel) :
  (forall y, 0 <= y < Hout -> exists y0, texel0 Hin Hout y = Ok y0) ->
  (forall n c y x, in_space N C Hout Wout n c y x ->
     exists v, value_at inp (mkShape l N C Hin Win) (mkShape l N C Hout Wout)
                        l method n c y x = Ok v) ->
  out_log k0 = [] ->
  exists k,
    Resize inp (mkShape l N C Hin Win) (mkShape l N C Hout Wout) l method k0 = (Ok tt, k) /\
    forall n c y x, in_space N C Hout Wout n c y x ->
      exists v, value_at inp (mkShape l N C Hin Win) (mkShape l N C Hout Wout)
                         l method n c y x = Ok v /\
                written (out_log k) (GetIndex l (mkShape l N C Hout Wout) n c y x) = Some v.
Proof.
  intros Hy Hval Hk0.
  destruct (Resize_returns_guarded inp l method N C Hin Win Hout Wout k0) as (k & Hrun);
    [intros _ _; exact Hy | exact Hval |].
  exists k. split; [exact Hrun |].
  now destruct (Resize_log inp l method N C Hin Win Hout Wout k0 k Hk0 Hrun).
Qed.

(** A call that returns went through the row casts of every row. *)
Lemma Resize_texels (inp : Decoder) (l : DataLayout) (method : ResizeMethod)
      (N C Hin Win Hout Wout : Z) (k0 k : Kernel) :
  Resize inp (mkShape l N C Hin Win) (mkShape l N C Hout Wout) l method k0 = (Ok tt, k) ->
  0 < N -> 0 < C ->
  forall y, 0 <= y < Hout -> exists y0, texel0 Hin Hout y = Ok y0.
Proof.
  intros Hrun. apply Resize_ok_trace in Hrun. destruct Hrun as (tr & Htr & _).
  pose proof (ResizeTrace_texels _ _ _ _ _ _ Htr) as Ht.
  destruct (dim_mkShape l N C Hin Win) as (EN & EC & EH & _).
  destruct (dim_mkShape l N C Hout Wout) as (_ & _ & EHo & _).
  rewrite EN, EC, EH, EHo in Ht. exact Ht.
Qed.

(** ** Identity scale *)




Lemma floorf_of_Z_small (i : Z) :
  0 <= i <= 2 ^ 24 -> floorf (F32.of_Z i) = F32.of_Z i.
Proof.
  intros Hi. destruct (cast_of_Z_small i Hi) as [Hc _].
  pose proof (of_Z_signed i (proj1 Hi)) as [E | [E | (m & e & E)]]; rewrite E in *.
  - reflexivity.
  - discriminate.
  - unfold numeric_cast_uint, truncZ in Hc. unfold floorf, floorZ.
    cbn [cond_Zopp] in *.
    destruct ((Z.shiftl (Zpos m) e <=? -1) || (2 ^ 32 <=? Z.shiftl (Zpos m) e));
      [discriminate |].
    injection Hc as ->. exact E.
Qed.


Lemma value_at_unfold (inp : Decoder) (l : DataLayout) (method : ResizeMethod)
      (N C Hin Win Hout Wout n c y x y0 x0 : Z) :
  texel0 Hin Hout y = Ok y0 -> texel0 Win Wout x = Ok x0 ->
  value_at inp (mkShape l N C Hin Win) (mkShape l N C Hout Wout) l method n c y x =
  interpolate inp l (mkShape l N C Hin Win) method n c
              (project Hin Hout y) (project Win Wout x) y0 x0.
Proof.
  unfold texel0, value_at. intros Hy0 Hx0.
  destruct (dim_mkShape l N C Hin Win) as (_ & _ & -> & ->).
  destruct (dim_mkShape l N C Hout Wout) as (_ & _ & -> & ->).
  now rewrite Hy0, Hx0.
Qed.

Lemma sample_in_space (inp : Decoder) (l : DataLayout) (N C H W n c y x : Z) :
  N * C * H * W <= dec_size inp -> in_space N C H W n c y x ->
  sample inp l (mkShape l N C H W) n c y x = Ok (element l inp (mkShape l N C H W) n c y x).
Proof.
  intros Hsize Hsp. apply read_in_bounds.
  pose proof (GetIndex_bound l N C H W n c y x Hsp). lia.
Qed.



(** ** Corner alignment *)






(** ** The floored coordinate can leave the input *)

(** C7 fails on the code.  With one input row and [2^24 + 1] output rows
    the coordinate of the last output row is [2^24 * 2^-24 = 1.0]: the
    floored coordinate is [1 = Hin], the read at [(y0, x0)] is outside the
    buffer with either method, and the call does not return.  Extents
    below [2^24] do not help: 257 input rows and 8416375 output rows put
    the last output row on the input row 257. *)
Lemma floored_coordinate_out_of_range :
  project 1 16777217 16777216 = F32.one /\
  texel0 1 16777217 16777216 = Ok 1 /\
  texel0 257 8416375 8416374 = Ok 257 /\
  (forall method,
     value_at single (mkShape NCHW 1 1 1 1) (mkShape NCHW 1 1 16777217 1) NCHW method
              0 0 16777216 0 = Fail OutOfBounds) /\
  (forall method k,
     Resize single (mkShape NCHW 1 1 1 1) (mkShape NCHW 1 1 16777217 1) NCHW method start
     <> (Ok tt, k)).
Proof.
  assert (Hval : forall method,
     value_at single (mkShape NCHW 1 1 1 1) (mkShape NCHW 1 1 16777217 1) NCHW method
              0 0 16777216 0 = Fail OutOfBounds)
    by (intros [| | raw]; reflexivity).
  split; [reflexivity |]. split; [reflexivity |]. split; [reflexivity |].
  split; [exact Hval |].
  intros method k Hrun.
  destruct (Resize_log single NCHW method 1 1 1 1 16777217 1 start k eq_refl Hrun) as [_ Hw].
  destruct (Hw 0 0 16777216 0) as (v & Hv & _); [unfold in_space; lia |].
  rewrite Hval in Hv. discriminate.
Qed.

(** * Texels and methods *)

Lemma texel1_nonneg (inExtent t0 : Z) : 0 <= texel1 inExtent t0.
Proof.
  unfold texel1, wrap32.
  pose proof (Z.mod_pos_bound (t0 + 1) (2 ^ 32) eq_refl).
  pose proof (Z.mod_pos_bound (inExtent - 1) (2 ^ 32) eq_refl). lia.
Qed.

Lemma texel0_nonneg (inExtent outExtent i t0 : Z) :
  0 <= inExtent -> 0 <= outExtent -> 0 <= i ->
  texel0 inExtent outExtent i = Ok t0 -> 0 <= t0.
Proof.
  intros Hi Ho Hj Ht. unfold texel0 in Ht.
  apply floor_cast in Ht; [tauto | apply project_signed; lia].
Qed.

Lemma ResizeMethod_eq_Bilinear (method : ResizeMethod) :
  method = Bilinear \/ method <> Bilinear.
Proof. destruct method; [now left | right; discriminate | right; discriminate]. Qed.

(** * Concrete runs *)

(** C2 on the 4x4 ramp resized to 3x3, from the starting state. *)
Lemma nearest_neighbor_is_floor_sampling_witness :
  Forall (fun d => 0 <= d) (mkShape NCHW 1 1 4 4) /\
  Forall (fun d => 0 <= d) (mkShape NCHW 1 1 3 3) /\
  Resize ramp (mkShape NCHW 1 1 4 4) (mkShape NCHW 1 1 3 3) NCHW NearestNeighbor start =
  ResizeFloor ramp (mkShape NCHW 1 1 4 4) (mkShape NCHW 1 1 3 3) NCHW start.
Proof.
  assert (Hi : Forall (fun d => 0 <= d) (mkShape NCHW 1 1 4 4)) by (repeat constructor; lia).
  assert (Ho : Forall (fun d => 0 <= d) (mkShape NCHW 1 1 3 3)) by (repeat constructor; lia).
  split; [exact Hi |]. split; [exact Ho |].
  exact (proj2 (nearest_neighbor_is_floor_sampling ramp (mkShape NCHW 1 1 4 4)
                  (mkShape NCHW 1 1 3 3) NCHW Hi Ho) start).
Defined.


(** C4 on the 4x4 ramp resized to 3x3, at the output element (1, 1), and
    on the numbers 1 and 2. *)
Lemma bilinear_interpolation_witness :
  (exists y0 x0,
     texel0 4 3 1 = Ok y0 /\ texel0 4 3 1 = Ok x0 /\
     let inputShape := mkShape NCHW 1 1 4 4 in
     let y1 := texel1 4 y0 in
     let x1 := texel1 4 x0 in
     let s00 := element NCHW ramp inputShape 0 0 y0 x0 in
     let s01 := element NCHW ramp inputShape 0 0 y0 x1 in
     let s10 := element NCHW ramp inputShape 0 0 y1 x0 in
     let s11 := element NCHW ramp inputShape 0 0 y1 x1 in
     let xw := weight 4 3 1 in
     let yw := weight 4 3 1 in
     written (out_log ramp_bilinear) (GetIndex NCHW (mkShape NCHW 1 1 3 3) 0 0 1 1) =
       Some (Lerp (Lerp s00 s01 xw) (Lerp s10 s11 xw) yw)) /\
  copy_of F32.one (Lerp F32.one (F32.of_Z 2) (S754_zero false)) /\
  copy_of (S754_infinity true) (Lerp (S754_infinity true) (F32.of_Z 2) (S754_zero false)) /\
  Lerp F32.one (S754_infinity false) (S754_zero false) = S754_nan /\
  copy_of (F32.of_Z 2) (Lerp F32.one (F32.of_Z 2) F32.one) /\
  Lerp S754_nan (F32.of_Z 2) F32.one = S754_nan.
Proof.
  destruct bilinear_interpolation as (Hresize & _ & Hzero & Hzero' & Hone & Hone').
  split; [| split; [| split; [| split; [| split]]]].
  - apply (Hresize ramp NCHW 1 1 4 4 3 3 start ramp_bilinear 0 0 1 1);
      [reflexivity | vm_compute; reflexivity | in_unit_space].
  - apply Hzero; reflexivity.
  - apply Hzero; reflexivity.
  - apply Hzero'; reflexivity.
  - apply Hone; reflexivity.
  - apply Hone'; reflexivity.
Defined.


(** C6 on a 1x2x2x2 tensor resized to 3x3, at the last output element of
    the second channel: the floored coordinates are the last row and
    column, [1 = Hin - 1 = Win - 1], the second texel is clamped on them,
    the bilinear call interpolates the last sample with itself and the
    nearest-neighbour call writes it. *)
Lemma boundary_clamp_witness :
  texel0 2 3 2 = Ok (2 - 1) /\
  Z.min (2 - 1 + 1) (2 - 1) = 2 - 1 /\
  (let last := element NCHW planar (mkShape NCHW 1 2 2 2) 0 1 (2 - 1) (2 - 1) in
   written (out_log planar_bilinear) (GetIndex NCHW (mkShape NCHW 1 2 3 3) 0 1 2 2) =
     Some (Lerp (Lerp last last (weight 2 3 2)) (Lerp last last (weight 2 3 2))
                (weight 2 3 2))) /\
  written (out_log planar_nearest) (GetIndex NCHW (mkShape NCHW 1 2 3 3) 0 1 2 2) =
    Some (element NCHW planar (mkShape NCHW 1 2 2 2) 0 1 (2 - 1) (2 - 1)).
Proof.
  assert (E : texel0 2 3 2 = Ok 1) by (vm_compute; reflexivity).
  split; [exact E |]. split; [reflexivity |]. split.
  - destruct (boundary_clamp planar NCHW Bilinear 1 2 2 2 3 3 start planar_bilinear 0 1 2 2)
      as (y0 & x0 & Hy & Hx & _ & _ & _ & Hbil & _);
      [lia | lia | reflexivity | vm_compute; reflexivity | in_unit_space |].
    rewrite E in Hy, Hx. injection Hy as <-. injection Hx as <-.
    exact (proj1 (proj2 (Hbil eq_refl)) eq_refl).
  - destruct (boundary_clamp planar NCHW NearestNeighbor 1 2 2 2 3 3 start planar_nearest
                             0 1 2 2)
      as (y0 & x0 & Hy & Hx & _ & _ & _ & _ & Hnn);
      [lia | lia | reflexivity | vm_compute; reflexivity | in_unit_space |].
    rewrite E in Hy, Hx. injection Hy as <-. injection Hx as <-.
    exact (proj1 (Hnn ltac:(discriminate)) eq_refl).
Defined.


(** * Further properties of the kernel *)

(** ** Runs that fail *)

Lemma yields_for_from (count : nat) (i : Z) (body : Z -> M unit)
      (f : Z -> list (Z * spec_float) * Outcome unit) :
  (forall j, Yields (body j) (f j)) ->
  Yields (for_from count i body) (sweep count i f).
Proof.
  intros Hbody. revert i. induction count as [| count IH]; intros i k.
  - exists k. split; reflexivity.
  - cbn [for_from sweep]. unfold bind.
    destruct (Hbody i k) as (k1 & E1 & L1).
    destruct (f i) as [w [[] | e]]; cbn [fst snd] in *; rewrite E1.
    + destruct (IH (i + 1) k1) as (k2 & E2 & L2).
      destruct (sweep count (i + 1) f) as [ws r]. cbn [fst snd] in *.
      exists k2. split; [exact E2 |].
      now rewrite L2, L1, rev_app_distr, app_assoc.
    + now exists k1.
Qed.

Lemma yields_for_loop (bound : Z) (body : Z -> M unit)
      (f : Z -> list (Z * spec_float) * Outcome unit) :
  (forall j, Yields (body j) (f j)) ->
  Yields (for_loop bound body) (sweep_loop bound f).
Proof. apply yields_for_from. Qed.

Lemma yields_lift_bind {A} (o : Outcome A) (f : A -> M unit)
      (t : list (Z * spec_float) * Outcome unit) :
  (forall a, o = Ok a -> Yields (f a) t) ->
  Yields (bind (lift o) f) (guard o t).
Proof.
  intros H k. unfold bind, lift. destruct o as [a | e]; cbn [guard].
  - now apply H.
  - now exists k.
Qed.

Lemma yields_computes_write (m : M spec_float) (o : Outcome spec_float) (index : Z) :
  Computes m o ->
  Yields (v <- m ;; Encoder_at index ;; Encoder_Set v) (element_sweep index o).
Proof.
  intros Hm k. unfold bind. destruct (Hm k) as (k1 & -> & L1 & _).
  destruct o as [v | e]; cbn [element_sweep fst snd].
  - eexists. split; [reflexivity |]. cbn. now rewrite L1.
  - now exists k1.
Qed.

Lemma computes_interpolate (inp : Decoder) (inputInfo : TensorShape) (l : DataLayout)
      (method : ResizeMethod) (n c : Z) (iy ix : spec_float) (y0 x0 : Z) :
  Computes
    (match method with
     | Bilinear =>
         Decoder_at (GetIndex l inputInfo n c y0 x0) ;;
         input1 <- Decoder_Get inp ;;
         Decoder_at (GetIndex l inputInfo n c y0
                       (Z.min (wrap32 (x0 + 1)) (wrap32 (dim inputInfo (GetWidthIndex l) - 1)))) ;;
         input2 <- Decoder_Get inp ;;
         Decoder_at (GetIndex l inputInfo n c
                       (Z.min (wrap32 (y0 + 1)) (wrap32 (dim inputInfo (GetHeightIndex l) - 1)))
                       x0) ;;
         input3 <- Decoder_Get inp ;;
         Decoder_at (GetIndex l inputInfo n c
                       (Z.min (wrap32 (y0 + 1)) (wrap32 (dim inputInfo (GetHeightIndex l) - 1)))
                       (Z.min (wrap32 (x0 + 1)) (wrap32 (dim inputInfo (GetWidthIndex l) - 1)))) ;;
         input4 <- Decoder_Get inp ;;
         let ly0 := Lerp input1 input2 (F32.sub ix (floorf ix)) in
         let ly1 := Lerp input3 input4 (F32.sub ix (floorf ix)) in
         ret (Lerp ly0 ly1 (F32.sub iy (floorf iy)))
     | _ =>
         let distance0 :=
           distance (F32.sub (floorf ix) (numeric_cast_float x0))
                    (F32.sub (floorf iy) (numeric_cast_float y0)) in
         let distance1 :=
           distance (F32.sub (floorf ix) (numeric_cast_float
                       (Z.min (wrap32 (x0 + 1)) (wrap32 (dim inputInfo (GetWidthIndex l) - 1)))))
                    (F32.sub (floorf iy) (numeric_cast_float
                       (Z.min (wrap32 (y0 + 1)) (wrap32 (dim inputInfo (GetHeightIndex l) - 1))))) in
         let xNearest := if SFleb distance0 distance1 then x0
                         else Z.min (wrap32 (x0 + 1)) (wrap32 (dim inputInfo (GetWidthIndex l) - 1)) in
         let yNearest := if SFleb distance0 distance1 then y0
                         else Z.min (wrap32 (y0 + 1)) (wrap32 (dim inputInfo (GetHeightIndex l) - 1)) in
         Decoder_at (GetIndex l inputInfo n c yNearest xNearest) ;;
         Decoder_Get inp
     end)
    (interpolate inp l inputInfo method n c iy ix y0 x0).
Proof.
  unfold interpolate, sample, distance0, distance1, texel1.
  destruct method.
  - repeat (apply computes_read_bind; intro). apply computes_ret.
  - apply computes_read.
  - apply computes_read.
Qed.

(** The loops of [Resize] stop at the first failure and keep what they
    wrote before it. *)
Lemma Resize_yields (inp : Decoder) (inputInfo outputInfo : TensorShape)
      (dataLayout : DataLayout) (resizeMethod : ResizeMethod) :
  Yields (Resize inp inputInfo outputInfo dataLayout resizeMethod)
         (ResizeSweep inp inputInfo outputInfo dataLayout resizeMethod).
Proof.
  unfold Resize, ResizeSweep.
  apply yields_for_loop; intro n. apply yields_for_loop; intro c.
  apply yields_for_loop; intro y.
  unfold texel0, project. apply yields_lift_bind. intros y0 Hy0.
  apply yields_for_loop; intro x.
  unfold value_at, project. rewrite Hy0. cbn [obind].
  intros k. unfold bind at 1, lift.
  destruct (numeric_cast_uint (floorf (F32.mul (numeric_cast_float x) _))) as [x0 | e] eqn:Hx0;
    cbn [obind element_sweep].
  - apply (yields_computes_write _ _ _ (computes_interpolate inp inputInfo dataLayout
             resizeMethod n c _ _ y0 x0)).
  - now exists k.
Qed.

(** X1. The outcome of a call and the writes it adds do not depend on
    where the reader and the writer stand, nor on what the log holds,
    when the call starts: from any two states the call ends the same way
    (returns, or fails with the same error) and adds the same writes. *)
Theorem Resize_ignores_initial_state
        (inp : Decoder) (inputInfo outputInfo : TensorShape) (l : DataLayout)
        (method : ResizeMethod) (k k' : Kernel) :
  fst (Resize inp inputInfo outputInfo l method k) =
  fst (Resize inp inputInfo outputInfo l method k') /\
  exists ws,
    out_log (snd (Resize inp inputInfo outputInfo l method k)) = ws ++ out_log k /\
    out_log (snd (Resize inp inputInfo outputInfo l method k')) = ws ++ out_log k'.
Proof.
  destruct (Resize_yields inp inputInfo outputInfo l method k) as (k1 & E1 & L1).
  destruct (Resize_yields inp inputInfo outputInfo l method k') as (k2 & E2 & L2).
  rewrite E1, E2. cbn [fst snd]. split; [reflexivity |].
  now exists (rev (fst (ResizeSweep inp inputInfo outputInfo l method))).
Qed.

Lemma sweep_Forall {W} (P : W -> Prop) (count : nat) (i : Z)
      (f : Z -> list W * Outcome unit) :
  (forall j, i <= j < i + Z.of_nat count -> Forall P (fst (f j))) ->
  Forall P (fst (sweep count i f)).
Proof.
  revert i. induction count as [| count IH]; intros i Hf; cbn [sweep]; [constructor |].
  pose proof (Hf i ltac:(lia)) as Hi.
  assert (Hrest : Forall P (fst (sweep count (i + 1) f))) by (apply IH; intros j Hj; apply Hf; lia).
  destruct (f i) as [w [[] | e]]; cbn [fst] in *; [| exact Hi].
  destruct (sweep count (i + 1) f) as [ws r]. cbn [fst] in *.
  apply Forall_app. now split.
Qed.

Lemma sweep_loop_Forall {W} (P : W -> Prop) (bound : Z) (f : Z -> list W * Outcome unit) :
  (forall j, 0 <= j < bound -> Forall P (fst (f j))) ->
  Forall P (fst (sweep_loop bound f)).
Proof. intros Hf. apply sweep_Forall. intros j Hj. apply Hf. lia. Qed.

(** X2. Whether it returns or fails, a call keeps the log it found and
    adds only writes of the output tensor: each added write is at the
    offset of a coordinate of [[0,N) x [0,C) x [0,Hout) x [0,Wout)], inside
    [[0, N*C*Hout*Wout)], and carries the value computed for that
    coordinate. *)
Theorem writes_stay_in_output
        (inp : Decoder) (l : DataLayout) (method : ResizeMethod)
        (N C Hin Win Hout Wout : Z) (k : Kernel) :
  let inputShape := mkShape l N C Hin Win in
  let outputShape := mkShape l N C Hout Wout in
  exists ws,
    out_log (snd (Resize inp inputShape outputShape l method k)) = ws ++ out_log k /\
    Forall (fun w =>
              0 <= fst w < N * C * Hout * Wout /\
              exists n c y x,
                in_space N C Hout Wout n c y x /\
                fst w = GetIndex l outputShape n c y x /\
                value_at inp inputShape outputShape l method n c y x = Ok (snd w)) ws.
Proof.
  intros inputShape outputShape.
  destruct (Resize_yields inp inputShape outputShape l method k) as (k1 & E1 & L1).
  rewrite E1. cbn [snd]. eexists. split; [exact L1 |].
  apply Forall_rev. unfold ResizeSweep, inputShape, outputShape.
  destruct (dim_mkShape l N C Hin Win) as (-> & -> & -> & _).
  destruct (dim_mkShape l N C Hout Wout) as (_ & _ & -> & ->).
  apply sweep_loop_Forall. intros n Rn. apply sweep_loop_Forall. intros c Rc.
  apply sweep_loop_Forall. intros y Ry.
  destruct (texel0 Hin Hout y); cbn [guard]; [| constructor].
  apply sweep_loop_Forall. intros x Rx.
  destruct (value_at _ _ _ _ _ n c y x) as [v | e] eqn:Hv; cbn [element_sweep fst];
    constructor; [| constructor].
  cbn [fst snd]. assert (Hsp : in_space N C Hout Wout n c y x) by (unfold in_space; lia).
  split; [now apply GetIndex_bound |]. now exists n, c, y, x.
Qed.

(** ** Empty iteration spaces *)

Lemma for_loop_empty (bound : Z) (body : Z -> M unit) (k : Kernel) :
  bound <= 0 -> for_loop bound body k = (Ok tt, k).
Proof.
  intros Hb. unfold for_loop. now replace (Z.to_nat bound) with O by lia.
Qed.

Lemma for_from_skip (count : nat) (i : Z) (body : Z -> M unit) (k : Kernel) :
  (forall j k, body j k = (Ok tt, k)) -> for_from count i body k = (Ok tt, k).
Proof.
  intros Hbody. revert i. induction count as [| count IH]; intros i; cbn [for_from].
  - reflexivity.
  - unfold bind. rewrite Hbody. apply IH.
Qed.

Lemma for_from_state (count : nat) (i : Z) (body : Z -> M unit) (k : Kernel) :
  (forall j k, snd (body j k) = k) -> snd (for_from count i body k) = k.
Proof.
  intros Hbody. revert i. induction count as [| count IH]; intros i; cbn [for_from].
  - reflexivity.
  - unfold bind. specialize (Hbody i k).
    destruct (body i k) as [[[] | e] k1]; cbn [snd] in *; subst k1; [apply IH | reflexivity].
Qed.

(** X3. When the batch size, the channel count or the output height is
    zero the call returns at once and leaves the reader, the writer and
    the log as they are, although the scale factors may be NaN or
    infinite; when only the output width is zero nothing is read or
    written either, but a row cast may still fail. *)
Theorem empty_output_space
        (inp : Decoder) (inputInfo outputInfo : TensorShape) (l : DataLayout)
        (method : ResizeMethod) (k : Kernel) :
  dim inputInfo 0 <= 0 \/ dim inputInfo (GetChannelsIndex l) <= 0 \/
  dim outputInfo (GetHeightIndex l) <= 0 \/ dim outputInfo (GetWidthIndex l) <= 0 ->
  snd (Resize inp inputInfo outputInfo l method k) = k /\
  (dim inputInfo 0 <= 0 \/ dim inputInfo (GetChannelsIndex l) <= 0 \/
   dim outputInfo (GetHeightIndex l) <= 0 ->
   Resize inp inputInfo outputInfo l method k = (Ok tt, k)).
Proof.
  intros Hempty.
  assert (Hret : dim inputInfo 0 <= 0 \/ dim inputInfo (GetChannelsIndex l) <= 0 \/
                 dim outputInfo (GetHeightIndex l) <= 0 ->
                 Resize inp inputInfo outputInfo l method k = (Ok tt, k)).
  { unfold Resize. intros [HN | [HC | HH]].
    - now apply for_loop_empty.
    - apply for_from_skip. intros n k1. now apply for_loop_empty.
    - apply for_from_skip. intros n k1. apply for_from_skip. intros c k2.
      now apply for_loop_empty. }
  split; [| exact Hret].
  destruct Hempty as [HN | [HC | [HH | HW]]]; try (rewrite Hret by tauto; reflexivity).
  unfold Resize. apply for_from_state. intros n k1. apply for_from_state. intros c k2.
  apply for_from_state. intros y k3. unfold bind, lift.
  destruct (numeric_cast_uint _); [| reflexivity].
  now rewrite for_loop_empty.
Qed.

(** X3 on a tensor with no batch. *)
Lemma empty_output_space_witness :
  snd (Resize ramp (mkShape NCHW 0 1 4 4) (mkShape NCHW 0 1 3 3) NCHW Bilinear start) = start /\
  (dim (mkShape NCHW 0 1 4 4) 0 <= 0 \/
   dim (mkShape NCHW 0 1 4 4) (GetChannelsIndex NCHW) <= 0 \/
   dim (mkShape NCHW 0 1 3 3) (GetHeightIndex NCHW) <= 0 ->
   Resize ramp (mkShape NCHW 0 1 4 4) (mkShape NCHW 0 1 3 3) NCHW Bilinear start
     = (Ok tt, start)).
Proof.
  apply (empty_output_space ramp (mkShape NCHW 0 1 4 4) (mkShape NCHW 0 1 3 3) NCHW
           Bilinear start).
  left. unfold dim, mkShape. cbn [nth]. lia.
Defined.

(** ** Coordinates are finite *)

Lemma Zdigits2_lt (z : Z) : 0 <= z -> z < 2 ^ Zdigits2 z.
Proof.
  intros Hz. destruct z as [| p | p]; try lia; [reflexivity |].
  apply (digits2_pos_bounds p).
Qed.

Lemma Zdigits2_bound (z d : Z) : 0 <= z < 2 ^ d -> 0 <= d -> Zdigits2 z <= d.
Proof.
  intros Hz Hd. destruct z as [| p | p]; try lia; [exact Hd |].
  cbn [Zdigits2]. pose proof (digits2_pos_bounds p) as Bp.
  destruct (Z.leb_spec (Zpos (digits2_pos p)) d) as [Hle | Hgt]; [exact Hle |].
  assert (2 ^ d <= 2 ^ (Zpos (digits2_pos p) - 1)) by (apply Z.pow_le_mono_r; lia). lia.
Qed.

(** Rounding to binary32 a number below [2^127] gives a zero or a finite
    number, of at most 24 digits. *)
Lemma round32_bounded (s : bool) (m e : Z) (l : location) :
  0 <= m -> Zdigits2 m + e <= 127 -> e <= 103 ->
  binary_round_aux 24 128 s m e l = S754_zero s \/
  exists m' e',
    binary_round_aux 24 128 s m e l = S754_finite s m' e' /\
    Zpos m' < 2 ^ 24 /\
    e' <= Z.max (Z.max e (Zdigits2 m + e - 24)) (-149) + 1.
Proof.
  intros Hm Hd He. unfold binary_round_aux, shr_fexp.
  set (d := Zdigits2 m) in *.
  set (k1 := fexp 24 128 (d + e) - e).
  assert (Hk1 : k1 = Z.max (d - 24) (-149 - e)) by (unfold k1, fexp, emin; lia).
  pose proof (Zdigits2_lt m Hm) as Hlt. fold d in Hlt.
  assert (Hd0 : 0 <= d) by (unfold d; destruct m; simpl; lia).
  assert (Em : shr_m (shr_record_of_loc m l) = m) by (destruct l as [| [ | | ]]; reflexivity).
  destruct (shr (shr_record_of_loc m l) e k1) as [r1 e1] eqn:E1.
  assert (H1 : 0 <= shr_m r1 < 2 ^ 24 /\ -149 <= e1 /\
               e1 <= Z.max (Z.max e (d + e - 24)) (-149)).
  { destruct (Z.ltb_spec 0 k1) as [Hpos | Hneg].
    - pose proof (shr_m_shr (shr_record_of_loc m l) e k1) as P.
      rewrite E1, Em in P. cbn [fst snd] in P. destruct P as [Pm Pe]; try lia.
      assert (0 < 2 ^ k1) by (apply Z.pow_pos_nonneg; lia).
      split; [| lia]. rewrite Pm. split; [apply Z.div_pos; lia |].
      apply Z.div_lt_upper_bound; [lia |].
      assert (2 ^ d <= 2 ^ k1 * 2 ^ 24).
      { rewrite <- Z.pow_add_r by lia. apply Z.pow_le_mono_r; lia. }
      lia.
    - assert (E : (r1, e1) = (shr_record_of_loc m l, e))
        by (rewrite <- E1; destruct k1; try reflexivity; lia).
      injection E as -> ->. rewrite Em.
      assert (2 ^ d <= 2 ^ 24) by (apply Z.pow_le_mono_r; lia). lia. }
  destruct H1 as (B1 & Le1 & Ue1).
  pose proof (round_nearest_even_bounds (shr_m r1) (loc_of_shr_record r1)) as Br.
  set (mr := round_nearest_even (shr_m r1) (loc_of_shr_record r1)) in *.
  set (k2 := fexp 24 128 (Zdigits2 mr + e1) - e1).
  assert (Hk2 : k2 = Z.max (Zdigits2 mr - 24) (-149 - e1)) by (unfold k2, fexp, emin; lia).
  assert (Hdr : Zdigits2 mr <= 25) by (apply Zdigits2_bound; lia).
  destruct (shr (shr_record_of_loc mr loc_Exact) e1 k2) as [r2 e2] eqn:E2.
  assert (H2 : 0 <= shr_m r2 < 2 ^ 24 /\ e2 <= e1 + 1).
  { destruct (Z.ltb_spec 0 k2) as [Hpos | Hneg].
    - assert (Hone : k2 = 1) by lia.
      pose proof (shr_m_shr (shr_record_of_loc mr loc_Exact) e1 k2) as P.
      rewrite E2 in P. cbn [fst snd shr_record_of_loc shr_m] in P.
      destruct P as [Pm Pe]; try lia. rewrite Hone in Pm, Pe.
      change (2 ^ 1) with 2 in Pm. rewrite Pm. split; [| lia].
      split; [apply Z.div_pos; lia | apply Z.div_lt_upper_bound; lia].
    - assert (E : (r2, e2) = (shr_record_of_loc mr loc_Exact, e1))
        by (rewrite <- E2; destruct k2; try reflexivity; lia).
      injection E as -> ->. cbn [shr_record_of_loc shr_m].
      pose proof (Zdigits2_lt mr ltac:(lia)) as Hmr.
      assert (2 ^ Zdigits2 mr <= 2 ^ 24)
        by (apply Z.pow_le_mono_r; [lia | lia]).
      lia. }
  destruct H2 as (B2 & Ue2).
  destruct (shr_m r2) as [| p | p]; try lia; [now left |].
  right. change (128 - 24) with 104.
  destruct (Z.leb_spec e2 104); [| lia].
  exists p, e2. repeat split; lia.
Qed.

Lemma of_Z_32 (n : Z) :
  0 < n < 2 ^ 32 ->
  exists m e, F32.of_Z n = S754_finite false m e /\
              Zpos (digits2_pos m) = 24 /\ -23 <= e <= 9.
Proof.
  intros Hn. destruct n as [| p | p]; try lia.
  pose proof (digits2_pos_bounds p) as Bp.
  assert (Hdp : 1 <= Zpos (digits2_pos p) <= 32).
  { split; [lia |]. destruct (Z.leb_spec (Zpos (digits2_pos p)) 32); auto.
    assert (2 ^ 32 <= 2 ^ (Zpos (digits2_pos p) - 1)) by (apply Z.pow_le_mono_r; lia). lia. }
  destruct (of_Z_shape p) as [[_ Hinf] | (m & e & E & Hc & He & He' & Hcase)]; [lia |].
  exists m, e. split; [exact E |]. apply canonical24 in Hc.
  destruct Hcase as [(He0 & Hm & Hd) | (He0 & Hdm & Hd)]; [| lia].
  assert (Hdm : Zpos (digits2_pos m) = Zpos (digits2_pos p) + - e).
  { change (Zpos (digits2_pos m)) with (Zdigits2 (Zpos m)). rewrite Hm.
    apply Zdigits2_shift. lia. }
  lia.
Qed.

(** The scale factor of unsigned extents, the output one not zero, is a
    zero or a positive finite number. *)
Lemma scale_finite (inExtent outExtent : Z) :
  0 <= inExtent < 2 ^ 32 -> 1 <= outExtent < 2 ^ 32 ->
  let scale := F32.div (numeric_cast_float inExtent) (numeric_cast_float outExtent) in
  scale = S754_zero false \/
  exists m e, scale = S754_finite false m e /\ Zpos m < 2 ^ 24 /\ e <= 33.
Proof.
  intros Hi Ho. cbv zeta. unfold numeric_cast_float.
  destruct (of_Z_32 outExtent) as (m2 & e2 & -> & D2 & B2); [lia |].
  destruct (Z.eq_dec inExtent 0) as [-> | Hne]; [now left |].
  destruct (of_Z_32 inExtent) as (m1 & e1 & -> & D1 & B1); [lia |].
  unfold F32.div, SFdiv, SFdiv_core_binary. cbn [Zdigits2 xorb]. rewrite D1, D2.
  replace (Z.min (fexp 24 128 (24 + e1 - (24 + e2))) (e1 - e2)) with (e1 - e2 - 24)
    by (unfold fexp, emin; lia).
  replace (e1 - e2 - (e1 - e2 - 24)) with 24 by lia. cbv iota.
  rewrite Z.shiftl_mul_pow2 by lia.
  pose proof (digits2_pos_bounds m1) as Bm1. rewrite D1 in Bm1.
  assert (Hq : 0 <= Zpos m1 * 2 ^ 24 / Zpos m2 < 2 ^ 48).
  { split; [apply Z.div_pos; lia |]. apply Z.div_lt_upper_bound; [lia |]. nia. }
  unfold Z.div in Hq. destruct (Z.div_eucl (Zpos m1 * 2 ^ 24) (Zpos m2)) as [q r].
  cbn [fst] in Hq.
  pose proof (Zdigits2_bound q 48 Hq ltac:(lia)) as Dq.
  destruct (round32_bounded false q (e1 - e2 - 24) (new_location (Zpos m2) r))
    as [-> | (m & e & -> & Bm & Be)]; try lia; [now left |].
  right. exists m, e. repeat split; [exact Bm | lia].
Qed.

(** For unsigned extents, the output one not zero, every coordinate is a
    zero or a positive finite number. *)
Lemma project_finite (inExtent outExtent i : Z) :
  0 <= inExtent < 2 ^ 32 -> 1 <= outExtent < 2 ^ 32 -> 0 <= i < 2 ^ 32 ->
  project inExtent outExtent i = S754_zero false \/
  exists m e, project inExtent outExtent i = S754_finite false m e /\
              Zpos m < 2 ^ 24 /\ e <= 68.
Proof.
  intros Hi Ho Hj. unfold project.
  destruct (scale_finite inExtent outExtent Hi Ho) as [-> | (ms & es & -> & Bms & Bes)].
  - left. unfold numeric_cast_float.
    destruct (Z.eq_dec i 0) as [-> | Hne]; [reflexivity |].
    now destruct (of_Z_32 i) as (mi & ei & -> & _); [lia |].
  - unfold numeric_cast_float.
    destruct (Z.eq_dec i 0) as [-> | Hne]; [now left |].
    destruct (of_Z_32 i) as (mi & ei & -> & Di & Bi); [lia |].
    unfold F32.mul, SFmul. cbn [xorb].
    pose proof (digits2_pos_bounds mi) as Bmi. rewrite Di in Bmi.
    assert (Hprod : 0 <= Zpos (mi * ms) < 2 ^ 48) by nia.
    pose proof (Zdigits2_bound _ 48 Hprod ltac:(lia)) as Dp.
    destruct (round32_bounded false (Zpos (mi * ms)) (ei + es) loc_Exact)
      as [-> | (m & e & -> & Bm & Be)]; try lia; [now left |].
    right. exists m, e. repeat split; [exact Bm | lia].
Qed.

(** ** The top-left corner *)

Lemma texel0_origin (inExtent outExtent : Z) :
  0 <= inExtent < 2 ^ 32 -> 1 <= outExtent < 2 ^ 32 ->
  project inExtent outExtent 0 = S754_zero false /\
  texel0 inExtent outExtent 0 = Ok 0 /\
  weight inExtent outExtent 0 = S754_zero false.
Proof.
  intros Hi Ho.
  assert (Hp : project inExtent outExtent 0 = S754_zero false).
  { unfold project.
    now destruct (scale_finite inExtent outExtent Hi Ho) as [-> | (ms & es & -> & _)]. }
  unfold texel0, weight. rewrite Hp. repeat split.
Qed.

(** X4. Whatever the scale, the top-left corner of the output is
    projected on the top-left corner of the input with both weights zero:
    for every batch and channel of a call that returns, the nearest-neighbour
    policy writes the input element (n, c, 0, 0) at the output element
    (n, c, 0, 0), and the bilinear policy writes a copy of it when the four
    samples around it are finite. *)
Theorem origin_alignment
        (inp : Decoder) (l : DataLayout) (method : ResizeMethod)
        (N C Hin Win Hout Wout : Z) (k0 k : Kernel) (n c : Z) :
  0 <= Hin < 2 ^ 32 -> 0 <= Win < 2 ^ 32 -> Hout < 2 ^ 32 -> Wout < 2 ^ 32 ->
  out_log k0 = [] ->
  Resize inp (mkShape l N C Hin Win) (mkShape l N C Hout Wout) l method k0 = (Ok tt, k) ->
  in_space N C Hout Wout n c 0 0 ->
  let inputShape := mkShape l N C Hin Win in
  let s00 := element l inp inputShape n c 0 0 in
  let s01 := element l inp inputShape n c 0 (texel1 Win 0) in
  let s10 := element l inp inputShape n c (texel1 Hin 0) 0 in
  let s11 := element l inp inputShape n c (texel1 Hin 0) (texel1 Win 0) in
  texel0 Hin Hout 0 = Ok 0 /\ texel0 Win Wout 0 = Ok 0 /\
  weight Hin Hout 0 = S754_zero false /\ weight Win Wout 0 = S754_zero false /\
  (method <> Bilinear ->
   written (out_log k) (GetIndex l (mkShape l N C Hout Wout) n c 0 0) = Some s00) /\
  (method = Bilinear ->
   F32.valid s00 = true -> is_finite s00 = true -> is_finite s01 = true ->
   F32.valid s10 = true -> is_finite s10 = true -> is_finite s11 = true ->
   exists v,
     written (out_log k) (GetIndex l (mkShape l N C Hout Wout) n c 0 0) = Some v /\
     copy_of s00 v).
Proof.
  intros HHin HWin HHout HWout Hk0 Hrun Hsp. pose proof Hsp as (Rn & Rc & Ry & Rx).
  cbv zeta.
  destruct (texel0_origin Hin Hout) as (_ & Ey & Wy); try lia.
  destruct (texel0_origin Win Wout) as (_ & Ex & Wx); try lia.
  repeat (split; [assumption |]).
  destruct (Resize_log inp l method N C Hin Win Hout Wout k0 k Hk0 Hrun) as [_ Hw].
  destruct (Hw n c 0 0 Hsp) as (v & Hv & Hwr). split.
  - intros Hm.
    rewrite (value_at_unfold inp l method N C Hin Win Hout Wout n c 0 0 0 0 Ey Ex) in Hv.
    rewrite interpolate_nearest in Hv by (auto; lia).
    apply sample_ok in Hv. destruct Hv as [-> _]. exact Hwr.
  - intros -> V00 F00 F01 V10 F10 F11. exists v. split; [exact Hwr |].
    rewrite (value_at_bilinear inp l N C Hin Win Hout Wout n c 0 0 0 0 Ey Ex) in Hv.
    cbv zeta in Hv.
    apply obind_ok in Hv. destruct Hv as (i1 & H1 & Hv). apply sample_ok in H1.
    apply obind_ok in Hv. destruct Hv as (i2 & H2 & Hv). apply sample_ok in H2.
    apply obind_ok in Hv. destruct Hv as (i3 & H3 & Hv). apply sample_ok in H3.
    apply obind_ok in Hv. destruct Hv as (i4 & H4 & Hv). apply sample_ok in H4.
    destruct H1 as [-> _], H2 as [-> _], H3 as [-> _], H4 as [-> _].
    injection Hv as <-. rewrite Wy, Wx. now apply bilinear_weights_zero.
Qed.

(** X4 on the 4x4 ramp resized to 3x3. *)
Lemma origin_alignment_witness :
  texel0 4 3 0 = Ok 0 /\ texel0 4 3 0 = Ok 0 /\
  weight 4 3 0 = S754_zero false /\ weight 4 3 0 = S754_zero false /\
  (NearestNeighbor <> Bilinear ->
   written (out_log ramp_nearest) (GetIndex NCHW (mkShape NCHW 1 1 3 3) 0 0 0 0) =
     Some (element NCHW ramp (mkShape NCHW 1 1 4 4) 0 0 0 0)) /\
  (NearestNeighbor = Bilinear ->
   F32.valid (element NCHW ramp (mkShape NCHW 1 1 4 4) 0 0 0 0) = true ->
   is_finite (element NCHW ramp (mkShape NCHW 1 1 4 4) 0 0 0 0) = true ->
   is_finite (element NCHW ramp (mkShape NCHW 1 1 4 4) 0 0 0 (texel1 4 0)) = true ->
   F32.valid (element NCHW ramp (mkShape NCHW 1 1 4 4) 0 0 (texel1 4 0) 0) = true ->
   is_finite (element NCHW ramp (mkShape NCHW 1 1 4 4) 0 0 (texel1 4 0) 0) = true ->
   is_finite (element NCHW ramp (mkShape NCHW 1 1 4 4) 0 0 (texel1 4 0) (texel1 4 0)) = true ->
   exists v,
     written (out_log ramp_nearest) (GetIndex NCHW (mkShape NCHW 1 1 3 3) 0 0 0 0) = Some v /\
     copy_of (element NCHW ramp (mkShape NCHW 1 1 4 4) 0 0 0 0) v).
Proof.
  apply (origin_alignment ramp NCHW NearestNeighbor 1 1 4 4 3 3 start ramp_nearest 0 0);
    [lia | lia | lia | lia | reflexivity | vm_compute; reflexivity | in_unit_space].
Defined.

(** ** Coordinates are exact *)

(** Rounding to binary32 a number of at least 24 digits, in the range of
    the normal numbers, gives a normal number: the mantissa has 24 digits
    and the exponent follows the size of the number. *)
Lemma round32_normal (s : bool) (m e : Z) (l : location) :
  0 < m -> 24 <= Zdigits2 m ->
  -149 <= Zdigits2 m + e - 24 -> Zdigits2 m + e - 24 <= 103 ->
  exists m' e',
    binary_round_aux 24 128 s m e l = S754_finite s m' e' /\
    Zpos (digits2_pos m') = 24 /\
    Zdigits2 m + e - 24 <= e' <= Zdigits2 m + e - 23.
Proof.
  intros Hm Hd Hlo Hhi. unfold binary_round_aux, shr_fexp.
  set (d := Zdigits2 m) in *.
  set (k1 := fexp 24 128 (d + e) - e).
  assert (Hk1 : k1 = d - 24) by (unfold k1, fexp, emin; lia).
  assert (Bm : 2 ^ (d - 1) <= m < 2 ^ d).
  { unfold d. destruct m as [| p | p]; try lia. apply (digits2_pos_bounds p). }
  assert (Em : shr_m (shr_record_of_loc m l) = m) by (destruct l as [| [ | | ]]; reflexivity).
  destruct (shr (shr_record_of_loc m l) e k1) as [r1 e1] eqn:E1.
  assert (H1 : 2 ^ 23 <= shr_m r1 < 2 ^ 24 /\ e1 = d + e - 24).
  { pose proof (shr_m_shr (shr_record_of_loc m l) e k1) as P.
    rewrite E1, Em in P. cbn [fst snd] in P. destruct P as [Pm Pe]; try lia.
    split; [| lia]. rewrite Pm, Hk1.
    assert (0 < 2 ^ (d - 24)) by (apply Z.pow_pos_nonneg; lia).
    assert (E23 : 2 ^ (d - 1) = 2 ^ 23 * 2 ^ (d - 24))
      by (rewrite <- Z.pow_add_r by lia; f_equal; lia).
    assert (E24 : 2 ^ d = 2 ^ 24 * 2 ^ (d - 24))
      by (rewrite <- Z.pow_add_r by lia; f_equal; lia).
    split; [apply Z.div_le_lower_bound; lia | apply Z.div_lt_upper_bound; lia]. }
  destruct H1 as (B1 & Ee1).
  pose proof (round_nearest_even_bounds (shr_m r1) (loc_of_shr_record r1)) as Br.
  set (mr := round_nearest_even (shr_m r1) (loc_of_shr_record r1)) in *.
  set (k2 := fexp 24 128 (Zdigits2 mr + e1) - e1).
  destruct (shr (shr_record_of_loc mr loc_Exact) e1 k2) as [r2 e2] eqn:E2.
  assert (H2 : 2 ^ 23 <= shr_m r2 < 2 ^ 24 /\ e1 <= e2 <= e1 + 1).
  { destruct (Z.eq_dec mr (2 ^ 24)) as [Htop | Hlow].
    - assert (Hone : k2 = 1).
      { unfold k2. rewrite Htop. change (Zdigits2 (2 ^ 24)) with 25.
        unfold fexp, emin. lia. }
      pose proof (shr_m_shr (shr_record_of_loc mr loc_Exact) e1 k2) as P.
      rewrite E2 in P. cbn [fst snd shr_record_of_loc shr_m] in P.
      destruct P as [Pm Pe]; try lia. rewrite Hone in Pm, Pe.
      rewrite Pm, Htop. change (2 ^ 24 / 2 ^ 1) with (2 ^ 23). lia.
    - assert (Hdr : Zdigits2 mr = 24) by (apply Zdigits2_unique; lia).
      assert (Hzero : k2 = 0) by (unfold k2, fexp, emin; lia).
      rewrite Hzero in E2. cbn [shr] in E2. injection E2 as <- <-.
      cbn [shr_record_of_loc shr_m]. lia. }
  destruct H2 as (B2 & Be2).
  destruct (shr_m r2) as [| p | p] eqn:Ep; try lia.
  change (128 - 24) with 104.
  destruct (Z.leb_spec e2 104); [| lia].
  exists p, e2. split; [reflexivity |]. split; [| lia].
  apply digits2_pos_unique. lia.
Qed.

(** A normal binary32 number in the range of the kernel's coordinates. *)
Lemma normal_valid (m : positive) (e : Z) :
  Zpos (digits2_pos m) = 24 -> -149 <= e <= 104 ->
  F32.valid (S754_finite false m e) = true.
Proof.
  intros Hd He. unfold F32.valid, valid_binary, bounded.
  apply andb_true_iff. split; [apply canonical24; lia | apply Z.leb_le; lia].
Qed.

(** The conversion of a non-zero unsigned integer: a normal number whose
    exponent follows the number of digits of the integer. *)
Lemma of_Z_normal (n : Z) :
  0 < n < 2 ^ 32 ->
  exists m e, F32.of_Z n = S754_finite false m e /\
              Zpos (digits2_pos m) = 24 /\
              Zdigits2 n - 24 <= e <= Zdigits2 n - 23.
Proof.
  intros Hn. destruct n as [| p | p]; try lia. cbn [Zdigits2].
  pose proof (digits2_pos_bounds p) as Bp.
  assert (Hdp : 1 <= Zpos (digits2_pos p) <= 32).
  { split; [lia |]. destruct (Z.leb_spec (Zpos (digits2_pos p)) 32); auto.
    assert (2 ^ 32 <= 2 ^ (Zpos (digits2_pos p) - 1)) by (apply Z.pow_le_mono_r; lia). lia. }
  destruct (Z.leb_spec (Zpos (digits2_pos p)) 24) as [Hsmall | Hbig].
  - destruct (of_Z_shape p) as [[_ Hinf] | (m & e & E & Hc & He & He' & Hcase)]; [lia |].
    exists m, e. split; [exact E |]. apply canonical24 in Hc.
    destruct Hcase as [(He0 & Hm & Hd) | (He0 & Hdm & Hd)]; [| lia].
    assert (Hdm : Zpos (digits2_pos m) = Zpos (digits2_pos p) + - e).
    { change (Zpos (digits2_pos m)) with (Zdigits2 (Zpos m)). rewrite Hm.
      apply Zdigits2_shift. lia. }
    lia.
  - unfold F32.of_Z, binary_normalize, binary_round.
    replace (shl_align p 0 (fexp 24 128 (Zpos (digits2_pos p) + 0))) with (p, 0).
    + destruct (round32_normal false (Zpos p) 0 loc_Exact) as (m & e & E & Dm & Be);
        cbn [Zdigits2]; try lia.
      exists m, e. cbn [Zdigits2] in Be. repeat split; [exact E | exact Dm | lia | lia].
    + unfold shl_align, fexp, emin.
      destruct (Z.max (Zpos (digits2_pos p) + 0 - 24) (3 - 128 - 24) - 0) eqn:Ek;
        try reflexivity; lia.
Qed.

(** The scale factor of unsigned extents, neither of them zero, is a
    normal number. *)
Lemma scale_normal (inExtent outExtent : Z) :
  1 <= inExtent < 2 ^ 32 -> 1 <= outExtent < 2 ^ 32 ->
  exists m e,
    F32.div (numeric_cast_float inExtent) (numeric_cast_float outExtent)
      = S754_finite false m e /\
    Zpos (digits2_pos m) = 24 /\
    Zdigits2 inExtent - Zdigits2 outExtent - 25 <= e <=
    Zdigits2 inExtent - Zdigits2 outExtent - 21.
Proof.
  intros Hi Ho. unfold numeric_cast_float.
  destruct (of_Z_normal outExtent) as (m2 & e2 & -> & D2 & B2); [lia |].
  destruct (of_Z_normal inExtent) as (m1 & e1 & -> & D1 & B1); [lia |].
  assert (Hdi : 1 <= Zdigits2 inExtent <= 32).
  { split; [destruct inExtent; cbn [Zdigits2]; lia | apply Zdigits2_bound; lia]. }
  assert (Hdo : 1 <= Zdigits2 outExtent <= 32).
  { split; [destruct outExtent; cbn [Zdigits2]; lia | apply Zdigits2_bound; lia]. }
  unfold F32.div, SFdiv, SFdiv_core_binary. cbn [Zdigits2 xorb]. rewrite D1, D2.
  replace (Z.min (fexp 24 128 (24 + e1 - (24 + e2))) (e1 - e2)) with (e1 - e2 - 24)
    by (unfold fexp, emin; lia).
  replace (e1 - e2 - (e1 - e2 - 24)) with 24 by lia. cbv iota.
  rewrite Z.shiftl_mul_pow2 by lia.
  pose proof (digits2_pos_bounds m1) as Bm1. rewrite D1 in Bm1.
  pose proof (digits2_pos_bounds m2) as Bm2. rewrite D2 in Bm2.
  assert (Hq : 2 ^ 23 <= Zpos m1 * 2 ^ 24 / Zpos m2 < 2 ^ 25).
  { split; [apply Z.div_le_lower_bound; [lia | nia] |].
    apply Z.div_lt_upper_bound; [lia |]. nia. }
  unfold Z.div in Hq. destruct (Z.div_eucl (Zpos m1 * 2 ^ 24) (Zpos m2)) as [q r].
  cbn [fst] in Hq.
  assert (Dq : 24 <= Zdigits2 q <= 25).
  { split; [| apply Zdigits2_bound; lia].
    destruct (Z.eq_dec (Zdigits2 q) 25) as [-> | Hne]; [lia |].
    pose proof (Zdigits2_lt q ltac:(lia)) as Hlt.
    destruct (Z.leb_spec 24 (Zdigits2 q)); [assumption |].
    assert (2 ^ Zdigits2 q <= 2 ^ 23).
    { apply Z.pow_le_mono_r; [lia |]. lia. }
    lia. }
  destruct (round32_normal false q (e1 - e2 - 24) (new_location (Zpos m2) r))
    as (m & e & -> & Dm & Be); try lia.
  exists m, e. repeat split; [exact Dm | lia | lia].
Qed.

(** For unsigned extents, the output one not zero, every coordinate is a
    zero or a normal number. *)
Lemma project_normal (inExtent outExtent i : Z) :
  0 <= inExtent < 2 ^ 32 -> 1 <= outExtent < 2 ^ 32 -> 0 <= i < 2 ^ 32 ->
  project inExtent outExtent i = S754_zero false \/
  exists m e, project inExtent outExtent i = S754_finite false m e /\
              Zpos (digits2_pos m) = 24 /\
              -149 <= e /\
              e <= Zdigits2 i + Zdigits2 inExtent - Zdigits2 outExtent - 19.
Proof.
  intros Hi Ho Hj.
  destruct (Z.eq_dec inExtent 0) as [-> | Hin].
  { left. unfold project, numeric_cast_float.
    destruct (of_Z_32 outExtent) as (m2 & e2 & -> & _); [lia |].
    destruct (Z.eq_dec i 0) as [-> | Hne]; [reflexivity |].
    now destruct (of_Z_32 i) as (mi & ei & -> & _); [lia |]. }
  destruct (Z.eq_dec i 0) as [-> | Hne].
  { left. now destruct (texel0_origin inExtent outExtent Hi Ho) as [-> _]. }
  right. unfold project.
  destruct (scale_normal inExtent outExtent) as (ms & es & -> & Ds & Bs); try lia.
  unfold numeric_cast_float.
  destruct (of_Z_normal i) as (mi & ei & -> & Di & Bi); [lia |].
  assert (Hdi : 1 <= Zdigits2 inExtent <= 32).
  { split; [destruct inExtent; cbn [Zdigits2]; lia | apply Zdigits2_bound; lia]. }
  assert (Hdo : 1 <= Zdigits2 outExtent <= 32).
  { split; [destruct outExtent; cbn [Zdigits2]; lia | apply Zdigits2_bound; lia]. }
  assert (Hdj : 1 <= Zdigits2 i <= 32).
  { split; [destruct i; cbn [Zdigits2]; lia | apply Zdigits2_bound; lia]. }
  unfold F32.mul, SFmul. cbn [xorb].
  pose proof (digits2_pos_bounds mi) as Bmi. rewrite Di in Bmi.
  pose proof (digits2_pos_bounds ms) as Bms. rewrite Ds in Bms.
  assert (Hprod : 2 ^ 46 <= Zpos (mi * ms) < 2 ^ 48) by nia.
  assert (Dp : 47 <= Zdigits2 (Zpos (mi * ms)) <= 48).
  { split; [| apply Zdigits2_bound; lia].
    pose proof (Zdigits2_lt (Zpos (mi * ms)) ltac:(lia)) as Hlt.
    destruct (Z.leb_spec 47 (Zdigits2 (Zpos (mi * ms)))); [assumption |].
    assert (2 ^ Zdigits2 (Zpos (mi * ms)) <= 2 ^ 46).
    { apply Z.pow_le_mono_r; [lia |]. lia. }
    lia. }
  destruct (round32_normal false (Zpos (mi * ms)) (ei + es) loc_Exact)
    as (m & e & -> & Dm & Be); try lia.
  exists m, e. repeat split; [exact Dm | lia | lia].
Qed.

(** A number that is representable is its own rounding. *)
Lemma normalize_exact (D M : positive) (ef E : Z) :
  canonical_mantissa 24 128 M E = true -> E <= 104 ->
  (E <= ef /\ Zpos M = Zpos D * 2 ^ (ef - E)) \/
  (ef <= E /\ Zpos D = Zpos M * 2 ^ (E - ef)) ->
  binary_normalize 24 128 (Zpos D) ef false = S754_finite false M E.
Proof.
  intros Hc HE Hcase. unfold binary_normalize, binary_round.
  pose proof Hc as Hc'. unfold canonical_mantissa in Hc'. apply Z.eqb_eq in Hc'.
  assert (Hd : Zpos (digits2_pos D) + ef = Zpos (digits2_pos M) + E).
  { destruct Hcase as [[Hle HM] | [Hle HD]].
    - change (Zpos (digits2_pos M)) with (Zdigits2 (Zpos M)).
      rewrite HM, Zdigits2_shift by lia. lia.
    - change (Zpos (digits2_pos D)) with (Zdigits2 (Zpos D)).
      rewrite HD, Zdigits2_shift by lia. lia. }
  rewrite Hd, Hc'. unfold shl_align.
  destruct Hcase as [[Hle HM] | [Hle HD]].
  - destruct (E - ef) as [| d | d] eqn:Ed; try lia.
    + assert (E = ef) as -> by lia. rewrite Z.sub_diag, Z.pow_0_r, Z.mul_1_r in HM.
      injection HM as ->. rewrite binary_round_aux_canonical by assumption.
      change (128 - 24) with 104. destruct (Z.leb_spec ef 104); [reflexivity | lia].
    + assert (Pos.iter xO D d = M) as ->.
      { apply Pos2Z.inj. rewrite Pos_iter_xO, HM. f_equal. f_equal. lia. }
      rewrite binary_round_aux_canonical by assumption.
      change (128 - 24) with 104. destruct (Z.leb_spec E 104); [reflexivity | lia].
  - replace (match E - ef with Z.neg d => (Pos.iter xO D d, E) | _ => (D, ef) end)
      with (D, ef) by (destruct (E - ef) eqn:Ed; try reflexivity; lia).
    rewrite HD, binary_round_aux_exact
      by (try lia; replace (ef + (E - ef)) with E by lia; assumption).
    replace (ef + (E - ef)) with E by lia.
    change (128 - 24) with 104. destruct (Z.leb_spec E 104); [reflexivity | lia].
Qed.

(** The integer part of a normal number with a fraction. *)
Lemma floorf_fraction (m : positive) (e : Z) :
  Zpos (digits2_pos m) = 24 -> -24 < e < 0 ->
  exists mf : positive,
    floorf (S754_finite false m e) = S754_finite false mf e /\
    Zpos mf = floorZ (S754_finite false m e) * 2 ^ (- e) /\
    Zpos m - Zpos mf = Zpos m mod 2 ^ (- e).
Proof.
  intros Hd He. unfold floorf, floorZ. cbn [cond_Zopp].
  rewrite Z.shiftl_div_pow2 by lia.
  pose proof (digits2_pos_bounds m) as Bm. rewrite Hd in Bm.
  assert (Hk : 0 < 2 ^ (- e)) by (apply Z.pow_pos_nonneg; lia).
  assert (E23 : 2 ^ (24 - 1) = 2 ^ (23 + e) * 2 ^ (- e))
    by (rewrite <- Z.pow_add_r by lia; f_equal; lia).
  assert (E24 : 2 ^ 24 = 2 ^ (24 + e) * 2 ^ (- e))
    by (rewrite <- Z.pow_add_r by lia; f_equal; lia).
  assert (Bn : 2 ^ (23 + e) <= Zpos m / 2 ^ (- e) < 2 ^ (24 + e)).
  { split; [apply Z.div_le_lower_bound; lia | apply Z.div_lt_upper_bound; lia]. }
  assert (0 < 2 ^ (23 + e)) by (apply Z.pow_pos_nonneg; lia).
  pose proof (Z.div_mod (Zpos m) (2 ^ (- e)) ltac:(lia)) as Hdm.
  destruct (Zpos m / 2 ^ (- e)) as [| n | n] eqn:En; try lia.
  destruct (Zpos n * 2 ^ (- e)) as [| mf | mf] eqn:Emf; try lia.
  exists mf. split; [| split; lia].
  change (binary_normalize 24 128 (Zpos n) 0 false) with (F32.of_Z (Zpos n)).
  apply of_Z_canonical_down; [| lia | lia].
  apply canonical24. left. split; [| lia].
  apply digits2_pos_unique. rewrite <- Emf. split; nia.
Qed.

Lemma shl_align_value (m : positive) (e e' : Z) :
  e' <= e -> Zpos (fst (shl_align m e e')) = Zpos m * 2 ^ (e - e').
Proof.
  intros Hle. unfold shl_align.
  destruct (e' - e) as [| d | d] eqn:Ed; try lia; cbn [fst].
  - replace (e - e') with 0 by lia. lia.
  - rewrite Pos_iter_xO. f_equal. f_equal. lia.
Qed.

(** The weight of a normal coordinate is its fraction, without rounding:
    a zero, or a number strictly between zero and one, that added to the
    floor gives the coordinate back. *)
Lemma weight_fraction (m : positive) (e : Z) :
  Zpos (digits2_pos m) = 24 -> -149 <= e <= 104 ->
  let x := S754_finite false m e in
  let w := F32.sub x (floorf x) in
  F32.add (floorf x) w = x /\
  (w = S754_zero false \/
   exists mw ew,
     w = S754_finite false mw ew /\
     canonical_mantissa 24 128 mw ew = true /\ ew <= -24).
Proof.
  intros Hd He. cbv zeta.
  pose proof (digits2_pos_bounds m) as Bm. rewrite Hd in Bm.
  assert (Hcx : canonical_mantissa 24 128 m e = true) by (apply canonical24; lia).
  destruct (Z.leb_spec 0 e) as [Hpos | Hneg].
  { destruct (floorf_exact (S754_finite false m e)) as [_ Hup]; try reflexivity.
    - apply normal_valid; [assumption | lia].
    - right. right. now exists m, e.
    - rewrite (Hup m e eq_refl Hpos), sub_self by reflexivity.
      split; [reflexivity | now left]. }
  destruct (Z.leb_spec e (-24)) as [Hfar | Hnear].
  { assert (Hfl : floorZ (S754_finite false m e) = 0).
    { unfold floorZ. cbn [cond_Zopp]. rewrite Z.shiftl_div_pow2 by lia.
      apply Z.div_small.
      assert (2 ^ 24 <= 2 ^ (- e)) by (apply Z.pow_le_mono_r; lia). lia. }
    unfold floorf. rewrite Hfl. cbn [binary_normalize].
    split; [reflexivity |]. right. exists m, e. now repeat split. }
  destruct (floorf_fraction m e Hd ltac:(lia)) as (mf & -> & Hmf & Hr).
  assert (Hsub : F32.sub (S754_finite false m e) (S754_finite false mf e)
                 = binary_normalize 24 128 (Zpos m - Zpos mf) e false).
  { unfold F32.sub, SFsub. cbv zeta. rewrite Z.min_id. unfold shl_align.
    rewrite Z.sub_diag. reflexivity. }
  rewrite Hsub.
  assert (Hk : 0 < 2 ^ (- e)) by (apply Z.pow_pos_nonneg; lia).
  pose proof (Z.mod_pos_bound (Zpos m) (2 ^ (- e)) Hk) as Br.
  destruct (Zpos m - Zpos mf) as [| r | r] eqn:Er; try lia.
  { cbn [binary_normalize]. assert (mf = m) as -> by lia.
    split; [reflexivity | now left]. }
  pose proof (digits2_pos_bounds r) as Dr.
  set (dr := Zpos (digits2_pos r)) in *.
  assert (Hdr : 1 <= dr <= - e).
  { split; [lia |]. destruct (Z.leb_spec dr (- e)); [assumption |].
    assert (2 ^ (- e) <= 2 ^ (dr - 1)) by (apply Z.pow_le_mono_r; lia). lia. }
  assert (Hpw : 0 < 2 ^ (24 - dr)) by (apply Z.pow_pos_nonneg; lia).
  destruct (Zpos r * 2 ^ (24 - dr)) as [| mw | mw] eqn:Emw; try lia.
  assert (Hc : canonical_mantissa 24 128 mw (dr + e - 24) = true).
  { apply canonical24. left. split; [| lia].
    change (Zpos (digits2_pos mw)) with (Zdigits2 (Zpos mw)).
    rewrite <- Emw, Zdigits2_shift by lia. fold dr. lia. }
  assert (Hw : binary_normalize 24 128 (Zpos r) e false = S754_finite false mw (dr + e - 24)).
  { apply normalize_exact; [exact Hc | lia |]. left. split; [lia |].
    rewrite <- Emw. f_equal. f_equal. lia. }
  rewrite Hw. split; [| right; exists mw, (dr + e - 24); repeat split; [exact Hc | lia]].
  unfold F32.add, SFadd. cbv zeta.
  rewrite Z.min_r by lia. cbn [cond_Zopp].
  rewrite !shl_align_value by lia. rewrite Z.sub_diag, Z.pow_0_r, Z.mul_1_r.
  replace (e - (dr + e - 24)) with (24 - dr) by lia.
  assert (Hsum : Zpos mf * 2 ^ (24 - dr) + Zpos mw = Zpos m * 2 ^ (24 - dr)) by nia.
  rewrite Hsum.
  destruct (Zpos m * 2 ^ (24 - dr)) as [| D | D] eqn:ED; try lia.
  apply normalize_exact; [exact Hcx | lia |]. right. split; [lia |].
  rewrite <- ED. f_equal. f_equal. lia.
Qed.

(** The floor of a normal coordinate converts to the integer [floorZ],
    unless that integer has more than 32 bits. *)
Lemma floor_cast_exact (m : positive) (e : Z) :
  Zpos (digits2_pos m) = 24 -> -149 <= e <= 104 ->
  let x := S754_finite false m e in
  0 <= floorZ x /\
  numeric_cast_uint (floorf x) =
    if 2 ^ 32 <=? floorZ x then Fail BadNumericCast else Ok (floorZ x).
Proof.
  intros Hd He. cbv zeta.
  pose proof (digits2_pos_bounds m) as Bm. rewrite Hd in Bm.
  assert (H0 : 0 <= floorZ (S754_finite false m e)).
  { unfold floorZ. cbn [cond_Zopp]. apply Z.shiftl_nonneg. lia. }
  split; [exact H0 |].
  destruct (Z.leb_spec 0 e) as [Hpos | Hneg].
  - destruct (floorf_exact (S754_finite false m e)) as [_ Hup]; try reflexivity.
    + apply normal_valid; [assumption | lia].
    + right. right. now exists m, e.
    + rewrite (Hup m e eq_refl Hpos).
      unfold numeric_cast_uint, truncZ. unfold floorZ in *. cbn [cond_Zopp] in *.
      destruct (Z.leb_spec (Z.shiftl (Zpos m) e) (-1)); [lia | reflexivity].
  - assert (Hn : floorZ (S754_finite false m e) <= 2 ^ 24).
    { unfold floorZ. cbn [cond_Zopp]. rewrite Z.shiftl_div_pow2 by lia.
      assert (0 < 2 ^ (- e)) by (apply Z.pow_pos_nonneg; lia).
      apply Z.lt_le_incl, Z.div_lt_upper_bound; nia. }
    unfold floorf. change (binary_normalize 24 128 ?n 0 false) with (F32.of_Z n).
    destruct (cast_of_Z_small (floorZ (S754_finite false m e))) as [-> _]; [lia |].
    destruct (Z.leb_spec (2 ^ 32) (floorZ (S754_finite false m e))); [lia | reflexivity].
Qed.

Lemma Zdigits2_unsigned (n : Z) : 0 <= n < 2 ^ 32 -> 0 <= Zdigits2 n <= 32.
Proof.
  intros Hn. split; [destruct n; cbn [Zdigits2]; lia | apply Zdigits2_bound; lia].
Qed.

Lemma Zdigits2_mono (i n : Z) : 0 <= i < n -> Zdigits2 i <= Zdigits2 n.
Proof.
  intros Hi. pose proof (Zdigits2_lt n ltac:(lia)) as Hlt.
  apply Zdigits2_bound; [lia |]. destruct n; cbn [Zdigits2]; lia.
Qed.

Lemma floorZ_below (m : positive) (e : Z) :
  Zpos (digits2_pos m) = 24 -> e <= 8 -> floorZ (S754_finite false m e) < 2 ^ 32.
Proof.
  intros Dm He. pose proof (digits2_pos_bounds m) as Bm. rewrite Dm in Bm.
  unfold floorZ. cbn [cond_Zopp].
  destruct (Z.leb_spec 0 e) as [Hpos | Hneg].
  - rewrite Z.shiftl_mul_pow2 by assumption.
    assert (2 ^ e <= 2 ^ 8) by (apply Z.pow_le_mono_r; lia).
    assert (0 < 2 ^ e) by (apply Z.pow_pos_nonneg; lia). nia.
  - rewrite Z.shiftl_div_pow2 by lia.
    assert (0 < 2 ^ (- e)) by (apply Z.pow_pos_nonneg; lia).
    apply Z.div_lt_upper_bound; nia.
Qed.

(** The exponent of a coordinate inside the output, for an input extent
    below [2^27]. *)
Lemma project_exponent (inExtent outExtent i e : Z) :
  0 <= inExtent < 2 ^ 27 -> 0 <= i < outExtent ->
  e <= Zdigits2 i + Zdigits2 inExtent - Zdigits2 outExtent - 19 -> e <= 8.
Proof.
  intros Hi Hj He.
  pose proof (Zdigits2_mono i outExtent Hj) as Hmono.
  assert (Zdigits2 inExtent <= 27) by (apply Zdigits2_bound; lia). lia.
Qed.

(** With an input extent below [2^27] the cast of a floored coordinate
    is never refused. *)
Lemma texel0_small_input (inExtent outExtent i : Z) :
  0 <= inExtent < 2 ^ 27 -> outExtent < 2 ^ 32 -> 0 <= i < outExtent ->
  exists t, texel0 inExtent outExtent i = Ok t.
Proof.
  intros Hi Ho Hj. unfold texel0.
  pose proof (Zdigits2_unsigned inExtent ltac:(lia)) as Di.
  pose proof (Zdigits2_unsigned outExtent ltac:(lia)) as Do.
  pose proof (Zdigits2_unsigned i ltac:(lia)) as Dj.
  destruct (project_normal inExtent outExtent i) as [-> | (m & e & -> & Dm & Lo & Up)];
    try lia; [now exists 0 |].
  destruct (floor_cast_exact m e Dm ltac:(lia)) as [H0 ->].
  pose proof (floorZ_below m e Dm (project_exponent inExtent outExtent i e Hi Hj Up)).
  destruct (Z.leb_spec (2 ^ 32) (floorZ (S754_finite false m e))); [lia | eauto].
Qed.

(** X6. The coordinate computed for an output row or column is never a
    NaN, an infinity or a negative number: for unsigned extents, the output
    one not zero, it is a valid finite number with the positive sign.
    [floorf] and [numeric_cast] lose nothing on it: the top-left texel is
    the integer part of the coordinate, the cast is refused exactly when
    that integer does not fit in 32 bits, and that cannot happen for an
    input extent below [2^27]. *)
Theorem floor_of_coordinate (inExtent outExtent i : Z) :
  0 <= inExtent < 2 ^ 32 -> 1 <= outExtent < 2 ^ 32 -> 0 <= i < 2 ^ 32 ->
  let p := project inExtent outExtent i in
  F32.valid p = true /\ is_finite p = true /\ signed_as false p /\
  0 <= floorZ p /\
  texel0 inExtent outExtent i =
    (if 2 ^ 32 <=? floorZ p then Fail BadNumericCast else Ok (floorZ p)) /\
  (i < outExtent -> inExtent < 2 ^ 27 -> floorZ p < 2 ^ 32).
Proof.
  intros Hi Ho Hj. cbv zeta. unfold texel0.
  pose proof (Zdigits2_unsigned inExtent Hi) as Di.
  pose proof (Zdigits2_unsigned outExtent ltac:(lia)) as Do.
  pose proof (Zdigits2_unsigned i Hj) as Dj.
  destruct (project_normal inExtent outExtent i Hi Ho Hj) as [-> | (m & e & -> & Dm & Lo & Up)].
  - split; [reflexivity |]. split; [reflexivity |]. split; [now left |].
    cbn [floorZ]. split; [lia |]. split; [reflexivity |]. intros _ _. lia.
  - destruct (floor_cast_exact m e Dm ltac:(lia)) as [H0 Hc].
    split; [apply normal_valid; [assumption | lia] |].
    split; [reflexivity |]. split; [right; right; now exists m, e |].
    split; [exact H0 |]. split; [exact Hc |].
    intros Hlt Hsmall. apply floorZ_below; [exact Dm |].
    apply (project_exponent inExtent outExtent i); [lia | lia | exact Up].
Qed.

(** X6 on the third row of three projected on four. *)
Lemma floor_of_coordinate_witness :
  F32.valid (project 4 3 2) = true /\ is_finite (project 4 3 2) = true /\
  signed_as false (project 4 3 2) /\
  0 <= floorZ (project 4 3 2) /\
  texel0 4 3 2 =
    (if 2 ^ 32 <=? floorZ (project 4 3 2) then Fail BadNumericCast
     else Ok (floorZ (project 4 3 2))) /\
  (2 < 3 -> 4 < 2 ^ 27 -> floorZ (project 4 3 2) < 2 ^ 32).
Proof.
  apply (floor_of_coordinate 4 3 2); lia.
Defined.

(** X7. The interpolation weight is the fraction of the coordinate, and
    the subtraction that computes it does not round: for unsigned extents,
    the output one not zero, the weight is a valid number, at least zero
    and strictly below one, and added to the floor of the coordinate it
    gives the coordinate back. *)
Theorem weight_is_fraction (inExtent outExtent i : Z) :
  0 <= inExtent < 2 ^ 32 -> 1 <= outExtent < 2 ^ 32 -> 0 <= i < 2 ^ 32 ->
  let p := project inExtent outExtent i in
  let w := weight inExtent outExtent i in
  F32.valid w = true /\
  SFleb (S754_zero false) w = true /\ SFltb w F32.one = true /\
  F32.add (floorf p) w = p.
Proof.
  intros Hi Ho Hj. cbv zeta. unfold weight.
  pose proof (Zdigits2_unsigned inExtent Hi) as Di.
  pose proof (Zdigits2_unsigned outExtent ltac:(lia)) as Do.
  pose proof (Zdigits2_unsigned i Hj) as Dj.
  destruct (project_normal inExtent outExtent i Hi Ho Hj) as [-> | (m & e & -> & Dm & Lo & Up)].
  - repeat split.
  - destruct (weight_fraction m e Dm ltac:(lia)) as [Hadd [Hw | (mw & ew & Hw & Hc & Hew)]];
      cbv zeta in Hadd, Hw; rewrite Hw in Hadd |- *.
    + split; [reflexivity |]. split; [reflexivity |]. split; [reflexivity | exact Hadd].
    + split; [| split; [reflexivity | split; [| exact Hadd]]].
      * unfold F32.valid, valid_binary, bounded. rewrite Hc. apply Z.leb_le. lia.
      * unfold SFltb, SFcompare, F32.one.
        destruct (Z.compare_spec ew (-23)); [lia | reflexivity | lia].
Qed.

(** X7 on the third row of three projected on four. *)
Lemma weight_is_fraction_witness :
  F32.valid (weight 4 3 2) = true /\
  SFleb (S754_zero false) (weight 4 3 2) = true /\ SFltb (weight 4 3 2) F32.one = true /\
  F32.add (floorf (project 4 3 2)) (weight 4 3 2) = project 4 3 2.
Proof.
  apply (weight_is_fraction 4 3 2); lia.
Defined.

(** ** The only failure is a read outside the input *)

Lemma sweep_fail {W} (count : nat) (i : Z) (f : Z -> list W * Outcome unit) (e : Error) :
  snd (sweep count i f) = Fail e ->
  exists j, i <= j < i + Z.of_nat count /\ snd (f j) = Fail e.
Proof.
  revert i. induction count as [| count IH]; intros i; cbn [sweep]; [discriminate |].
  destruct (f i) as [w [[] | e']] eqn:Ef.
  - destruct (sweep count (i + 1) f) as [ws r] eqn:Es. cbn [snd]. intros ->.
    destruct (IH (i + 1)) as (j & Hj & Hf); [now rewrite Es |].
    exists j. split; [lia | exact Hf].
  - cbn [snd]. intros [= ->]. exists i. split; [lia | now rewrite Ef].
Qed.

Lemma sweep_loop_fail {W} (bound : Z) (f : Z -> list W * Outcome unit) (e : Error) :
  snd (sweep_loop bound f) = Fail e ->
  exists j, 0 <= j < bound /\ snd (f j) = Fail e.
Proof.
  intros H. apply sweep_fail in H. destruct H as (j & Hj & Hf).
  exists j. split; [lia | exact Hf].
Qed.

Lemma interpolate_fail (inp : Decoder) (l : DataLayout) (inputShape : TensorShape)
      (method : ResizeMethod) (n c : Z) (iy ix : spec_float) (y0 x0 : Z) (e : Error) :
  interpolate inp l inputShape method n c iy ix y0 x0 = Fail e -> e = OutOfBounds.
Proof.
  assert (Hread : forall y x v, sample inp l inputShape n c y x = Fail v -> v = OutOfBounds).
  { intros y x v. unfold sample, read.
    destruct ((0 <=? _) && (_ <? _)); [discriminate | now intros [= <-]]. }
  unfold interpolate. cbv zeta.
  destruct method;
    try (apply Hread);
    repeat match goal with
           | |- obind ?s _ = Fail _ -> _ =>
               let E := fresh "E" in
               destruct s as [? | ?] eqn:E; cbn [obind];
               [| intros [= <-]; now apply Hread in E]
           end;
    discriminate.
Qed.

(** X8. With input extents below [2^27] no cast of the kernel is ever
    refused: whatever the buffer, the layout, the method and the output
    extents, a call either returns or stops at a read outside the input
    buffer. *)
Theorem only_reads_fail
        (inp : Decoder) (l : DataLayout) (method : ResizeMethod)
        (N C Hin Win Hout Wout : Z) (k : Kernel) :
  0 <= Hin < 2 ^ 27 -> 0 <= Win < 2 ^ 27 -> Hout < 2 ^ 32 -> Wout < 2 ^ 32 ->
  fst (Resize inp (mkShape l N C Hin Win) (mkShape l N C Hout Wout) l method k) = Ok tt \/
  fst (Resize inp (mkShape l N C Hin Win) (mkShape l N C Hout Wout) l method k)
    = Fail OutOfBounds.
Proof.
  intros HHin HWin HHout HWout.
  destruct (Resize_yields inp (mkShape l N C Hin Win) (mkShape l N C Hout Wout) l method k)
    as (k' & -> & _). cbn [fst].
  destruct (snd (ResizeSweep inp (mkShape l N C Hin Win) (mkShape l N C Hout Wout) l method))
    as [[] | e] eqn:Es; [now left | right].
  unfold ResizeSweep in Es.
  destruct (dim_mkShape l N C Hin Win) as (EN & EC & EH & EW).
  destruct (dim_mkShape l N C Hout Wout) as (_ & _ & EHo & EWo).
  rewrite EN, EC, EH, EHo, EWo in Es.
  apply sweep_loop_fail in Es. destruct Es as (n & Rn & Es).
  apply sweep_loop_fail in Es. destruct Es as (c & Rc & Es).
  apply sweep_loop_fail in Es. destruct Es as (y & Ry & Es).
  destruct (texel0_small_input Hin Hout y) as (y0 & Ey); try lia.
  rewrite Ey in Es. cbn [guard] in Es.
  apply sweep_loop_fail in Es. destruct Es as (x & Rx & Es).
  destruct (texel0_small_input Win Wout x) as (x0 & Ex); try lia.
  rewrite (value_at_unfold inp l method N C Hin Win Hout Wout n c y x y0 x0 Ey Ex) in Es.
  destruct (interpolate _ _ _ _ _ _ _ _ _ _) as [v | e'] eqn:Ei; cbn [element_sweep snd] in Es;
    [discriminate |].
  injection Es as <-. apply interpolate_fail in Ei. now subst.
Qed.

(** X8 on a 2x2 input whose buffer holds one element only. *)
Lemma only_reads_fail_witness :
  fst (Resize single (mkShape NCHW 1 1 2 2) (mkShape NCHW 1 1 3 3) NCHW Bilinear start) = Ok tt \/
  fst (Resize single (mkShape NCHW 1 1 2 2) (mkShape NCHW 1 1 3 3) NCHW Bilinear start)
    = Fail OutOfBounds.
Proof.
  apply (only_reads_fail single NCHW Bilinear 1 1 2 2 3 3 start); lia.
Defined.

(** ** NaN samples *)

Lemma mul_nan_r (x : spec_float) : F32.mul x S754_nan = S754_nan.
Proof. now destruct x. Qed.

Lemma add_nan_l (x : spec_float) : F32.add S754_nan x = S754_nan.
Proof. reflexivity. Qed.

Lemma add_nan_r (x : spec_float) : F32.add x S754_nan = S754_nan.
Proof. now destruct x. Qed.

(** [Lerp] of a NaN endpoint is a NaN, whatever the weight, zero
    included. *)
Lemma Lerp_nan (a b w : spec_float) :
  is_nan a = true \/ is_nan b = true -> Lerp a b w = S754_nan.
Proof.
  unfold Lerp. intros [Ha | Hb].
  - destruct a; try discriminate. now rewrite mul_nan_r, add_nan_r.
  - destruct b; try discriminate. now rewrite mul_nan_r, add_nan_l.
Qed.

(** X10. A NaN among the four samples around the projected coordinate
    makes the bilinear output a NaN, whatever the weights: also a sample
    of weight zero, such as the right and lower neighbours at the identity
    scale, poisons the element. *)
Theorem nan_sample_poisons
        (inp : Decoder) (l : DataLayout) (N C Hin Win Hout Wout : Z)
        (k0 k : Kernel) (n c y x y0 x0 : Z) :
  out_log k0 = [] ->
  Resize inp (mkShape l N C Hin Win) (mkShape l N C Hout Wout) l Bilinear k0 = (Ok tt, k) ->
  in_space N C Hout Wout n c y x ->
  texel0 Hin Hout y = Ok y0 -> texel0 Win Wout x = Ok x0 ->
  let inputShape := mkShape l N C Hin Win in
  let y1 := texel1 Hin y0 in
  let x1 := texel1 Win x0 in
  is_nan (element l inp inputShape n c y0 x0) = true \/
  is_nan (element l inp inputShape n c y0 x1) = true \/
  is_nan (element l inp inputShape n c y1 x0) = true \/
  is_nan (element l inp inputShape n c y1 x1) = true ->
  written (out_log k) (GetIndex l (mkShape l N C Hout Wout) n c y x) = Some S754_nan.
Proof.
  intros Hk0 Hrun Hsp Ey Ex. cbv zeta. intros Hnan.
  destruct (Resize_log inp l Bilinear N C Hin Win Hout Wout k0 k Hk0 Hrun) as [_ Hw].
  destruct (Hw n c y x Hsp) as (v & Hv & ->). f_equal.
  rewrite (value_at_bilinear inp l N C Hin Win Hout Wout n c y x y0 x0 Ey Ex) in Hv.
  cbv zeta in Hv.
  apply obind_ok in Hv. destruct Hv as (i1 & H1 & Hv). apply sample_ok in H1.
  apply obind_ok in Hv. destruct Hv as (i2 & H2 & Hv). apply sample_ok in H2.
  apply obind_ok in Hv. destruct Hv as (i3 & H3 & Hv). apply sample_ok in H3.
  apply obind_ok in Hv. destruct Hv as (i4 & H4 & Hv). apply sample_ok in H4.
  destruct H1 as [-> _], H2 as [-> _], H3 as [-> _], H4 as [-> _].
  injection Hv as <-.
  apply Lerp_nan.
  destruct Hnan as [H | [H | [H | H]]];
    [left | left | right | right]; rewrite Lerp_nan; auto.
Qed.

(** X10 on a 2x2 image resized to 2x2: the NaN at (1, 1) reaches the
    output element (0, 0), whose weights are zero. *)
Lemma nan_sample_poisons_witness :
  written (out_log poisoned_bilinear) (GetIndex NCHW (mkShape NCHW 1 1 2 2) 0 0 0 0)
    = Some S754_nan.
Proof.
  apply (nan_sample_poisons poisoned NCHW 1 1 2 2 2 2 start poisoned_bilinear 0 0 0 0 0 0);
    [reflexivity | vm_compute; reflexivity | in_unit_space | reflexivity | reflexivity |].
  right. right. right. reflexivity.
Defined.

(** ** Power-of-two scales *)

(** An integer below [2^24] converts without rounding. *)
Lemma of_Z_small_exact (n : Z) :
  0 < n < 2 ^ 24 ->
  exists m e, F32.of_Z n = S754_finite false m e /\
              Zpos (digits2_pos m) = 24 /\ -23 <= e <= 0 /\
              Zpos m = n * 2 ^ (- e).
Proof.
  intros Hn. destruct n as [| p | p]; try lia.
  pose proof (digits2_pos_bounds p) as Bp.
  assert (Hdp : 1 <= Zpos (digits2_pos p) <= 24).
  { split; [lia |]. destruct (Z.leb_spec (Zpos (digits2_pos p)) 24); auto.
    assert (2 ^ 24 <= 2 ^ (Zpos (digits2_pos p) - 1)) by (apply Z.pow_le_mono_r; lia). lia. }
  destruct (of_Z_shape p) as [[_ Hinf] | (m & e & E & Hc & He & He' & Hcase)]; [lia |].
  exists m, e. split; [exact E |]. apply canonical24 in Hc.
  destruct Hcase as [(He0 & Hm & Hd) | (He0 & Hdm & Hd)]; [| lia].
  assert (Hdm : Zpos (digits2_pos m) = Zpos (digits2_pos p) + - e).
  { change (Zpos (digits2_pos m)) with (Zdigits2 (Zpos m)). rewrite Hm.
    apply Zdigits2_shift. lia. }
  split; [lia |]. split; [lia | exact Hm].
Qed.

(** Its multiples by a power of two convert to the same mantissa. *)
Lemma of_Z_scaled (n k : Z) (m : positive) (e : Z) :
  Zpos (digits2_pos m) = 24 -> -23 <= e <= 0 -> Zpos m = n * 2 ^ (- e) ->
  0 <= k <= 100 ->
  F32.of_Z (n * 2 ^ k) = S754_finite false m (e + k).
Proof.
  intros Hd He Hm Hk.
  assert (Hc : canonical_mantissa 24 128 m (e + k) = true) by (apply canonical24; lia).
  assert (Hpe : 0 < 2 ^ (- e)) by (apply Z.pow_pos_nonneg; lia).
  assert (Hpk : 0 < 2 ^ k) by (apply Z.pow_pos_nonneg; lia).
  assert (Hn : 0 < n) by nia.
  destruct (Z.leb_spec (e + k) 0) as [Hlow | Hhigh].
  - destruct (n * 2 ^ k) as [| q | q] eqn:Eq; try lia.
    apply of_Z_canonical_down; [exact Hc | lia |].
    rewrite <- Eq, Hm, <- Z.mul_assoc, <- Z.pow_add_r by lia. f_equal. f_equal. lia.
  - replace (n * 2 ^ k) with (Zpos m * 2 ^ (e + k)).
    + apply of_Z_canonical_up; [exact Hc | lia | lia].
    + rewrite Hm, <- Z.mul_assoc, <- Z.pow_add_r by lia. f_equal. f_equal. lia.
Qed.

(** The quotient of two normal numbers of the same mantissa is a power
    of two. *)
Lemma div_shifted (m : positive) (e1 e2 : Z) :
  Zpos (digits2_pos m) = 24 -> -125 <= e1 - e2 <= 127 ->
  F32.div (S754_finite false m e1) (S754_finite false m e2)
    = S754_finite false 8388608 (e1 - e2 - 23).
Proof.
  intros Hd He. unfold F32.div, SFdiv, SFdiv_core_binary. cbn [Zdigits2 xorb].
  rewrite Hd.
  replace (Z.min (fexp 24 128 (24 + e1 - (24 + e2))) (e1 - e2)) with (e1 - e2 - 24)
    by (unfold fexp, emin; lia).
  replace (e1 - e2 - (e1 - e2 - 24)) with 24 by lia. cbv iota.
  rewrite Z.shiftl_mul_pow2 by lia.
  destruct (Z.div_eucl (Zpos m * 2 ^ 24) (Zpos m)) as [q r] eqn:E.
  assert (Hq : q = 2 ^ 24).
  { change q with (fst (q, r)). rewrite <- E. change (fst (Z.div_eucl ?a ?b)) with (a / b).
    rewrite Z.mul_comm. apply Z.div_mul. lia. }
  assert (Hr : r = 0).
  { change r with (snd (q, r)). rewrite <- E. change (snd (Z.div_eucl ?a ?b)) with (a mod b).
    rewrite Z.mul_comm. apply Z.mod_mul. lia. }
  subst q r.
  replace (new_location (Zpos m) 0) with loc_Exact
    by (unfold new_location; now destruct (Z.even (Zpos m))).
  change (2 ^ 24) with (Zpos 8388608 * 2 ^ 1).
  rewrite binary_round_aux_exact; [| lia | apply canonical24; left; split; [reflexivity | lia]].
  replace (e1 - e2 - 24 + 1) with (e1 - e2 - 23) by lia.
  change (128 - 24) with 104. destruct (Z.leb_spec (e1 - e2 - 23) 104); [reflexivity | lia].
Qed.

(** The product of a normal number and a power of two is exact. *)
Lemma mul_pow2 (m : positive) (e p : Z) :
  Zpos (digits2_pos m) = 24 -> -149 <= e + p + 23 <= 104 ->
  F32.mul (S754_finite false m e) (S754_finite false 8388608 p)
    = S754_finite false m (e + p + 23).
Proof.
  intros Hd He. unfold F32.mul, SFmul. cbn [xorb].
  replace (Zpos (m * 8388608)) with (Zpos m * 2 ^ 23) by lia.
  rewrite binary_round_aux_exact; [| lia | apply canonical24; lia].
  change (128 - 24) with 104. destruct (Z.leb_spec (e + p + 23) 104); [reflexivity | lia].
Qed.

(** Coordinates at a power-of-two scale, up and down: they are the
    exact quotient and the exact product. *)
Lemma project_upscale (s k i : Z) :
  1 <= s -> 0 <= k -> s * 2 ^ k < 2 ^ 24 -> 0 < i < 2 ^ 24 ->
  exists m e,
    project s (s * 2 ^ k) i = S754_finite false m (e - k) /\
    Zpos (digits2_pos m) = 24 /\ -23 <= e <= 0 /\ Zpos m = i * 2 ^ (- e) /\ k <= 24.
Proof.
  intros Hs Hk Hb Hi.
  assert (Hpk : 1 <= 2 ^ k) by (apply (Z.pow_le_mono_r 2 0 k); lia).
  assert (Hk24 : k <= 24).
  { destruct (Z.leb_spec k 24); [assumption |].
    assert (2 ^ 24 <= 2 ^ k) by (apply Z.pow_le_mono_r; lia). nia. }
  destruct (of_Z_small_exact s) as (ms & es & Es & Ds & Bs & Vs); [nia |].
  destruct (of_Z_small_exact i Hi) as (m & e & Ei & Di & Bi & Vi).
  pose proof (of_Z_scaled s k ms es Ds Bs Vs ltac:(lia)) as Eb.
  exists m, e. unfold project, numeric_cast_float.
  rewrite Es, Eb, Ei, div_shifted, mul_pow2 by (try assumption; lia).
  split; [f_equal; lia | auto].
Qed.

Lemma project_downscale (s k i : Z) :
  1 <= s < 2 ^ 24 -> 0 <= k -> s * 2 ^ k < 2 ^ 32 -> 0 < i < 2 ^ 24 ->
  exists m e,
    project (s * 2 ^ k) s i = S754_finite false m (e + k) /\
    Zpos (digits2_pos m) = 24 /\ -23 <= e <= 0 /\ Zpos m = i * 2 ^ (- e) /\ k <= 32.
Proof.
  intros Hs Hk Hb Hi.
  assert (Hpk : 1 <= 2 ^ k) by (apply (Z.pow_le_mono_r 2 0 k); lia).
  assert (Hk32 : k <= 32).
  { destruct (Z.leb_spec k 32); [assumption |].
    assert (2 ^ 32 <= 2 ^ k) by (apply Z.pow_le_mono_r; lia). nia. }
  destruct (of_Z_small_exact s) as (ms & es & Es & Ds & Bs & Vs); [lia |].
  destruct (of_Z_small_exact i Hi) as (m & e & Ei & Di & Bi & Vi).
  pose proof (of_Z_scaled s k ms es Ds Bs Vs ltac:(lia)) as Eb.
  exists m, e. unfold project, numeric_cast_float.
  rewrite Es, Eb, Ei, div_shifted, mul_pow2 by (try assumption; lia).
  split; [f_equal; lia | auto].
Qed.

(** Upscaling by [2^k]: the top-left texel of [i] is [i / 2^k]. *)
Lemma texel0_upscale (s k i : Z) :
  1 <= s -> 0 <= k -> s * 2 ^ k < 2 ^ 24 -> 0 <= i < 2 ^ 24 ->
  texel0 s (s * 2 ^ k) i = Ok (i / 2 ^ k).
Proof.
  intros Hs Hk Hb Hi.
  assert (Hpk : 1 <= 2 ^ k) by (apply (Z.pow_le_mono_r 2 0 k); lia).
  destruct (Z.eq_dec i 0) as [-> | Hne].
  { destruct (texel0_origin s (s * 2 ^ k)) as (_ & -> & _); try nia.
    now rewrite Z.div_0_l by lia. }
  destruct (project_upscale s k i Hs Hk Hb ltac:(lia)) as (m & e & Ep & Dm & Be & Vm & Hk24).
  unfold texel0. rewrite Ep.
  destruct (floor_cast_exact m (e - k) Dm ltac:(lia)) as [_ ->].
  assert (Hfl : floorZ (S754_finite false m (e - k)) = i / 2 ^ k).
  { unfold floorZ. cbn [cond_Zopp]. rewrite Z.shiftl_div_pow2 by lia.
    replace (- (e - k)) with (k + - e) by lia.
    rewrite Vm, Z.pow_add_r by lia.
    assert (0 < 2 ^ (- e)) by (apply Z.pow_pos_nonneg; lia).
    apply Z.div_mul_cancel_r; lia. }
  rewrite Hfl.
  assert (0 <= i / 2 ^ k <= i).
  { split; [apply Z.div_pos; lia |]. apply Z.div_le_upper_bound; nia. }
  destruct (Z.leb_spec (2 ^ 32) (i / 2 ^ k)); [lia | reflexivity].
Qed.

(** Downscaling by [2^k]: the top-left texel of [i] is [i * 2^k], and the
    weight is zero. *)
Lemma texel0_downscale (s k i : Z) :
  1 <= s < 2 ^ 24 -> 0 <= k -> s * 2 ^ k < 2 ^ 32 -> 0 <= i < s ->
  texel0 (s * 2 ^ k) s i = Ok (i * 2 ^ k) /\
  weight (s * 2 ^ k) s i = S754_zero false.
Proof.
  intros Hs Hk Hb Hi.
  assert (Hpk : 1 <= 2 ^ k) by (apply (Z.pow_le_mono_r 2 0 k); lia).
  destruct (Z.eq_dec i 0) as [-> | Hne].
  { destruct (texel0_origin (s * 2 ^ k) s) as (_ & -> & ->); try nia. now split. }
  destruct (project_downscale s k i Hs Hk Hb ltac:(lia)) as (m & e & Ep & Dm & Be & Vm & Hk32).
  unfold texel0, weight. rewrite Ep.
  destruct (floor_cast_exact m (e + k) Dm ltac:(lia)) as [_ ->].
  assert (Hpe : 0 < 2 ^ (- e)) by (apply Z.pow_pos_nonneg; lia).
  assert (Hfl : floorZ (S754_finite false m (e + k)) = i * 2 ^ k).
  { unfold floorZ. cbn [cond_Zopp].
    destruct (Z.leb_spec 0 (e + k)) as [Hup | Hdown].
    - rewrite Z.shiftl_mul_pow2, Vm, <- Z.mul_assoc, <- Z.pow_add_r by lia.
      f_equal. f_equal. lia.
    - rewrite Z.shiftl_div_pow2, Vm by lia.
      replace (- e) with (k + - (e + k)) by lia.
      rewrite Z.pow_add_r, Z.mul_assoc by lia.
      apply Z.div_mul. apply Z.pow_nonzero; lia. }
  rewrite Hfl.
  assert (i * 2 ^ k < 2 ^ 32) by nia.
  split; [destruct (Z.leb_spec (2 ^ 32) (i * 2 ^ k)); [lia | reflexivity] |].
  assert (Hfloor : floorf (S754_finite false m (e + k)) = S754_finite false m (e + k)).
  { unfold floorf. rewrite Hfl.
    change (binary_normalize 24 128 ?n 0 false) with (F32.of_Z n).
    apply of_Z_scaled; auto; lia. }
  rewrite Hfloor. now apply sub_self.
Qed.

(** X11. Nearest-neighbour upscaling by powers of two replicates the
    samples: when the output extents are the input extents times [2^a]
    and [2^b], below [2^24], a call on a buffer that holds the input tensor
    returns, and the output element [(n, c, y, x)] is the input element
    [(n, c, y / 2^a, x / 2^b)]: every input sample fills a block of
    [2^a] rows and [2^b] columns. *)
Theorem nearest_upscale_replicates
        (inp : Decoder) (l : DataLayout) (method : ResizeMethod)
        (N C Hin Win a b : Z) (k0 : Kernel) :
  method <> Bilinear ->
  1 <= Hin -> 1 <= Win -> 0 <= a -> 0 <= b ->
  Hin * 2 ^ a < 2 ^ 24 -> Win * 2 ^ b < 2 ^ 24 ->
  N * C * Hin * Win <= dec_size inp ->
  out_log k0 = [] ->
  let inputShape := mkShape l N C Hin Win in
  let outputShape := mkShape l N C (Hin * 2 ^ a) (Win * 2 ^ b) in
  exists k,
    Resize inp inputShape outputShape l method k0 = (Ok tt, k) /\
    forall n c y x, in_space N C (Hin * 2 ^ a) (Win * 2 ^ b) n c y x ->
      written (out_log k) (GetIndex l outputShape n c y x)
        = Some (element l inp inputShape n c (y / 2 ^ a) (x / 2 ^ b)).
Proof.
  intros Hm HHin HWin Ha Hb HHout HWout Hsize Hk0 inputShape outputShape.
  assert (Hpa : 0 < 2 ^ a) by (apply Z.pow_pos_nonneg; lia).
  assert (Hpb : 0 < 2 ^ b) by (apply Z.pow_pos_nonneg; lia).
  assert (Hty : forall y, 0 <= y < Hin * 2 ^ a -> texel0 Hin (Hin * 2 ^ a) y = Ok (y / 2 ^ a))
    by (intros y Hy; apply texel0_upscale; lia).
  assert (Htx : forall x, 0 <= x < Win * 2 ^ b -> texel0 Win (Win * 2 ^ b) x = Ok (x / 2 ^ b))
    by (intros x Hx; apply texel0_upscale; lia).
  assert (Hval : forall n c y x, in_space N C (Hin * 2 ^ a) (Win * 2 ^ b) n c y x ->
    value_at inp inputShape outputShape l method n c y x
      = Ok (element l inp inputShape n c (y / 2 ^ a) (x / 2 ^ b))).
  { intros n c y x Hsp. pose proof Hsp as (Rn & Rc & Ry & Rx).
    pose proof (Hty y Ry) as Ey. pose proof (Htx x Rx) as Ex.
    unfold inputShape, outputShape.
    rewrite (value_at_unfold inp l method N C Hin Win _ _ n c y x _ _ Ey Ex).
    rewrite interpolate_nearest by (auto; lia).
    apply sample_in_space; [exact Hsize |]. unfold in_space.
    repeat split; try lia;
      try (apply Z.div_pos; lia); apply Z.div_lt_upper_bound; lia. }
  destruct (Resize_returns inp l method N C Hin Win (Hin * 2 ^ a) (Win * 2 ^ b) k0)
    as (k & Hrun & Hw); auto.
  - intros y Hy. eexists. now apply Hty.
  - intros n c y x Hsp. eexists. now apply Hval.
  - exists k. split; [exact Hrun |]. intros n c y x Hsp.
    destruct (Hw n c y x Hsp) as (v & Hv & Hwr).
    fold inputShape outputShape in Hv.
    rewrite Hval in Hv by assumption. now injection Hv as <-.
Qed.

(** X11 on the 4x4 ramp resized to 8x16. *)
Lemma nearest_upscale_replicates_witness :
  exists k,
    Resize ramp (mkShape NCHW 1 1 4 4) (mkShape NCHW 1 1 (4 * 2 ^ 1) (4 * 2 ^ 2))
           NCHW NearestNeighbor start = (Ok tt, k) /\
    forall n c y x, in_space 1 1 (4 * 2 ^ 1) (4 * 2 ^ 2) n c y x ->
      written (out_log k) (GetIndex NCHW (mkShape NCHW 1 1 (4 * 2 ^ 1) (4 * 2 ^ 2)) n c y x)
        = Some (element NCHW ramp (mkShape NCHW 1 1 4 4) n c (y / 2 ^ 1) (x / 2 ^ 2)).
Proof.
  apply (nearest_upscale_replicates ramp NCHW NearestNeighbor 1 1 4 4 1 2 start);
    [discriminate | lia | lia | lia | lia | lia | lia | simpl; lia | reflexivity].
Defined.

(** X12. Downscaling by powers of two decimates: when the input extents
    are the output extents times [2^a] and [2^b], every coordinate is the
    integer [y * 2^a], [x * 2^b] and every weight is zero.  On a buffer
    that holds the input tensor a nearest-neighbour call returns and the
    output element [(n, c, y, x)] is the input element
    [(n, c, y * 2^a, x * 2^b)]; a bilinear call on finite samples returns
    and writes a copy of that element. *)
Theorem downscale_decimates
        (inp : Decoder) (l : DataLayout) (N C Hout Wout a b : Z) (k0 : Kernel) :
  1 <= Hout < 2 ^ 24 -> 1 <= Wout < 2 ^ 24 -> 0 <= a -> 0 <= b ->
  Hout * 2 ^ a < 2 ^ 32 -> Wout * 2 ^ b < 2 ^ 32 ->
  N * C * (Hout * 2 ^ a) * (Wout * 2 ^ b) <= dec_size inp ->
  out_log k0 = [] ->
  let inputShape := mkShape l N C (Hout * 2 ^ a) (Wout * 2 ^ b) in
  let outputShape := mkShape l N C Hout Wout in
  (forall y, 0 <= y < Hout ->
     texel0 (Hout * 2 ^ a) Hout y = Ok (y * 2 ^ a) /\
     weight (Hout * 2 ^ a) Hout y = S754_zero false) /\
  (forall x, 0 <= x < Wout ->
     texel0 (Wout * 2 ^ b) Wout x = Ok (x * 2 ^ b) /\
     weight (Wout * 2 ^ b) Wout x = S754_zero false) /\
  (forall method, method <> Bilinear ->
     exists k,
       Resize inp inputShape outputShape l method k0 = (Ok tt, k) /\
       forall n c y x, in_space N C Hout Wout n c y x ->
         written (out_log k) (GetIndex l outputShape n c y x)
           = Some (element l inp inputShape n c (y * 2 ^ a) (x * 2 ^ b))) /\
  ((forall i, 0 <= i < N * C * (Hout * 2 ^ a) * (Wout * 2 ^ b) ->
      F32.valid (dec_elem inp i) = true /\ is_finite (dec_elem inp i) = true) ->
   exists k,
     Resize inp inputShape outputShape l Bilinear k0 = (Ok tt, k) /\
     forall n c y x, in_space N C Hout Wout n c y x ->
       exists v, written (out_log k) (GetIndex l outputShape n c y x) = Some v /\
                 copy_of (element l inp inputShape n c (y * 2 ^ a) (x * 2 ^ b)) v).
Proof.
  intros HHout HWout Ha Hb HHin HWin Hsize Hk0 inputShape outputShape.
  assert (Hpa : 1 <= 2 ^ a) by (apply (Z.pow_le_mono_r 2 0 a); lia).
  assert (Hpb : 1 <= 2 ^ b) by (apply (Z.pow_le_mono_r 2 0 b); lia).
  assert (Hty : forall y, 0 <= y < Hout ->
            texel0 (Hout * 2 ^ a) Hout y = Ok (y * 2 ^ a) /\
            weight (Hout * 2 ^ a) Hout y = S754_zero false)
    by (intros y Hy; apply texel0_downscale; lia).
  assert (Htx : forall x, 0 <= x < Wout ->
            texel0 (Wout * 2 ^ b) Wout x = Ok (x * 2 ^ b) /\
            weight (Wout * 2 ^ b) Wout x = S754_zero false)
    by (intros x Hx; apply texel0_downscale; lia).
  assert (Hsp0 : forall n c y x, in_space N C Hout Wout n c y x ->
            in_space N C (Hout * 2 ^ a) (Wout * 2 ^ b) n c (y * 2 ^ a) (x * 2 ^ b)).
  { intros n c y x (Rn & Rc & Ry & Rx). unfold in_space. repeat split; try lia; nia. }
  split; [exact Hty |]. split; [exact Htx |]. split.
  - intros method Hm.
    assert (Hval : forall n c y x, in_space N C Hout Wout n c y x ->
      value_at inp inputShape outputShape l method n c y x
        = Ok (element l inp inputShape n c (y * 2 ^ a) (x * 2 ^ b))).
    { intros n c y x Hsp. pose proof Hsp as (Rn & Rc & Ry & Rx).
      destruct (Hty y Ry) as [Ey _], (Htx x Rx) as [Ex _].
      unfold inputShape, outputShape.
      rewrite (value_at_unfold inp l method N C _ _ Hout Wout n c y x _ _ Ey Ex).
      rewrite interpolate_nearest by (auto; lia).
      apply sample_in_space; [exact Hsize | now apply Hsp0]. }
    destruct (Resize_returns inp l method N C (Hout * 2 ^ a) (Wout * 2 ^ b) Hout Wout k0)
      as (k & Hrun & Hw); auto.
    + intros y Hy. eexists. now apply Hty.
    + intros n c y x Hsp. eexists. now apply Hval.
    + exists k. split; [exact Hrun |]. intros n c y x Hsp.
      destruct (Hw n c y x Hsp) as (v & Hv & Hwr).
      fold inputShape outputShape in Hv.
      rewrite Hval in Hv by assumption. now injection Hv as <-.
  - intros Hfin.
    assert (Hel : forall n c y x, in_space N C (Hout * 2 ^ a) (Wout * 2 ^ b) n c y x ->
      F32.valid (element l inp inputShape n c y x) = true /\
      is_finite (element l inp inputShape n c y x) = true).
    { intros n c y x Hsp. apply Hfin. now apply GetIndex_bound. }
    assert (Hval : forall n c y x, in_space N C Hout Wout n c y x ->
      exists v, value_at inp inputShape outputShape l Bilinear n c y x = Ok v /\
                copy_of (element l inp inputShape n c (y * 2 ^ a) (x * 2 ^ b)) v).
    { intros n c y x Hsp. pose proof Hsp as (Rn & Rc & Ry & Rx).
      pose proof (Hsp0 n c y x Hsp) as (_ & _ & Ry0 & Rx0).
      destruct (Hty y Ry) as [Ey Wy], (Htx x Rx) as [Ex Wx].
      unfold inputShape, outputShape.
      rewrite (value_at_bilinear inp l N C _ _ Hout Wout n c y x _ _ Ey Ex). cbv zeta.
      destruct (texel1_clamped (Hout * 2 ^ a) Hout y (y * 2 ^ a)) as (_ & _ & By);
        try lia; auto.
      destruct (texel1_clamped (Wout * 2 ^ b) Wout x (x * 2 ^ b)) as (_ & _ & Bx);
        try lia; auto.
      rewrite !sample_in_space by (auto; unfold in_space; lia). cbn [obind].
      rewrite Wy, Wx. eexists. split; [reflexivity |].
      apply bilinear_weights_zero; apply Hel; unfold in_space; lia. }
    destruct (Resize_returns inp l Bilinear N C (Hout * 2 ^ a) (Wout * 2 ^ b) Hout Wout k0)
      as (k & Hrun & Hw); auto.
    + intros y Hy. eexists. now apply Hty.
    + intros n c y x Hsp. destruct (Hval n c y x Hsp) as (v & Hv & _). now exists v.
    + exists k. split; [exact Hrun |]. intros n c y x Hsp.
      destruct (Hw n c y x Hsp) as (v & Hv & Hwr).
      destruct (Hval n c y x Hsp) as (v' & Hv' & Hc).
      fold inputShape outputShape in Hv.
      rewrite Hv' in Hv. injection Hv as <-. now exists v'.
Qed.

(** X12 on the 4x4 ramp resized to 2x1. *)
Lemma downscale_decimates_witness :
  exists k,
    Resize ramp (mkShape NCHW 1 1 (2 * 2 ^ 1) (1 * 2 ^ 2)) (mkShape NCHW 1 1 2 1)
           NCHW NearestNeighbor start = (Ok tt, k) /\
    forall n c y x, in_space 1 1 2 1 n c y x ->
      written (out_log k) (GetIndex NCHW (mkShape NCHW 1 1 2 1) n c y x)
        = Some (element NCHW ramp (mkShape NCHW 1 1 (2 * 2 ^ 1) (1 * 2 ^ 2))
                        n c (y * 2 ^ 1) (x * 2 ^ 2)).
Proof.
  refine (proj1 (proj2 (proj2
            (downscale_decimates ramp NCHW 1 1 2 1 1 2 start _ _ _ _ _ _ _ eq_refl)))
            NearestNeighbor _);
    [lia | lia | lia | lia | lia | lia | simpl; lia | discriminate].
Defined.

(** Upscaling by [2^k]: the coordinate of a multiple of [2^k] is an
    integer, and its weight is zero. *)
Lemma texel0_upscale_grid (s k j : Z) :
  1 <= s -> 0 <= k -> s * 2 ^ k < 2 ^ 24 -> 0 <= j -> j * 2 ^ k < 2 ^ 24 ->
  texel0 s (s * 2 ^ k) (j * 2 ^ k) = Ok j /\
  weight s (s * 2 ^ k) (j * 2 ^ k) = S754_zero false.
Proof.
  intros Hs Hk Hb Hj Hjb.
  assert (Hpk : 1 <= 2 ^ k) by (apply (Z.pow_le_mono_r 2 0 k); lia).
  assert (Hk24 : k <= 24).
  { destruct (Z.leb_spec k 24); [assumption |].
    assert (2 ^ 24 <= 2 ^ k) by (apply Z.pow_le_mono_r; lia). nia. }
  destruct (Z.eq_dec j 0) as [-> | Hne].
  { rewrite Z.mul_0_l. destruct (texel0_origin s (s * 2 ^ k)) as (_ & -> & ->); try nia.
    now split. }
  assert (Hjs : 0 < j < 2 ^ 24) by nia.
  destruct (of_Z_small_exact s) as (ms & es & Es & Ds & Bs & Vs); [nia |].
  destruct (of_Z_small_exact j Hjs) as (m & e & Ej & Dj & Bj & Vj).
  pose proof (of_Z_scaled s k ms es Ds Bs Vs ltac:(lia)) as Eb.
  pose proof (of_Z_scaled j k m e Dj Bj Vj ltac:(lia)) as Ei.
  assert (Hp : project s (s * 2 ^ k) (j * 2 ^ k) = F32.of_Z j).
  { unfold project, numeric_cast_float.
    rewrite Es, Eb, Ei, Ej, div_shifted, mul_pow2 by (try assumption; lia).
    f_equal. lia. }
  unfold texel0, weight. rewrite Hp, floorf_of_Z_small by lia.
  destruct (cast_of_Z_small j ltac:(lia)) as [Hc _]. split; [exact Hc |].
  apply sub_self. now rewrite Ej.
Qed.

(** X13. Bilinear upscaling by powers of two goes through the input
    samples: when the output extents are the input extents times [2^a] and
    [2^b], below [2^24], a call on a buffer that holds the input tensor,
    all of its samples finite, returns, and at the output coordinates
    [(y * 2^a, x * 2^b)] both weights are zero and the element written is a
    copy of the input element [(n, c, y, x)]. *)
Theorem bilinear_upscale_keeps_samples
        (inp : Decoder) (l : DataLayout) (N C Hin Win a b : Z) (k0 : Kernel) :
  1 <= Hin -> 1 <= Win -> 0 <= a -> 0 <= b ->
  Hin * 2 ^ a < 2 ^ 24 -> Win * 2 ^ b < 2 ^ 24 ->
  N * C * Hin * Win <= dec_size inp ->
  (forall i, 0 <= i < N * C * Hin * Win ->
     F32.valid (dec_elem inp i) = true /\ is_finite (dec_elem inp i) = true) ->
  out_log k0 = [] ->
  let inputShape := mkShape l N C Hin Win in
  let outputShape := mkShape l N C (Hin * 2 ^ a) (Win * 2 ^ b) in
  exists k,
    Resize inp inputShape outputShape l Bilinear k0 = (Ok tt, k) /\
    forall n c y x, in_space N C Hin Win n c y x ->
      weight Hin (Hin * 2 ^ a) (y * 2 ^ a) = S754_zero false /\
      weight Win (Win * 2 ^ b) (x * 2 ^ b) = S754_zero false /\
      exists v,
        written (out_log k) (GetIndex l outputShape n c (y * 2 ^ a) (x * 2 ^ b)) = Some v /\
        copy_of (element l inp inputShape n c y x) v.
Proof.
  intros HHin HWin Ha Hb HHout HWout Hsize Hfin Hk0 inputShape outputShape.
  assert (Hpa : 1 <= 2 ^ a) by (apply (Z.pow_le_mono_r 2 0 a); lia).
  assert (Hpb : 1 <= 2 ^ b) by (apply (Z.pow_le_mono_r 2 0 b); lia).
  assert (Hty : forall y, 0 <= y < Hin * 2 ^ a -> texel0 Hin (Hin * 2 ^ a) y = Ok (y / 2 ^ a))
    by (intros y Hy; apply texel0_upscale; lia).
  assert (Htx : forall x, 0 <= x < Win * 2 ^ b -> texel0 Win (Win * 2 ^ b) x = Ok (x / 2 ^ b))
    by (intros x Hx; apply texel0_upscale; lia).
  assert (Hel : forall n c y x, in_space N C Hin Win n c y x ->
    F32.valid (element l inp inputShape n c y x) = true /\
    is_finite (element l inp inputShape n c y x) = true).
  { intros n c y x Hsp. apply Hfin. now apply GetIndex_bound. }
  assert (Hval : forall n c y x, in_space N C (Hin * 2 ^ a) (Win * 2 ^ b) n c y x ->
    exists v, value_at inp inputShape outputShape l Bilinear n c y x = Ok v).
  { intros n c y x Hsp. pose proof Hsp as (Rn & Rc & Ry & Rx).
    pose proof (Hty y Ry) as Ey. pose proof (Htx x Rx) as Ex.
    unfold inputShape, outputShape.
    rewrite (value_at_bilinear inp l N C Hin Win _ _ n c y x _ _ Ey Ex). cbv zeta.
    destruct (texel1_clamped Hin (Hin * 2 ^ a) y (y / 2 ^ a)) as (By0 & _ & By);
      try lia; auto.
    destruct (texel1_clamped Win (Win * 2 ^ b) x (x / 2 ^ b)) as (Bx0 & _ & Bx);
      try lia; auto.
    assert (y / 2 ^ a < Hin) by (apply Z.div_lt_upper_bound; lia).
    assert (x / 2 ^ b < Win) by (apply Z.div_lt_upper_bound; lia).
    rewrite !sample_in_space by (auto; unfold in_space; lia). cbn [obind].
    now eexists. }
  destruct (Resize_returns inp l Bilinear N C Hin Win (Hin * 2 ^ a) (Win * 2 ^ b) k0)
    as (k & Hrun & Hw); auto.
  { intros y Hy. eexists. now apply Hty. }
  exists k. split; [exact Hrun |]. intros n c y x Hsp.
  pose proof Hsp as (Rn & Rc & Ry & Rx).
  destruct (texel0_upscale_grid Hin a y) as [Ey Wy]; try nia.
  destruct (texel0_upscale_grid Win b x) as [Ex Wx]; try nia.
  split; [exact Wy |]. split; [exact Wx |].
  destruct (Hw n c (y * 2 ^ a) (x * 2 ^ b)) as (v & Hv & Hwr);
    [unfold in_space; repeat split; try lia; nia |].
  exists v. split; [exact Hwr |].
  fold inputShape outputShape in Hv. unfold inputShape, outputShape in Hv.
  rewrite (value_at_bilinear inp l N C Hin Win _ _ n c _ _ y x Ey Ex) in Hv. cbv zeta in Hv.
  destruct (texel1_clamped Hin (Hin * 2 ^ a) (y * 2 ^ a) y) as (_ & _ & By);
    try lia; auto.
  destruct (texel1_clamped Win (Win * 2 ^ b) (x * 2 ^ b) x) as (_ & _ & Bx);
    try lia; auto.
  rewrite !sample_in_space in Hv by (auto; unfold in_space; lia). cbn [obind] in Hv.
  injection Hv as <-. rewrite Wy, Wx.
  apply bilinear_weights_zero; apply Hel; unfold in_space; lia.
Qed.

Lemma of_Z_small_finite (i : Z) :
  0 <= i <= 2 ^ 24 ->
  F32.valid (F32.of_Z i) = true /\ is_finite (F32.of_Z i) = true.
Proof.
  intros Hi. destruct (cast_of_Z_small i Hi) as [Hc Hv]. split; [exact Hv |].
  unfold numeric_cast_uint in Hc. now destruct (F32.of_Z i).
Qed.

(** X13 on the 4x4 ramp resized to 8x16. *)
Lemma bilinear_upscale_keeps_samples_witness :
  exists k,
    Resize ramp (mkShape NCHW 1 1 4 4) (mkShape NCHW 1 1 (4 * 2 ^ 1) (4 * 2 ^ 2))
           NCHW Bilinear start = (Ok tt, k) /\
    forall n c y x, in_space 1 1 4 4 n c y x ->
      weight 4 (4 * 2 ^ 1) (y * 2 ^ 1) = S754_zero false /\
      weight 4 (4 * 2 ^ 2) (x * 2 ^ 2) = S754_zero false /\
      exists v,
        written (out_log k)
                (GetIndex NCHW (mkShape NCHW 1 1 (4 * 2 ^ 1) (4 * 2 ^ 2)) n c
                          (y * 2 ^ 1) (x * 2 ^ 2)) = Some v /\
        copy_of (element NCHW ramp (mkShape NCHW 1 1 4 4) n c y x) v.
Proof.
  apply (bilinear_upscale_keeps_samples ramp NCHW 1 1 4 4 1 2 start);
    [lia | lia | lia | lia | lia | lia | simpl; lia | | reflexivity].
  intros i Hi. apply of_Z_small_finite. lia.
Defined.

(** ** Extents for which every read is inside the input *)

(** Rounding a number of at least 24 digits adds at most one unit in
    the last place: a relative excess of [2^-23] at most. *)
Lemma round32_upper (s : bool) (m e : Z) (l : location) :
  0 < m -> 24 <= Zdigits2 m ->
  -149 <= Zdigits2 m + e - 24 -> Zdigits2 m + e - 24 <= 103 ->
  exists m' e',
    binary_round_aux 24 128 s m e l = S754_finite s m' e' /\
    Zpos (digits2_pos m') = 24 /\
    e <= e' <= Zdigits2 m + e - 23 /\
    2 ^ 23 * (Zpos m' * 2 ^ (e' - e)) <= (2 ^ 23 + 1) * m.
Proof.
  intros Hm Hd Hlo Hhi. unfold binary_round_aux, shr_fexp.
  set (d := Zdigits2 m) in *.
  set (k1 := fexp 24 128 (d + e) - e).
  assert (Hk1 : k1 = d - 24) by (unfold k1, fexp, emin; lia).
  assert (Bm : 2 ^ (d - 1) <= m < 2 ^ d).
  { unfold d. destruct m as [| p | p]; try lia. apply (digits2_pos_bounds p). }
  assert (Em : shr_m (shr_record_of_loc m l) = m) by (destruct l as [| [ | | ]]; reflexivity).
  assert (Hp1 : 0 < 2 ^ (d - 24)) by (apply Z.pow_pos_nonneg; lia).
  assert (E23 : 2 ^ (d - 1) = 2 ^ 23 * 2 ^ (d - 24))
    by (rewrite <- Z.pow_add_r by lia; f_equal; lia).
  assert (E24 : 2 ^ d = 2 ^ 24 * 2 ^ (d - 24))
    by (rewrite <- Z.pow_add_r by lia; f_equal; lia).
  destruct (shr (shr_record_of_loc m l) e k1) as [r1 e1] eqn:E1.
  assert (H1 : 2 ^ 23 <= shr_m r1 < 2 ^ 24 /\ e1 = d + e - 24 /\
               shr_m r1 * 2 ^ (d - 24) <= m).
  { pose proof (shr_m_shr (shr_record_of_loc m l) e k1) as P.
    rewrite E1, Em in P. cbn [fst snd] in P. destruct P as [Pm Pe]; try lia.
    rewrite Pm, Hk1. split; [| split; [lia |]].
    - split; [apply Z.div_le_lower_bound; lia | apply Z.div_lt_upper_bound; lia].
    - rewrite Z.mul_comm. apply Z.mul_div_le. lia. }
  destruct H1 as (B1 & Ee1 & V1).
  pose proof (round_nearest_even_bounds (shr_m r1) (loc_of_shr_record r1)) as Br.
  set (mr := round_nearest_even (shr_m r1) (loc_of_shr_record r1)) in *.
  set (k2 := fexp 24 128 (Zdigits2 mr + e1) - e1).
  destruct (shr (shr_record_of_loc mr loc_Exact) e1 k2) as [r2 e2] eqn:E2.
  assert (H2 : 2 ^ 23 <= shr_m r2 < 2 ^ 24 /\ e1 <= e2 <= e1 + 1 /\
               shr_m r2 * 2 ^ (e2 - e1) = mr).
  { destruct (Z.eq_dec mr (2 ^ 24)) as [Htop | Hlow].
    - assert (Hone : k2 = 1).
      { unfold k2. rewrite Htop. change (Zdigits2 (2 ^ 24)) with 25.
        unfold fexp, emin. lia. }
      pose proof (shr_m_shr (shr_record_of_loc mr loc_Exact) e1 k2) as P.
      rewrite E2 in P. cbn [fst snd shr_record_of_loc shr_m] in P.
      destruct P as [Pm Pe]; try lia. rewrite Hone in Pm, Pe.
      rewrite Pm, Htop. change (2 ^ 24 / 2 ^ 1) with (2 ^ 23).
      replace (e2 - e1) with 1 by lia. split; [lia |]. split; [lia | reflexivity].
    - assert (Hdr : Zdigits2 mr = 24) by (apply Zdigits2_unique; lia).
      assert (Hzero : k2 = 0) by (unfold k2, fexp, emin; lia).
      rewrite Hzero in E2. cbn [shr] in E2. injection E2 as <- <-.
      cbn [shr_record_of_loc shr_m]. rewrite Z.sub_diag, Z.pow_0_r. lia. }
  destruct H2 as (B2 & Be2 & V2).
  destruct (shr_m r2) as [| p | p] eqn:Ep; try lia.
  change (128 - 24) with 104.
  destruct (Z.leb_spec e2 104); [| lia].
  exists p, e2. split; [reflexivity |]. split; [apply digits2_pos_unique; lia |].
  split; [lia |].
  assert (Hv : Zpos p * 2 ^ (e2 - e) = mr * 2 ^ (d - 24)).
  { replace (e2 - e) with ((e2 - e1) + (d - 24)) by lia.
    rewrite Z.pow_add_r by lia. rewrite <- V2. ring. }
  rewrite Hv. nia.
Qed.

(** The scale factor exceeds the quotient of the extents by a relative
    [2^-23] at most. *)
Lemma scale_upper (m1 m2 : positive) (e1 e2 : Z) :
  Zpos (digits2_pos m1) = 24 -> Zpos (digits2_pos m2) = 24 ->
  -23 <= e1 <= 0 -> -23 <= e2 <= 0 ->
  exists ms es,
    F32.div (S754_finite false m1 e1) (S754_finite false m2 e2) = S754_finite false ms es /\
    Zpos (digits2_pos ms) = 24 /\
    e1 - e2 - 24 <= es <= e1 - e2 - 22 /\
    2 ^ 23 * (Zpos ms * 2 ^ (es - (e1 - e2 - 24))) * Zpos m2
      <= (2 ^ 23 + 1) * (Zpos m1 * 2 ^ 24).
Proof.
  intros D1 D2 B1 B2.
  unfold F32.div, SFdiv, SFdiv_core_binary. cbn [Zdigits2 xorb]. rewrite D1, D2.
  replace (Z.min (fexp 24 128 (24 + e1 - (24 + e2))) (e1 - e2)) with (e1 - e2 - 24)
    by (unfold fexp, emin; lia).
  replace (e1 - e2 - (e1 - e2 - 24)) with 24 by lia. cbv iota.
  rewrite Z.shiftl_mul_pow2 by lia.
  pose proof (digits2_pos_bounds m1) as Bm1. rewrite D1 in Bm1.
  pose proof (digits2_pos_bounds m2) as Bm2. rewrite D2 in Bm2.
  assert (Hq : 2 ^ 23 <= Zpos m1 * 2 ^ 24 / Zpos m2 < 2 ^ 25).
  { split; [apply Z.div_le_lower_bound; [lia | nia] |].
    apply Z.div_lt_upper_bound; [lia |]. nia. }
  pose proof (Z.mul_div_le (Zpos m1 * 2 ^ 24) (Zpos m2) ltac:(lia)) as Hle.
  unfold Z.div in Hq, Hle. destruct (Z.div_eucl (Zpos m1 * 2 ^ 24) (Zpos m2)) as [q r].
  cbn [fst] in Hq, Hle.
  assert (Dq : 24 <= Zdigits2 q <= 25).
  { split; [| apply Zdigits2_bound; lia].
    pose proof (Zdigits2_lt q ltac:(lia)) as Hlt.
    destruct (Z.leb_spec 24 (Zdigits2 q)); [assumption |].
    assert (2 ^ Zdigits2 q <= 2 ^ 23).
    { apply Z.pow_le_mono_r; [lia |]. lia. }
    lia. }
  destruct (round32_upper false q (e1 - e2 - 24) (new_location (Zpos m2) r))
    as (ms & es & -> & Ds & Be & Vs); try lia.
  exists ms, es. split; [reflexivity |]. split; [exact Ds |]. split; [lia |].
  set (v := Zpos ms * 2 ^ (es - (e1 - e2 - 24))) in *. nia.
Qed.

(** The floor of the coordinate of an output position exceeds the exact
    quotient [i * in / out] by a relative [2^-22] at most: the three
    roundings (of the scale, of the product, and none for the conversions)
    add one unit in the last place each at most. *)
Lemma project_upper (inExtent outExtent i : Z) :
  1 <= inExtent < 2 ^ 24 -> 1 <= outExtent < 2 ^ 24 -> 0 < i < 2 ^ 24 ->
  exists m e,
    project inExtent outExtent i = S754_finite false m e /\
    Zpos (digits2_pos m) = 24 /\ -149 <= e <= 104 /\
    0 <= floorZ (S754_finite false m e) /\
    2 ^ 23 * 2 ^ 23 * (floorZ (S754_finite false m e) * outExtent)
      <= (2 ^ 23 + 1) * (2 ^ 23 + 1) * (i * inExtent).
Proof.
  intros Hi Ho Hj.
  destruct (of_Z_small_exact inExtent) as (m1 & e1 & E1 & D1 & B1 & V1); [lia |].
  destruct (of_Z_small_exact outExtent) as (m2 & e2 & E2 & D2 & B2 & V2); [lia |].
  destruct (of_Z_small_exact i) as (mi & ei & Ei & Di & Bi & Vi); [lia |].
  destruct (scale_upper m1 m2 e1 e2 D1 D2 B1 B2) as (ms & es & Es & Ds & Bs & Vs).
  unfold project, numeric_cast_float. rewrite E1, E2, Ei, Es.
  unfold F32.mul, SFmul. cbn [xorb].
  pose proof (digits2_pos_bounds mi) as Bmi. rewrite Di in Bmi.
  pose proof (digits2_pos_bounds ms) as Bms. rewrite Ds in Bms.
  assert (Hprod : 2 ^ 46 <= Zpos (mi * ms) < 2 ^ 48) by nia.
  assert (Dp : 47 <= Zdigits2 (Zpos (mi * ms)) <= 48).
  { split; [| apply Zdigits2_bound; lia].
    pose proof (Zdigits2_lt (Zpos (mi * ms)) ltac:(lia)) as Hlt.
    destruct (Z.leb_spec 47 (Zdigits2 (Zpos (mi * ms)))); [assumption |].
    assert (2 ^ Zdigits2 (Zpos (mi * ms)) <= 2 ^ 46).
    { apply Z.pow_le_mono_r; [lia |]. lia. }
    lia. }
  destruct (round32_upper false (Zpos (mi * ms)) (ei + es) loc_Exact)
    as (m & e & -> & Dm & Be & Vp); try lia.
  exists m, e. split; [reflexivity |]. split; [exact Dm |]. split; [lia |].
  (* The three roundings, chained. *)
  set (A := 2 ^ 23) in *.
  set (a := e - (ei + es)) in *. set (b := es - (e1 - e2 - 24)) in *.
  assert (Ha : 0 <= a) by (unfold a; lia).
  assert (Hb : 0 <= b) by (unfold b; lia).
  assert (Hpa : 0 < 2 ^ a) by (apply Z.pow_pos_nonneg; lia).
  assert (Hpb : 0 < 2 ^ b) by (apply Z.pow_pos_nonneg; lia).
  replace (Zpos (mi * ms)) with (Zpos mi * Zpos ms) in Vp by lia.
  set (u := Zpos m * 2 ^ a) in *. set (v := Zpos ms * 2 ^ b) in *.
  assert (HA : A = 8388608) by reflexivity.
  assert (Hu : 0 < u) by (unfold u; nia).
  assert (Hv : 0 < v) by (unfold v; nia).
  assert (G1 : A * A * (u * 2 ^ b * Zpos m2) <= (A + 1) * (A + 1) * (Zpos mi * (Zpos m1 * 2 ^ 24))).
  { assert (S1 : A * u * (A * 2 ^ b * Zpos m2)
                 <= (A + 1) * (Zpos mi * Zpos ms) * (A * 2 ^ b * Zpos m2))
      by (apply Z.mul_le_mono_nonneg_r; [nia | exact Vp]).
    assert (S2 : A * v * Zpos m2 * ((A + 1) * Zpos mi)
                 <= (A + 1) * (Zpos m1 * 2 ^ 24) * ((A + 1) * Zpos mi))
      by (apply Z.mul_le_mono_nonneg_r; [nia | exact Vs]).
    replace (A * A * (u * 2 ^ b * Zpos m2)) with (A * u * (A * 2 ^ b * Zpos m2)) by ring.
    replace ((A + 1) * (Zpos mi * Zpos ms) * (A * 2 ^ b * Zpos m2))
      with (A * v * Zpos m2 * ((A + 1) * Zpos mi)) in S1 by (unfold v; ring).
    replace ((A + 1) * (A + 1) * (Zpos mi * (Zpos m1 * 2 ^ 24)))
      with ((A + 1) * (Zpos m1 * 2 ^ 24) * ((A + 1) * Zpos mi)) by ring.
    lia. }
  (* In terms of the integers converted. *)
  set (T := 24 - ei - e1).
  assert (HT : 0 <= T) by (unfold T; lia).
  assert (HeT : 0 <= e + T) by (unfold T, a, b in *; lia).
  assert (G2 : A * A * (Zpos m * outExtent * 2 ^ (e + T))
               <= (A + 1) * (A + 1) * (i * inExtent * 2 ^ T)).
  { assert (EL : u * 2 ^ b * Zpos m2 = Zpos m * outExtent * 2 ^ (e + T)).
    { unfold u. rewrite V2.
      replace (e + T) with (a + b + - e2) by (unfold T, a, b; lia).
      rewrite !Z.pow_add_r by lia. ring. }
    assert (ER : Zpos mi * (Zpos m1 * 2 ^ 24) = i * inExtent * 2 ^ T).
    { rewrite Vi, V1. unfold T.
      replace (24 - ei - e1) with (- ei + (- e1 + 24)) by lia.
      rewrite !Z.pow_add_r by lia. ring. }
    now rewrite <- EL, <- ER. }
  assert (HpT : 0 < 2 ^ T) by (apply Z.pow_pos_nonneg; lia).
  assert (HpeT : 0 < 2 ^ (e + T)) by (apply Z.pow_pos_nonneg; lia).
  assert (H0 : 0 <= floorZ (S754_finite false m e)).
  { unfold floorZ. cbn [cond_Zopp]. apply Z.shiftl_nonneg. lia. }
  split; [exact H0 |].
  set (F := floorZ (S754_finite false m e)) in *.
  assert (HF : F * 2 ^ T <= Zpos m * 2 ^ (e + T)).
  { unfold F, floorZ. cbn [cond_Zopp].
    destruct (Z.leb_spec 0 e) as [Hpos | Hneg].
    - rewrite Z.shiftl_mul_pow2 by assumption.
      rewrite (Z.pow_add_r 2 e T) by lia. lia.
    - rewrite Z.shiftl_div_pow2 by lia.
      assert (Hpe : 0 < 2 ^ (- e)) by (apply Z.pow_pos_nonneg; lia).
      assert (ET : 2 ^ T = 2 ^ (- e) * 2 ^ (e + T))
        by (rewrite <- Z.pow_add_r by lia; f_equal; lia).
      pose proof (Z.mul_div_le (Zpos m) (2 ^ (- e)) Hpe) as Hdiv.
      rewrite ET. nia. }
  assert (S5 : A * A * (F * outExtent) * 2 ^ T
               <= (A + 1) * (A + 1) * (i * inExtent) * 2 ^ T).
  { assert (S6 : A * A * outExtent * (F * 2 ^ T)
                 <= A * A * outExtent * (Zpos m * 2 ^ (e + T)))
      by (apply Z.mul_le_mono_nonneg_l; [nia | exact HF]).
    replace (A * A * (F * outExtent) * 2 ^ T) with (A * A * outExtent * (F * 2 ^ T)) by ring.
    replace ((A + 1) * (A + 1) * (i * inExtent) * 2 ^ T)
      with ((A + 1) * (A + 1) * (i * inExtent * 2 ^ T)) by ring.
    replace (A * A * outExtent * (Zpos m * 2 ^ (e + T)))
      with (A * A * (Zpos m * outExtent * 2 ^ (e + T))) in S6 by ring.
    lia. }
  apply Z.mul_le_mono_pos_r in S5; [exact S5 | exact HpT].
Qed.

(** For an output extent of [2^22] at most the floor of the coordinate
    stays below the input extent. *)
Lemma project_below (inExtent outExtent i : Z) :
  1 <= inExtent < 2 ^ 24 -> 1 <= outExtent <= 2 ^ 22 -> 0 < i < outExtent ->
  exists m e,
    project inExtent outExtent i = S754_finite false m e /\
    Zpos (digits2_pos m) = 24 /\ -149 <= e <= 104 /\
    floorZ (S754_finite false m e) < inExtent.
Proof.
  intros Hi Ho Hj.
  destruct (project_upper inExtent outExtent i) as (m & e & Ep & Dm & Be & H0 & Hup);
    try lia.
  exists m, e. split; [exact Ep |]. split; [exact Dm |]. split; [exact Be |].
  set (F := floorZ (S754_finite false m e)) in *.
  change (2 ^ 23) with 8388608 in Hup.
  destruct (Z.ltb_spec F inExtent) as [Hlt | Hge]; [exact Hlt | exfalso].
  assert (8388608 * 8388608 * (inExtent * outExtent) <= 8388608 * 8388608 * (F * outExtent))
    by nia.
  assert ((8388608 + 1) * (8388608 + 1) * (i * inExtent)
          <= (8388608 + 1) * (8388608 + 1) * ((outExtent - 1) * inExtent)) by nia.
  nia.
Qed.

(** For an input extent below [2^22] the floor of the coordinate passes
    the last row by one at most. *)
Lemma texel0_at_most (inExtent outExtent i : Z) :
  1 <= inExtent < 2 ^ 22 -> outExtent < 2 ^ 24 -> 0 <= i < outExtent ->
  exists t, texel0 inExtent outExtent i = Ok t /\ 0 <= t <= inExtent.
Proof.
  intros Hi Ho Hj.
  destruct (Z.eq_dec i 0) as [-> | Hne].
  { destruct (texel0_origin inExtent outExtent) as (_ & -> & _); try lia.
    exists 0. split; [reflexivity | lia]. }
  destruct (project_upper inExtent outExtent i) as (m & e & Ep & Dm & Be & H0 & Hup);
    try lia.
  unfold texel0. rewrite Ep.
  destruct (floor_cast_exact m e Dm Be) as [_ ->].
  set (F := floorZ (S754_finite false m e)) in *.
  change (2 ^ 23) with 8388608 in Hup.
  assert (HF : F <= inExtent).
  { destruct (Z.leb_spec F inExtent) as [Hle | Hgt]; [exact Hle | exfalso].
    assert (8388608 * 8388608 * ((inExtent + 1) * outExtent)
            <= 8388608 * 8388608 * (F * outExtent)) by nia.
    assert ((8388608 + 1) * (8388608 + 1) * (i * inExtent)
            <= (8388608 + 1) * (8388608 + 1) * ((outExtent - 1) * inExtent)) by nia.
    nia. }
  destruct (Z.leb_spec (2 ^ 32) F); [lia |].
  eexists. split; [reflexivity | lia].
Qed.

Lemma texel0_inside (inExtent outExtent i : Z) :
  1 <= inExtent < 2 ^ 24 -> outExtent <= 2 ^ 22 -> 0 <= i < outExtent ->
  exists t, texel0 inExtent outExtent i = Ok t /\ 0 <= t < inExtent.
Proof.
  intros Hi Ho Hj.
  destruct (Z.eq_dec i 0) as [-> | Hne].
  { destruct (texel0_origin inExtent outExtent) as (_ & -> & _); try lia.
    exists 0. split; [reflexivity | lia]. }
  destruct (project_below inExtent outExtent i) as (m & e & Ep & Dm & Be & Hlt); try lia.
  unfold texel0. rewrite Ep.
  destruct (floor_cast_exact m e Dm Be) as [H0 ->].
  destruct (Z.leb_spec (2 ^ 32) (floorZ (S754_finite false m e))); [lia |].
  eexists. split; [reflexivity | lia].
Qed.

(** X14. For input extents below [2^24] and output extents of [2^22] at
    most, every floored coordinate is inside the input: [0 <= y0 < Hin]
    and [0 <= x0 < Win] for every output row and column.  So no cast is
    refused and no read leaves the tensor: on a buffer that holds the input
    tensor a call returns, with either method, having written every output
    element. *)
Theorem small_extents_are_safe
        (inp : Decoder) (l : DataLayout) (method : ResizeMethod)
        (N C Hin Win Hout Wout : Z) (k0 : Kernel) :
  1 <= Hin < 2 ^ 24 -> 1 <= Win < 2 ^ 24 -> Hout <= 2 ^ 22 -> Wout <= 2 ^ 22 ->
  N * C * Hin * Win <= dec_size inp ->
  out_log k0 = [] ->
  (forall y, 0 <= y < Hout -> exists y0, texel0 Hin Hout y = Ok y0 /\ 0 <= y0 < Hin) /\
  (forall x, 0 <= x < Wout -> exists x0, texel0 Win Wout x = Ok x0 /\ 0 <= x0 < Win) /\
  exists k,
    Resize inp (mkShape l N C Hin Win) (mkShape l N C Hout Wout) l method k0 = (Ok tt, k) /\
    forall n c y x, in_space N C Hout Wout n c y x ->
      exists v,
        value_at inp (mkShape l N C Hin Win) (mkShape l N C Hout Wout) l method n c y x
          = Ok v /\
        written (out_log k) (GetIndex l (mkShape l N C Hout Wout) n c y x) = Some v.
Proof.
  intros HHin HWin HHout HWout Hsize Hk0.
  assert (Hty : forall y, 0 <= y < Hout ->
            exists y0, texel0 Hin Hout y = Ok y0 /\ 0 <= y0 < Hin)
    by (intros y Hy; apply texel0_inside; lia).
  assert (Htx : forall x, 0 <= x < Wout ->
            exists x0, texel0 Win Wout x = Ok x0 /\ 0 <= x0 < Win)
    by (intros x Hx; apply texel0_inside; lia).
  split; [exact Hty |]. split; [exact Htx |].
  apply Resize_returns; [| | exact Hk0].
  - intros y Hy. destruct (Hty y Hy) as (y0 & Ey & _). now exists y0.
  - intros n c y x Hsp. pose proof Hsp as (Rn & Rc & Ry & Rx).
    destruct (Hty y Ry) as (y0 & Ey & By0). destruct (Htx x Rx) as (x0 & Ex & Bx0).
    destruct (ResizeMethod_eq_Bilinear method) as [-> | Hm].
    + rewrite (value_at_bilinear inp l N C Hin Win Hout Wout n c y x y0 x0 Ey Ex). cbv zeta.
      destruct (texel1_clamped Hin Hout y y0) as (_ & _ & By); try lia; auto.
      destruct (texel1_clamped Win Wout x x0) as (_ & _ & Bx); try lia; auto.
      rewrite !sample_in_space by (auto; unfold in_space; lia). cbn [obind].
      now eexists.
    + rewrite (value_at_unfold inp l method N C Hin Win Hout Wout n c y x y0 x0 Ey Ex).
      rewrite interpolate_nearest by (auto; lia).
      rewrite sample_in_space by (auto; unfold in_space; lia). now eexists.
Qed.

(** X14 on the 4x4 ramp resized to 3x3. *)
Lemma small_extents_are_safe_witness :
  (forall y, 0 <= y < 3 -> exists y0, texel0 4 3 y = Ok y0 /\ 0 <= y0 < 4) /\
  (forall x, 0 <= x < 3 -> exists x0, texel0 4 3 x = Ok x0 /\ 0 <= x0 < 4) /\
  exists k,
    Resize ramp (mkShape NCHW 1 1 4 4) (mkShape NCHW 1 1 3 3) NCHW Bilinear start = (Ok tt, k) /\
    forall n c y x, in_space 1 1 3 3 n c y x ->
      exists v,
        value_at ramp (mkShape NCHW 1 1 4 4) (mkShape NCHW 1 1 3 3) NCHW Bilinear n c y x
          = Ok v /\
        written (out_log k) (GetIndex NCHW (mkShape NCHW 1 1 3 3) n c y x) = Some v.
Proof.
  apply (small_extents_are_safe ramp NCHW Bilinear 1 1 4 4 3 3 start);
    [lia | lia | lia | lia | simpl; lia | reflexivity].
Defined.

(** * The distances of the nearest-neighbour policy *)

Lemma binary_round_exact (s : bool) (D M : positive) (ef E : Z) :
  canonical_mantissa 24 128 M E = true -> E <= 104 ->
  (E <= ef /\ Zpos M = Zpos D * 2 ^ (ef - E)) \/
  (ef <= E /\ Zpos D = Zpos M * 2 ^ (E - ef)) ->
  binary_round 24 128 s D ef = S754_finite s M E.
Proof.
  intros Hc HE Hcase. unfold binary_round.
  pose proof Hc as Hc'. unfold canonical_mantissa in Hc'. apply Z.eqb_eq in Hc'.
  assert (Hd : Zpos (digits2_pos D) + ef = Zpos (digits2_pos M) + E).
  { destruct Hcase as [[Hle HM] | [Hle HD]].
    - change (Zpos (digits2_pos M)) with (Zdigits2 (Zpos M)).
      rewrite HM, Zdigits2_shift by lia. lia.
    - change (Zpos (digits2_pos D)) with (Zdigits2 (Zpos D)).
      rewrite HD, Zdigits2_shift by lia. lia. }
  rewrite Hd, Hc'. unfold shl_align.
  destruct Hcase as [[Hle HM] | [Hle HD]].
  - destruct (E - ef) as [| d | d] eqn:Ed; try lia.
    + assert (E = ef) as -> by lia. rewrite Z.sub_diag, Z.pow_0_r, Z.mul_1_r in HM.
      injection HM as ->. rewrite binary_round_aux_canonical by assumption.
      change (128 - 24) with 104. destruct (Z.leb_spec ef 104); [reflexivity | lia].
    + assert (Pos.iter xO D d = M) as ->.
      { apply Pos2Z.inj. rewrite Pos_iter_xO, HM. f_equal. f_equal. lia. }
      rewrite binary_round_aux_canonical by assumption.
      change (128 - 24) with 104. destruct (Z.leb_spec E 104); [reflexivity | lia].
  - replace (match E - ef with Z.neg d => (Pos.iter xO D d, E) | _ => (D, ef) end)
      with (D, ef) by (destruct (E - ef) eqn:Ed; try reflexivity; lia).
    rewrite HD, binary_round_aux_exact
      by (try lia; replace (ef + (E - ef)) with E by lia; assumption).
    replace (ef + (E - ef)) with E by lia.
    change (128 - 24) with 104. destruct (Z.leb_spec E 104); [reflexivity | lia].
Qed.

(** Two consecutive integers below [2^24], converted: the second one has
    the larger exponent, and on the exponent of the first their mantissas
    differ by one unit. *)
Lemma of_Z_consecutive (a : Z) :
  0 < a -> a + 1 < 2 ^ 24 ->
  exists ma ea mb eb,
    F32.of_Z a = S754_finite false ma ea /\
    F32.of_Z (a + 1) = S754_finite false mb eb /\
    -23 <= ea <= eb /\ eb <= 0 /\
    Zpos mb * 2 ^ (eb - ea) = Zpos ma + 2 ^ (- ea).
Proof.
  intros Ha Hb.
  destruct (of_Z_small_exact a) as (ma & ea & Ea & Da & Ba & Va); [lia |].
  destruct (of_Z_small_exact (a + 1)) as (mb & eb & Eb & Db & Bb & Vb); [lia |].
  exists ma, ea, mb, eb. split; [exact Ea |]. split; [exact Eb |].
  pose proof (digits2_pos_bounds ma) as Bma. rewrite Da in Bma.
  pose proof (digits2_pos_bounds mb) as Bmb. rewrite Db in Bmb.
  assert (Hpa : 0 < 2 ^ (- ea)) by (apply Z.pow_pos_nonneg; lia).
  assert (Hle : ea <= eb).
  { destruct (Z.leb_spec ea eb); [assumption | exfalso].
    assert (E : 2 ^ (- eb) = 2 ^ (- ea) * 2 ^ (ea - eb))
      by (rewrite <- Z.pow_add_r by lia; f_equal; lia).
    assert (2 ^ 1 <= 2 ^ (ea - eb)) by (apply Z.pow_le_mono_r; lia).
    change (2 ^ 1) with 2 in *. rewrite E in Vb. nia. }
  split; [lia |]. split; [lia |].
  assert (E : 2 ^ (- ea) = 2 ^ (- eb) * 2 ^ (eb - ea))
    by (rewrite <- Z.pow_add_r by lia; f_equal; lia).
  rewrite Vb, Va, E. ring.
Qed.

Lemma sub_succ (a : Z) :
  0 <= a -> a + 1 <= 2 ^ 24 ->
  F32.sub (F32.of_Z a) (F32.of_Z (a + 1)) = S754_finite true 8388608 (-23).
Proof.
  intros Ha Hb.
  destruct (Z.eq_dec a 0) as [-> | Hne]; [reflexivity |].
  destruct (Z.eq_dec (a + 1) (2 ^ 24)) as [Htop | Hlow].
  { assert (a = 16777215) as -> by lia. vm_compute. reflexivity. }
  destruct (of_Z_consecutive a) as (ma & ea & mb & eb & -> & -> & Be & Be' & Hv); try lia.
  unfold F32.sub, SFsub. cbv zeta. rewrite Z.min_l by lia. cbn [cond_Zopp].
  rewrite !shl_align_value by lia. rewrite Z.sub_diag, Z.pow_0_r, Z.mul_1_r, Hv.
  assert (Hpa : 0 < 2 ^ (- ea)) by (apply Z.pow_pos_nonneg; lia).
  destruct (Zpos ma - (Zpos ma + 2 ^ (- ea))) as [| D | D] eqn:ED; try lia.
  cbn [binary_normalize]. apply binary_round_exact; [reflexivity | lia |].
  left. split; [lia |].
  assert (E : 2 ^ 23 = 2 ^ (- ea) * 2 ^ (ea - -23))
    by (rewrite <- Z.pow_add_r by lia; f_equal; lia).
  change (Zpos 8388608) with (2 ^ 23). rewrite E. f_equal. lia.
Qed.

Lemma sub_pred (a : Z) :
  0 <= a -> a + 1 <= 2 ^ 24 ->
  F32.sub (F32.of_Z (a + 1)) (F32.of_Z a) = S754_finite false 8388608 (-23).
Proof.
  intros Ha Hb.
  destruct (Z.eq_dec a 0) as [-> | Hne]; [reflexivity |].
  destruct (Z.eq_dec (a + 1) (2 ^ 24)) as [Htop | Hlow].
  { assert (a = 16777215) as -> by lia. vm_compute. reflexivity. }
  destruct (of_Z_consecutive a) as (ma & ea & mb & eb & -> & -> & Be & Be' & Hv); try lia.
  unfold F32.sub, SFsub. cbv zeta. rewrite Z.min_r by lia. cbn [cond_Zopp].
  rewrite !shl_align_value by lia. rewrite Z.sub_diag, Z.pow_0_r, Z.mul_1_r, Hv.
  assert (Hpa : 0 < 2 ^ (- ea)) by (apply Z.pow_pos_nonneg; lia).
  destruct (Zpos ma + 2 ^ (- ea) - Zpos ma) as [| D | D] eqn:ED; try lia.
  cbn [binary_normalize]. apply binary_round_exact; [reflexivity | lia |].
  left. split; [lia |].
  assert (E : 2 ^ 23 = 2 ^ (- ea) * 2 ^ (ea - -23))
    by (rewrite <- Z.pow_add_r by lia; f_equal; lia).
  change (Zpos 8388608) with (2 ^ 23). rewrite E. f_equal. lia.
Qed.

(** The difference between the floored coordinate [t] and a texel [t1]
    next to it is exact: zero, minus one or one. *)
Lemma offset_value (t t1 : Z) :
  0 <= t < 2 ^ 24 -> 0 <= t1 -> -1 <= t1 - t <= 1 ->
  (t1 - t = 0 /\ F32.sub (F32.of_Z t) (numeric_cast_float t1) = S754_zero false) \/
  (t1 - t = 1 /\
   F32.sub (F32.of_Z t) (numeric_cast_float t1) = S754_finite true 8388608 (-23)) \/
  (t1 - t = -1 /\
   F32.sub (F32.of_Z t) (numeric_cast_float t1) = S754_finite false 8388608 (-23)).
Proof.
  intros Ht Ht1 Hd. unfold numeric_cast_float.
  assert (t1 = t \/ t1 = t + 1 \/ t = t1 + 1) as [-> | [-> | ->]] by lia.
  - left. split; [lia |]. apply sub_self. apply of_Z_small_finite. lia.
  - right. left. split; [lia |]. apply sub_succ; lia.
  - right. right. split; [lia |]. apply sub_pred; lia.
Qed.

(** The floor of a coordinate is the conversion of the texel cast from
    it. *)
Lemma floor_is_cast (v : spec_float) (t : Z) :
  v = S754_nan \/ signed_as false v ->
  numeric_cast_uint (floorf v) = Ok t -> floorf v = F32.of_Z t /\ 0 <= t.
Proof.
  intros [-> | Hs]; [discriminate |].
  destruct (is_finite v) eqn:Hf.
  - destruct (floorf_signed v Hs Hf) as [-> Hz]. intros Hc.
    destruct (cast_of_Z _ _ Hz Hc) as (E & _ & H0 & _). split; [now rewrite E | exact H0].
  - destruct Hs as [-> | [-> | (m & e & ->)]]; discriminate.
Qed.

(** Next to the floored coordinates the second distance is the square
    root, correctly rounded, of the sum of the squares of the integer
    offsets. *)
Lemma distance_of_offsets (y0 x0 y1 x1 : Z) :
  0 <= y0 < 2 ^ 24 -> 0 <= x0 < 2 ^ 24 -> 0 <= y1 -> 0 <= x1 ->
  -1 <= y1 - y0 <= 1 -> -1 <= x1 - x0 <= 1 ->
  distance1 (F32.of_Z y0) (F32.of_Z x0) y1 x1 =
  SFsqrt 53 1024 (binary_normalize 53 1024 ((x1 - x0) ^ 2 + (y1 - y0) ^ 2) 0 false).
Proof.
  intros Hy0 Hx0 Hy1 Hx1 Dy Dx. unfold distance1.
  destruct (offset_value y0 y1 Hy0 Hy1 Dy) as [[-> ->] | [[-> ->] | [-> ->]]];
    destruct (offset_value x0 x1 Hx0 Hx1 Dx) as [[-> ->] | [[-> ->] | [-> ->]]];
    vm_compute; reflexivity.
Qed.

(** C1. For every output coordinate of a nearest-neighbour call that
    returns, the kernel compares two Euclidean distances, computed in
    binary64 as [sqrt (dx * dx + dy * dy)]: the one from [(fix, fiy)] to
    [(x0, y0)] and the one from [(fix, fiy)] to [(x1, y1)].  The value
    written is the input sample at [(x0, y0)] when the first is at most
    the second, and the sample at [(x1, y1)] otherwise, unmodified; in
    particular it is the sample at [(x0, y0)] when the two distances are
    equal.  For texels below [2^24] the offsets are exact integers: the
    first distance is [sqrt 0] and the second one is the correctly
    rounded [sqrt ((x1 - x0)^2 + (y1 - y0)^2)]. *)
Theorem nearest_neighbor_selection
        (inp : Decoder) (l : DataLayout) (N C Hin Win Hout Wout : Z)
        (k0 k : Kernel) (n c y x : Z) :
  out_log k0 = [] ->
  Resize inp (mkShape l N C Hin Win) (mkShape l N C Hout Wout) l NearestNeighbor k0
    = (Ok tt, k) ->
  in_space N C Hout Wout n c y x ->
  exists y0 x0,
    texel0 Hin Hout y = Ok y0 /\ texel0 Win Wout x = Ok x0 /\
    let fiy := floorf (project Hin Hout y) in
    let fix_ := floorf (project Win Wout x) in
    let y1 := texel1 Hin y0 in
    let x1 := texel1 Win x0 in
    let euclid := fun px py : Z =>
      let dx := F64.of_float (SFsub 24 128 fix_ (F32.of_Z px)) in
      let dy := F64.of_float (SFsub 24 128 fiy (F32.of_Z py)) in
      SFsqrt 53 1024 (SFadd 53 1024 (SFmul 53 1024 dx dx) (SFmul 53 1024 dy dy)) in
    let d0 := euclid x0 y0 in
    let d1 := euclid x1 y1 in
    distance0 fiy fix_ y0 x0 = d0 /\ distance1 fiy fix_ y1 x1 = d1 /\
    written (out_log k) (GetIndex l (mkShape l N C Hout Wout) n c y x) =
      Some (if SFleb d0 d1
            then element l inp (mkShape l N C Hin Win) n c y0 x0
            else element l inp (mkShape l N C Hin Win) n c y1 x1) /\
    (SFeqb d0 d1 = true ->
     written (out_log k) (GetIndex l (mkShape l N C Hout Wout) n c y x) =
       Some (element l inp (mkShape l N C Hin Win) n c y0 x0)) /\
    (0 <= Hin -> 0 <= Win -> y0 < 2 ^ 24 -> x0 < 2 ^ 24 ->
     -1 <= y1 - y0 <= 1 -> -1 <= x1 - x0 <= 1 ->
     fiy = F32.of_Z y0 /\ fix_ = F32.of_Z x0 /\
     d0 = SFsqrt 53 1024 (binary_normalize 53 1024 0 0 false) /\
     d1 = SFsqrt 53 1024 (binary_normalize 53 1024 ((x1 - x0) ^ 2 + (y1 - y0) ^ 2) 0 false)).
Proof.
  intros Hk0 Hrun Hsp. pose proof Hsp as (Rn & Rc & Ry & Rx).
  destruct (Resize_log inp l NearestNeighbor N C Hin Win Hout Wout k0 k Hk0 Hrun)
    as [_ Hw].
  destruct (Hw n c y x Hsp) as (v & Hv & Hwr).
  apply value_at_texels in Hv. destruct Hv as (y0 & x0 & Hy0 & Hx0 & Hv).
  exists y0, x0. split; [assumption |]. split; [assumption |].
  unfold interpolate, sample in Hv. destruct (dim_mkShape l N C Hin Win) as (_ & _ & EH & EW).
  rewrite EH, EW in Hv.
  set (fiy := floorf (project Hin Hout y)) in *.
  set (fix_ := floorf (project Win Wout x)) in *.
  set (y1 := texel1 Hin y0) in *. set (x1 := texel1 Win x0) in *.
  assert (Main :
    let d0 := distance0 fiy fix_ y0 x0 in
    let d1 := distance1 fiy fix_ y1 x1 in
    distance0 fiy fix_ y0 x0 = d0 /\ distance1 fiy fix_ y1 x1 = d1 /\
    written (out_log k) (GetIndex l (mkShape l N C Hout Wout) n c y x) =
      Some (if SFleb d0 d1
            then element l inp (mkShape l N C Hin Win) n c y0 x0
            else element l inp (mkShape l N C Hin Win) n c y1 x1) /\
    (SFeqb d0 d1 = true ->
     written (out_log k) (GetIndex l (mkShape l N C Hout Wout) n c y x) =
       Some (element l inp (mkShape l N C Hin Win) n c y0 x0)) /\
    (0 <= Hin -> 0 <= Win -> y0 < 2 ^ 24 -> x0 < 2 ^ 24 ->
     -1 <= y1 - y0 <= 1 -> -1 <= x1 - x0 <= 1 ->
     fiy = F32.of_Z y0 /\ fix_ = F32.of_Z x0 /\
     d0 = SFsqrt 53 1024 (binary_normalize 53 1024 0 0 false) /\
     d1 = SFsqrt 53 1024
            (binary_normalize 53 1024 ((x1 - x0) ^ 2 + (y1 - y0) ^ 2) 0 false))).
  { cbv zeta. split; [reflexivity |]. split; [reflexivity |].
    assert (Hsel : written (out_log k) (GetIndex l (mkShape l N C Hout Wout) n c y x) =
      Some (if SFleb (distance0 fiy fix_ y0 x0) (distance1 fiy fix_ y1 x1)
            then element l inp (mkShape l N C Hin Win) n c y0 x0
            else element l inp (mkShape l N C Hin Win) n c y1 x1)).
    { rewrite Hwr. f_equal. cbv zeta in Hv. apply read_ok in Hv. destruct Hv as [-> _].
      unfold element. now destruct (SFleb _ _). }
    split; [exact Hsel |]. split.
    - intros Heq. rewrite Hsel. unfold SFeqb in Heq. unfold SFleb.
      destruct (SFcompare _ _) as [[ | | ] |]; try discriminate. reflexivity.
    - intros HHin HWin By0 Bx0 Dy Dx.
      destruct (floor_is_cast (project Hin Hout y) y0) as [Ey Py];
        [apply project_signed; lia | exact Hy0 |].
      destruct (floor_is_cast (project Win Wout x) x0) as [Ex Px];
        [apply project_signed; lia | exact Hx0 |].
      fold fiy in Ey. fold fix_ in Ex.
      split; [exact Ey |]. split; [exact Ex |]. rewrite Ey, Ex. split.
      + unfold distance0, numeric_cast_float.
        rewrite !sub_self by (apply of_Z_small_finite; lia). reflexivity.
      + apply distance_of_offsets; try lia.
        * apply texel1_nonneg.
        * apply texel1_nonneg. }
  exact Main.
Qed.

(** C1 on a 1x2x2x2 tensor resized to 3x3.  At the output element (0, 0)
    the second texel is the diagonal neighbour, at the distance [sqrt 2],
    and the sample written is the one at (0, 0); at the output element
    (2, 2) both texels are the last sample, the two distances are equal
    and the sample written is the one at [(x0, y0)]. *)
Lemma nearest_neighbor_selection_witness :
  (texel0 2 3 0 = Ok 0 /\ texel1 2 0 = 1 /\
   distance0 (floorf (project 2 3 0)) (floorf (project 2 3 0)) 0 0 = S754_zero false /\
   distance1 (floorf (project 2 3 0)) (floorf (project 2 3 0)) 1 1
     = S754_finite false 6369051672525773 (-52) /\
   written (out_log planar_nearest) (GetIndex NCHW (mkShape NCHW 1 2 3 3) 0 0 0 0) =
     Some (element NCHW planar (mkShape NCHW 1 2 2 2) 0 0 0 0)) /\
  (texel0 2 3 2 = Ok 1 /\ texel1 2 1 = 1 /\
   SFeqb (distance0 (floorf (project 2 3 2)) (floorf (project 2 3 2)) 1 1)
         (distance1 (floorf (project 2 3 2)) (floorf (project 2 3 2)) 1 1) = true /\
   written (out_log planar_nearest) (GetIndex NCHW (mkShape NCHW 1 2 3 3) 0 0 2 2) =
     Some (element NCHW planar (mkShape NCHW 1 2 2 2) 0 0 1 1)).
Proof.
  assert (E0 : texel0 2 3 0 = Ok 0) by (vm_compute; reflexivity).
  assert (E2 : texel0 2 3 2 = Ok 1) by (vm_compute; reflexivity).
  split.
  - destruct (nearest_neighbor_selection planar NCHW 1 2 2 2 3 3 start planar_nearest 0 0 0 0)
      as (y0 & x0 & Hy & Hx & _ & _ & Hsel & _);
      [reflexivity | vm_compute; reflexivity | in_unit_space |].
    rewrite E0 in Hy, Hx. injection Hy as <-. injection Hx as <-.
    split; [exact E0 |]. split; [reflexivity |].
    split; [vm_compute; reflexivity |]. split; [vm_compute; reflexivity |].
    rewrite Hsel. vm_compute. reflexivity.
  - destruct (nearest_neighbor_selection planar NCHW 1 2 2 2 3 3 start planar_nearest 0 0 2 2)
      as (y0 & x0 & Hy & Hx & _ & _ & _ & Htie & _);
      [reflexivity | vm_compute; reflexivity | in_unit_space |].
    rewrite E2 in Hy, Hx. injection Hy as <-. injection Hx as <-.
    split; [exact E2 |]. split; [reflexivity |].
    split; [vm_compute; reflexivity |].
    apply Htie. vm_compute. reflexivity.
Defined.

(** * Planes are resized independently *)

(** Inside the extents for which every floored coordinate is in the
    input, the value of an output coordinate is a function of the samples
    of its own plane at the texels [y0], [y1], [x0], [x1]. *)
Lemma value_at_inside (inp : Decoder) (l : DataLayout) (method : ResizeMethod)
      (N C Hin Win Hout Wout n c y x : Z) :
  1 <= Hin < 2 ^ 24 -> 1 <= Win < 2 ^ 24 -> Hout <= 2 ^ 22 -> Wout <= 2 ^ 22 ->
  N * C * Hin * Win <= dec_size inp ->
  in_space N C Hout Wout n c y x ->
  exists y0 x0,
    texel0 Hin Hout y = Ok y0 /\ texel0 Win Wout x = Ok x0 /\
    0 <= y0 < Hin /\ 0 <= x0 < Win /\
    0 <= texel1 Hin y0 < Hin /\ 0 <= texel1 Win x0 < Win /\
    let shape := mkShape l N C Hin Win in
    value_at inp shape (mkShape l N C Hout Wout) l method n c y x =
    Ok (match method with
        | Bilinear =>
            Lerp (Lerp (element l inp shape n c y0 x0)
                       (element l inp shape n c y0 (texel1 Win x0)) (weight Win Wout x))
                 (Lerp (element l inp shape n c (texel1 Hin y0) x0)
                       (element l inp shape n c (texel1 Hin y0) (texel1 Win x0))
                       (weight Win Wout x))
                 (weight Hin Hout y)
        | _ => element l inp shape n c y0 x0
        end).
Proof.
  intros HHin HWin HHout HWout Hsize Hsp. pose proof Hsp as (Rn & Rc & Ry & Rx).
  destruct (texel0_inside Hin Hout y) as (y0 & Ey & By0); try lia.
  destruct (texel0_inside Win Wout x) as (x0 & Ex & Bx0); try lia.
  destruct (texel1_clamped Hin Hout y y0) as (_ & _ & By); try lia; auto.
  destruct (texel1_clamped Win Wout x x0) as (_ & _ & Bx); try lia; auto.
  exists y0, x0. split; [exact Ey |]. split; [exact Ex |].
  split; [exact By0 |]. split; [exact Bx0 |]. split; [lia |]. split; [lia |].
  cbv zeta. destruct (ResizeMethod_eq_Bilinear method) as [-> | Hm].
  - rewrite (value_at_bilinear inp l N C Hin Win Hout Wout n c y x y0 x0 Ey Ex). cbv zeta.
    rewrite !sample_in_space by (auto; unfold in_space; lia). reflexivity.
  - rewrite (value_at_unfold inp l method N C Hin Win Hout Wout n c y x y0 x0 Ey Ex).
    rewrite interpolate_nearest by (auto; lia).
    rewrite sample_in_space by (auto; unfold in_space; lia).
    destruct method; [contradiction | reflexivity | reflexivity].
Qed.

(** X9. For input extents below [2^24] and output extents of [2^22] at
    most, where every floored coordinate is inside the input, the plane
    of a batch and a channel of the output depends on the same plane of
    the input only.  For two buffers that hold a tensor of the input shape
    and agree on the plane [(n, c)], whatever they hold in the other
    planes, the two calls return, with either method and in either layout,
    and write equal values over the whole plane [(n, c)] of the output. *)
Theorem plane_independence
        (inp inp' : Decoder) (l : DataLayout) (method : ResizeMethod)
        (N C Hin Win Hout Wout : Z) (k0 k0' : Kernel) (n c : Z) :
  1 <= Hin < 2 ^ 24 -> 1 <= Win < 2 ^ 24 -> Hout <= 2 ^ 22 -> Wout <= 2 ^ 22 ->
  N * C * Hin * Win <= dec_size inp ->
  N * C * Hin * Win <= dec_size inp' ->
  0 <= n < N -> 0 <= c < C ->
  (forall y x, 0 <= y < Hin -> 0 <= x < Win ->
     element l inp (mkShape l N C Hin Win) n c y x =
     element l inp' (mkShape l N C Hin Win) n c y x) ->
  out_log k0 = [] -> out_log k0' = [] ->
  exists k k',
    Resize inp (mkShape l N C Hin Win) (mkShape l N C Hout Wout) l method k0 = (Ok tt, k) /\
    Resize inp' (mkShape l N C Hin Win) (mkShape l N C Hout Wout) l method k0' = (Ok tt, k') /\
    forall y x, 0 <= y < Hout -> 0 <= x < Wout ->
      exists v,
        written (out_log k) (GetIndex l (mkShape l N C Hout Wout) n c y x) = Some v /\
        written (out_log k') (GetIndex l (mkShape l N C Hout Wout) n c y x) = Some v.
Proof.
  intros HHin HWin HHout HWout Hsize Hsize' Rn Rc Hsame Hk0 Hk0'.
  assert (Hret : forall d k1, N * C * Hin * Win <= dec_size d -> out_log k1 = [] ->
    exists k,
      Resize d (mkShape l N C Hin Win) (mkShape l N C Hout Wout) l method k1 = (Ok tt, k) /\
      forall n c y x, in_space N C Hout Wout n c y x ->
        exists v,
          value_at d (mkShape l N C Hin Win) (mkShape l N C Hout Wout) l method n c y x
            = Ok v /\
          written (out_log k) (GetIndex l (mkShape l N C Hout Wout) n c y x) = Some v).
  { intros d k1 Hd Hk1. apply Resize_returns; [| | exact Hk1].
    - intros y Hy. destruct (texel0_inside Hin Hout y) as (y0 & Ey & _); try lia.
      now exists y0.
    - intros n1 c1 y x Hsp.
      destruct (value_at_inside d l method N C Hin Win Hout Wout n1 c1 y x)
        as (y0 & x0 & _ & _ & _ & _ & _ & _ & Hv); auto.
      cbv zeta in Hv. rewrite Hv. now eexists. }
  destruct (Hret inp k0 Hsize Hk0) as (k & Hrun & Hw).
  destruct (Hret inp' k0' Hsize' Hk0') as (k' & Hrun' & Hw').
  exists k, k'. split; [exact Hrun |]. split; [exact Hrun' |].
  intros y x Ry Rx.
  assert (Hsp : in_space N C Hout Wout n c y x) by (unfold in_space; lia).
  destruct (Hw n c y x Hsp) as (v & Hv & Hwr).
  destruct (Hw' n c y x Hsp) as (v' & Hv' & Hwr').
  exists v. split; [exact Hwr |]. rewrite Hwr'. f_equal.
  destruct (value_at_inside inp l method N C Hin Win Hout Wout n c y x)
    as (y0 & x0 & Ey & Ex & By0 & Bx0 & By1 & Bx1 & E); auto.
  destruct (value_at_inside inp' l method N C Hin Win Hout Wout n c y x)
    as (y0' & x0' & Ey' & Ex' & _ & _ & _ & _ & E'); auto.
  rewrite Ey in Ey'. rewrite Ex in Ex'. injection Ey' as <-. injection Ex' as <-.
  cbv zeta in E, E'. rewrite E in Hv. rewrite E' in Hv'.
  injection Hv as <-. injection Hv' as <-.
  rewrite !(Hsame _ _) by lia. reflexivity.
Qed.

(** X9 on two 1x2x2x2 tensors that differ in their second channel only. *)
Lemma plane_independence_witness :
  exists k k',
    Resize planar (mkShape NCHW 1 2 2 2) (mkShape NCHW 1 2 3 3) NCHW Bilinear start
      = (Ok tt, k) /\
    Resize repainted (mkShape NCHW 1 2 2 2) (mkShape NCHW 1 2 3 3) NCHW Bilinear start
      = (Ok tt, k') /\
    forall y x, 0 <= y < 3 -> 0 <= x < 3 ->
      exists v,
        written (out_log k) (GetIndex NCHW (mkShape NCHW 1 2 3 3) 0 0 y x) = Some v /\
        written (out_log k') (GetIndex NCHW (mkShape NCHW 1 2 3 3) 0 0 y x) = Some v.
Proof.
  assert (Hsame : forall y x, 0 <= y < 2 -> 0 <= x < 2 ->
            element NCHW planar (mkShape NCHW 1 2 2 2) 0 0 y x =
            element NCHW repainted (mkShape NCHW 1 2 2 2) 0 0 y x).
  { intros y x Ry Rx.
    assert (y = 0 \/ y = 1) as [-> | ->] by lia;
      assert (x = 0 \/ x = 1) as [-> | ->] by lia; reflexivity. }
  apply (plane_independence planar repainted NCHW Bilinear 1 2 2 2 3 3 start start 0 0);
    [lia | lia | lia | lia | simpl; lia | simpl; lia | lia | lia | exact Hsame
     | reflexivity | reflexivity].
Defined.

(** * Layouts *)

(** ** Writes made before a call fails *)

Lemma sweep_In {W} (count : nat) (i j : Z) (f : Z -> list W * Outcome unit) (w : W) :
  i <= j < i + Z.of_nat count ->
  (forall j', i <= j' < j -> snd (f j') = Ok tt) ->
  In w (fst (f j)) -> In w (fst (sweep count i f)).
Proof.
  revert i. induction count as [| count IH]; intros i Hj Hpre Hin; [lia |].
  cbn [sweep]. destruct (Z.eq_dec j i) as [-> | Hne].
  - destruct (f i) as [ws [[] | e]]; cbn [fst] in *; [| exact Hin].
    destruct (sweep count (i + 1) f) as [ws' r]. cbn [fst]. apply in_or_app. now left.
  - pose proof (Hpre i ltac:(lia)) as Hi.
    assert (Hrest : In w (fst (sweep count (i + 1) f)))
      by (apply IH; [lia | intros j' Hj'; apply Hpre; lia | exact Hin]).
    destruct (f i) as [ws [[] | e]]; cbn [snd] in Hi; [| discriminate].
    destruct (sweep count (i + 1) f) as [ws' r]. cbn [fst] in *. apply in_or_app. now right.
Qed.

Lemma sweep_loop_In {W} (bound j : Z) (f : Z -> list W * Outcome unit) (w : W) :
  0 <= j < bound ->
  (forall j', 0 <= j' < j -> snd (f j') = Ok tt) ->
  In w (fst (f j)) -> In w (fst (sweep_loop bound f)).
Proof. intros Hj. apply sweep_In. lia. Qed.

Lemma sweep_ok {W} (count : nat) (i : Z) (f : Z -> list W * Outcome unit) :
  (forall j, i <= j < i + Z.of_nat count -> snd (f j) = Ok tt) ->
  snd (sweep count i f) = Ok tt.
Proof.
  revert i. induction count as [| count IH]; intros i Hf; [reflexivity |].
  cbn [sweep]. pose proof (Hf i ltac:(lia)) as Hi.
  assert (Hrest : snd (sweep count (i + 1) f) = Ok tt) by (apply IH; intros j Hj; apply Hf; lia).
  destruct (f i) as [ws [[] | e]]; cbn [snd] in Hi; [| discriminate].
  now destruct (sweep count (i + 1) f) as [ws' r].
Qed.

Lemma sweep_loop_ok {W} (bound : Z) (f : Z -> list W * Outcome unit) :
  (forall j, 0 <= j < bound -> snd (f j) = Ok tt) -> snd (sweep_loop bound f) = Ok tt.
Proof. intros Hf. apply sweep_ok. intros j Hj. apply Hf. lia. Qed.

(** Every write of a call, returning or not, is the value of a
    coordinate of the output space at the offset of that coordinate. *)
Lemma ResizeSweep_writes (inp : Decoder) (l : DataLayout) (method : ResizeMethod)
      (N C Hin Win Hout Wout : Z) :
  Forall (fun w =>
            exists n c y x,
              in_space N C Hout Wout n c y x /\
              fst w = GetIndex l (mkShape l N C Hout Wout) n c y x /\
              value_at inp (mkShape l N C Hin Win) (mkShape l N C Hout Wout) l method
                       n c y x = Ok (snd w))
         (fst (ResizeSweep inp (mkShape l N C Hin Win) (mkShape l N C Hout Wout) l method)).
Proof.
  unfold ResizeSweep.
  destruct (dim_mkShape l N C Hin Win) as (-> & -> & -> & _).
  destruct (dim_mkShape l N C Hout Wout) as (_ & _ & -> & ->).
  apply sweep_loop_Forall. intros n Rn. apply sweep_loop_Forall. intros c Rc.
  apply sweep_loop_Forall. intros y Ry.
  destruct (texel0 Hin Hout y); cbn [guard]; [| constructor].
  apply sweep_loop_Forall. intros x Rx.
  destruct (value_at _ _ _ _ _ n c y x) as [v | e] eqn:Hv; cbn [element_sweep fst];
    constructor; [| constructor].
  cbn [fst snd]. exists n, c, y, x. split; [unfold in_space; lia | now split].
Qed.

Lemma written_unique (log : list (Z * spec_float)) (i : Z) (v : spec_float) :
  In (i, v) log -> (forall w, In w log -> fst w = i -> snd w = v) ->
  written log i = Some v.
Proof.
  induction log as [| [j u] log IH]; intros Hin Hall; [contradiction |].
  cbn [written]. destruct (Z.eqb_spec j i) as [-> | Hne].
  - f_equal. apply (Hall (i, u)); [now left | reflexivity].
  - apply IH.
    + destruct Hin as [[= <- <-] | Hin]; [contradiction | exact Hin].
    + intros w Hw. apply Hall. now right.
Qed.

(** A call writes the value of a coordinate of the first plane as soon
    as the rows before it, and its own row, can be computed: whether the
    call fails later, in another plane, does not matter. *)
Lemma written_in_first_plane (inp : Decoder) (l : DataLayout) (method : ResizeMethod)
      (N C Hin Win Hout Wout : Z) (k0 : Kernel) (y x : Z) (v : spec_float) :
  out_log k0 = [] ->
  in_space N C Hout Wout 0 0 y x ->
  (forall y' x', 0 <= y' <= y -> 0 <= x' < Wout ->
     exists v', value_at inp (mkShape l N C Hin Win) (mkShape l N C Hout Wout) l method
                         0 0 y' x' = Ok v') ->
  value_at inp (mkShape l N C Hin Win) (mkShape l N C Hout Wout) l method 0 0 y x = Ok v ->
  written (out_log (snd (Resize inp (mkShape l N C Hin Win) (mkShape l N C Hout Wout)
                                l method k0)))
          (GetIndex l (mkShape l N C Hout Wout) 0 0 y x) = Some v.
Proof.
  intros Hk0 Hsp Hrows Hv. pose proof Hsp as (Rn & Rc & Ry & Rx).
  destruct (Resize_yields inp (mkShape l N C Hin Win) (mkShape l N C Hout Wout) l method k0)
    as (k & E & L).
  rewrite E. cbn [snd]. rewrite L, Hk0, app_nil_r.
  pose proof (ResizeSweep_writes inp l method N C Hin Win Hout Wout) as Hall.
  rewrite Forall_forall in Hall.
  apply written_unique.
  - apply -> in_rev. unfold ResizeSweep.
    destruct (dim_mkShape l N C Hin Win) as (-> & -> & EH & EW).
    destruct (dim_mkShape l N C Hout Wout) as (_ & _ & -> & ->).
    assert (Hrow : forall y', 0 <= y' <= y ->
              exists y0, texel0 (dim (mkShape l N C Hin Win) (GetHeightIndex l)) Hout y' = Ok y0).
    { intros y' Hy'. destruct (Hrows y' x ltac:(lia) ltac:(lia)) as (v' & Hv').
      rewrite EH. apply value_at_texels in Hv'.
      destruct Hv' as (y0 & x0 & Ey & _). now exists y0. }
    apply (sweep_loop_In N 0); [lia | intros j' Hj'; lia |].
    apply (sweep_loop_In C 0); [lia | intros j' Hj'; lia |].
    apply (sweep_loop_In Hout y); [lia | |].
    + intros y' Hy'. destruct (Hrow y' ltac:(lia)) as (y0 & ->). cbn [guard].
      apply sweep_loop_ok. intros x' Hx'.
      destruct (Hrows y' x' ltac:(lia) ltac:(lia)) as (v' & ->). reflexivity.
    + destruct (Hrow y ltac:(lia)) as (y0 & ->). cbn [guard].
      apply (sweep_loop_In Wout x); [lia | |].
      * intros x' Hx'. destruct (Hrows y x' ltac:(lia) ltac:(lia)) as (v' & ->). reflexivity.
      * rewrite Hv. now left.
  - intros w Hw Hfst. apply in_rev in Hw.
    destruct (Hall w Hw) as (n' & c' & y' & x' & Hsp' & Ew & Hw').
    rewrite Ew in Hfst.
    destruct (GetIndex_inj l N C Hout Wout n' c' y' x' 0 0 y x Hsp' Hsp Hfst)
      as (-> & -> & -> & ->).
    rewrite Hv in Hw'. now injection Hw'.
Qed.

(** With the nearest-neighbour policy the value of a coordinate is the
    sample at the floored coordinates, read where the layout puts it. *)
Lemma value_at_nearest (inp : Decoder) (l : DataLayout) (method : ResizeMethod)
      (N C Hin Win Hout Wout n c y x y0 x0 : Z) :
  method <> Bilinear ->
  0 <= Hin -> 0 <= Win -> 0 <= Hout -> 0 <= Wout -> 0 <= y -> 0 <= x ->
  texel0 Hin Hout y = Ok y0 -> texel0 Win Wout x = Ok x0 ->
  value_at inp (mkShape l N C Hin Win) (mkShape l N C Hout Wout) l method n c y x =
  read inp (GetIndex l (mkShape l N C Hin Win) n c y0 x0).
Proof.
  intros Hm HHin HWin HHout HWout Hy Hx Ey Ex.
  rewrite (value_at_unfold inp l method N C Hin Win Hout Wout n c y x y0 x0 Ey Ex).
  now rewrite interpolate_nearest by auto.
Qed.

(** ** The two layouts of one tensor *)

(** Inside the extents for which every floored coordinate is in the
    input the claim of layout invariance holds: the calls on the same
    logical tensor, held channel-first and channel-last, return and write
    equal values at every logical coordinate. *)
Lemma layouts_agree_inside (inpF inpL : Decoder) (method : ResizeMethod)
      (N C Hin Win Hout Wout : Z) (kF0 kL0 : Kernel) :
  1 <= Hin < 2 ^ 24 -> 1 <= Win < 2 ^ 24 -> Hout <= 2 ^ 22 -> Wout <= 2 ^ 22 ->
  N * C * Hin * Win <= dec_size inpF ->
  N * C * Hin * Win <= dec_size inpL ->
  (forall n c y x, in_space N C Hin Win n c y x ->
     element NCHW inpF (mkShape NCHW N C Hin Win) n c y x =
     element NHWC inpL (mkShape NHWC N C Hin Win) n c y x) ->
  out_log kF0 = [] -> out_log kL0 = [] ->
  exists kF kL,
    Resize inpF (mkShape NCHW N C Hin Win) (mkShape NCHW N C Hout Wout) NCHW method kF0
      = (Ok tt, kF) /\
    Resize inpL (mkShape NHWC N C Hin Win) (mkShape NHWC N C Hout Wout) NHWC method kL0
      = (Ok tt, kL) /\
    forall n c y x, in_space N C Hout Wout n c y x ->
      exists v,
        written (out_log kF) (GetIndex NCHW (mkShape NCHW N C Hout Wout) n c y x) = Some v /\
        written (out_log kL) (GetIndex NHWC (mkShape NHWC N C Hout Wout) n c y x) = Some v.
Proof.
  intros HHin HWin HHout HWout HsizeF HsizeL Hsame HkF0 HkL0.
  assert (Hret : forall d l k1, N * C * Hin * Win <= dec_size d -> out_log k1 = [] ->
    exists k,
      Resize d (mkShape l N C Hin Win) (mkShape l N C Hout Wout) l method k1 = (Ok tt, k) /\
      forall n c y x, in_space N C Hout Wout n c y x ->
        exists v,
          value_at d (mkShape l N C Hin Win) (mkShape l N C Hout Wout) l method n c y x
            = Ok v /\
          written (out_log k) (GetIndex l (mkShape l N C Hout Wout) n c y x) = Some v).
  { intros d l k1 Hd Hk1. apply Resize_returns; [| | exact Hk1].
    - intros y Hy. destruct (texel0_inside Hin Hout y) as (y0 & Ey & _); try lia.
      now exists y0.
    - intros n1 c1 y x Hsp.
      destruct (value_at_inside d l method N C Hin Win Hout Wout n1 c1 y x)
        as (y0 & x0 & _ & _ & _ & _ & _ & _ & Hv); auto.
      cbv zeta in Hv. rewrite Hv. now eexists. }
  destruct (Hret inpF NCHW kF0 HsizeF HkF0) as (kF & HrunF & HwF).
  destruct (Hret inpL NHWC kL0 HsizeL HkL0) as (kL & HrunL & HwL).
  exists kF, kL. split; [exact HrunF |]. split; [exact HrunL |].
  intros n c y x Hsp. pose proof Hsp as (Rn & Rc & Ry & Rx).
  destruct (HwF n c y x Hsp) as (v & Hv & Hwr).
  destruct (HwL n c y x Hsp) as (v' & Hv' & Hwr').
  exists v. split; [exact Hwr |]. rewrite Hwr'. f_equal.
  destruct (value_at_inside inpF NCHW method N C Hin Win Hout Wout n c y x)
    as (y0 & x0 & Ey & Ex & By0 & Bx0 & By1 & Bx1 & E); auto.
  destruct (value_at_inside inpL NHWC method N C Hin Win Hout Wout n c y x)
    as (y0' & x0' & Ey' & Ex' & _ & _ & _ & _ & E'); auto.
  rewrite Ey in Ey'. rewrite Ex in Ex'. injection Ey' as <-. injection Ex' as <-.
  cbv zeta in E, E'. rewrite E in Hv. rewrite E' in Hv'.
  injection Hv as <-. injection Hv' as <-.
  rewrite !(Hsame n c) by (unfold in_space; lia). reflexivity.
Qed.

(** The two columns hold the same logical tensor. *)
Lemma column_layouts (n c y x : Z) :
  in_space 2 2 257 1 n c y x ->
  element NCHW column (mkShape NCHW 2 2 257 1) n c y x =
  element NHWC column_last (mkShape NHWC 2 2 257 1) n c y x.
Proof.
  intros (Rn & Rc & Ry & Rx). unfold element. rewrite !GetIndex_mkShape.
  unfold column, column_last. cbn [dec_elem]. f_equal.
  assert (x = 0) as -> by lia.
  Z.div_mod_to_equations. lia.
Qed.

(** The rows of the first plane of the two columns, up to the last one,
    can all be computed: the floored coordinate is [257] at most, and the
    sample read there is inside the buffer in both layouts. *)
Lemma column_rows (inp : Decoder) (l : DataLayout) (y' x' : Z) :
  dec_size inp = 1028 ->
  0 <= y' <= 8416374 -> 0 <= x' < 1 ->
  exists v',
    value_at inp (mkShape l 2 2 257 1) (mkShape l 2 2 8416375 1) l NearestNeighbor
             0 0 y' x' = Ok v'.
Proof.
  intros Hsize Hy Hx. assert (x' = 0) as -> by lia.
  destruct (texel0_at_most 257 8416375 y') as (y0 & Ey & By0); try lia.
  assert (Ex : texel0 1 1 0 = Ok 0) by reflexivity.
  rewrite (value_at_nearest inp l NearestNeighbor 2 2 257 1 8416375 1 0 0 y' 0 y0 0)
    by (try discriminate; try lia; assumption).
  rewrite read_in_bounds; [now eexists |].
  rewrite GetIndex_mkShape, Hsize. destruct l; lia.
Qed.

(** C10 fails on the code.  The 2x2x257x1 tensor [column], resized to
    8416375 rows with the nearest-neighbour policy, is the same logical
    tensor in the two layouts, each in a buffer of its 1028 elements.  At
    the last output row the floored coordinate is [257 = Hin], one past
    the last input row, and it is not clamped: the read goes to the
    offset of row 257 of the plane, which is the first row of the next
    plane in the buffer, another one in each layout.  At the logical
    coordinate (0, 0, 8416374, 0) the channel-first call writes [257.0],
    the element (0, 1, 0, 0), and the channel-last call writes [514.0],
    the element (1, 0, 0, 0). *)
Lemma layouts_disagree :
  (forall n c y x, in_space 2 2 257 1 n c y x ->
     element NCHW column (mkShape NCHW 2 2 257 1) n c y x =
     element NHWC column_last (mkShape NHWC 2 2 257 1) n c y x) /\
  texel0 257 8416375 8416374 = Ok 257 /\
  written (out_log column_nearest)
          (GetIndex NCHW (mkShape NCHW 2 2 8416375 1) 0 0 8416374 0) = Some (F32.of_Z 257) /\
  written (out_log column_last_nearest)
          (GetIndex NHWC (mkShape NHWC 2 2 8416375 1) 0 0 8416374 0) = Some (F32.of_Z 514) /\
  F32.of_Z 257 <> F32.of_Z 514 /\
  element NCHW column (mkShape NCHW 2 2 257 1) 0 1 0 0 = F32.of_Z 257 /\
  element NCHW column (mkShape NCHW 2 2 257 1) 1 0 0 0 = F32.of_Z 514.
Proof.
  split; [exact column_layouts |]. split; [vm_compute; reflexivity |].
  split; [| split; [| split; [vm_compute; discriminate | split; reflexivity]]].
  - apply written_in_first_plane; [reflexivity | unfold in_space; lia | |].
    + intros y' x' Hy Hx. apply column_rows; [reflexivity | lia | lia].
    + vm_compute. reflexivity.
  - apply written_in_first_plane; [reflexivity | unfold in_space; lia | |].
    + intros y' x' Hy Hx. apply column_rows; [reflexivity | lia | lia].
    + vm_compute. reflexivity.
Qed.
